(** * StockRevenueLab: the dashboards' queries, checked against their description

    The repository is a set of Streamlit pages ([app.py],
    [pages/11_app_high.py], [pages/probability.py], [pages/timing_lab.py]).
    Each page builds SQL text for a PostgreSQL store, runs it, and renders the
    rows.  This development embeds the parts the specification talks about:

    - the SQL fragments (return formula, CASE bucket tables, report-month
      window, aggregate selector) as Rocq functions over SQL values, with
      NULL and division by zero written out;
    - the Python glue ([get_engine], the cached fetch functions, the page
      scripts, [urllib.parse.quote], the statistics of the alternate path) as
      functions in small state and error monads.

    Numbers are exact rationals ([Q]); a SQL NULL and a pandas NaN are
    [None]. *)

From Stdlib Require Import QArith Qround Qabs Qminmax ZArith String Ascii List Bool Lia Lqa.
From Stdlib Require Import Sorting.Permutation.
From stdpp Require Import gmap strings pretty sorting.
Import ListNotations.

Local Open Scope Q_scope.
Local Open Scope string_scope.

(** ** SQL values and three-valued logic *)

Module Sql.

(** A numeric column value; [None] is NULL. *)
Definition numeric := option Q.

Definition lit (q : Q) : numeric := Some q.

(** A statement either answers or raises (PostgreSQL aborts the whole query). *)
Inductive sql_error :=
| division_by_zero
| undefined_column
| nested_aggregate
| ungrouped_column.

Inductive result (A : Type) :=
| Answer (a : A)
| Raised (e : sql_error).
Arguments Answer {A} a.
Arguments Raised {A} e.

Definition bind {A B} (m : result A) (k : A -> result B) : result B :=
  match m with
  | Answer a => k a
  | Raised e => Raised e
  end.

Definition Qlt_bool (x y : Q) : bool := negb (Qle_bool y x).

(** Comparisons are strict in NULL: a NULL operand gives unknown. *)
Definition sql_le (a b : numeric) : option bool :=
  match a, b with
  | Some x, Some y => Some (Qle_bool x y)
  | _, _ => None
  end.

Definition sql_lt (a b : numeric) : option bool :=
  match a, b with
  | Some x, Some y => Some (Qlt_bool x y)
  | _, _ => None
  end.

Definition sql_gt (a b : numeric) : option bool := sql_lt b a.
Definition sql_ge (a b : numeric) : option bool := sql_le b a.

Definition sql_sub (a b : numeric) : numeric :=
  match a, b with
  | Some x, Some y => Some (x - y)
  | _, _ => None
  end.

Definition sql_mul (a b : numeric) : numeric :=
  match a, b with
  | Some x, Some y => Some (x * y)
  | _, _ => None
  end.

(** [a / b]: NULL if an operand is NULL, an error on a zero divisor. *)
Definition sql_div (a b : numeric) : result numeric :=
  match a, b with
  | Some x, Some y =>
      if Qeq_bool y 0 then Raised division_by_zero else Answer (Some (x / y))
  | _, _ => Answer None
  end.

(** [CASE WHEN c1 THEN v1 ... ELSE e END]: the first branch whose condition is
    true; a false or unknown condition falls through. *)
Fixpoint sql_case {A} (branches : list (option bool * A)) (els : A) : A :=
  match branches with
  | [] => els
  | (Some true, v) :: _ => v
  | _ :: rest => sql_case rest els
  end.

(** A WHERE clause keeps a row only when its condition is true. *)
Definition holds (c : option bool) : bool :=
  match c with
  | Some true => true
  | _ => false
  end.

Definition is_not_null (a : numeric) : option bool :=
  match a with
  | Some _ => Some true
  | None => Some false
  end.

Definition sql_and (a b : option bool) : option bool :=
  match a, b with
  | Some false, _ | _, Some false => Some false
  | Some true, Some true => Some true
  | _, _ => None
  end.

Definition sql_or (a b : option bool) : option bool :=
  match a, b with
  | Some true, _ | _, Some true => Some true
  | Some false, Some false => Some false
  | _, _ => None
  end.

End Sql.
Import Sql.

Notation "'WHEN' c 'THEN' v" := (c, v) (at level 69, c at level 68, only parsing).

(** ** Annual price records and the return formula *)

(** A row of [stock_annual_k]. *)
Record annual_k := {
  symbol : string;
  year : string;
  year_open : numeric;
  year_close : numeric;
  year_high : numeric
}.

(** ** SQL expressions

    The expressions the pages splice into their queries: column references,
    arithmetic, a one-branch CASE and the aggregates of the statistic
    selector.  [Col c] is the text [c] (or [m.c]) in the query. *)

Inductive expr :=
| Col (c : string)
| Num (q : Q)
| Sub (a b : expr)
| Mul (a b : expr)
| Div (a b : expr)
| Abs (a : expr)
| Power (a : expr) (n : positive)
| NullIf (a b : expr)
| CaseWhen (c : cond) (t e : expr)
| Avg (a : expr)
| Stddev (a : expr)
| Sum (a : expr)
| CountStar
| PercentileCont (p : Q) (a : expr)
with cond :=
| CEq (a b : expr)
| CGt (a b : expr).

(** A row gives each named column a value ([None]: no such column). *)
Definition row := string -> option numeric.

Definition sql_abs (a : numeric) : numeric := option_map Qabs a.
Definition sql_power (a : numeric) (n : positive) : numeric :=
  option_map (fun x => Qpower_positive x n) a.
Definition sql_eq (a b : numeric) : option bool :=
  match a, b with
  | Some x, Some y => Some (Qeq_bool x y)
  | _, _ => None
  end.
Definition sql_nullif (a b : numeric) : numeric :=
  match sql_eq a b with
  | Some true => None
  | _ => a
  end.

(** Evaluation on one row.  An aggregate has no meaning on a single row: this
    is where PostgreSQL rejects an aggregate call inside the argument of
    another ("aggregate function calls cannot be nested"). *)
Fixpoint eval_row (r : row) (e : expr) : result numeric :=
  match e with
  | Col c => match r c with Some v => Answer v | None => Raised undefined_column end
  | Num q => Answer (Some q)
  | Sub a b => bind (eval_row r a) (fun x => bind (eval_row r b) (fun y => Answer (sql_sub x y)))
  | Mul a b => bind (eval_row r a) (fun x => bind (eval_row r b) (fun y => Answer (sql_mul x y)))
  | Div a b => bind (eval_row r a) (fun x => bind (eval_row r b) (fun y => sql_div x y))
  | Abs a => bind (eval_row r a) (fun x => Answer (sql_abs x))
  | Power a n => bind (eval_row r a) (fun x => Answer (sql_power x n))
  | NullIf a b => bind (eval_row r a) (fun x => bind (eval_row r b) (fun y => Answer (sql_nullif x y)))
  | CaseWhen c t e =>
      bind (eval_row_cond r c) (fun b =>
        match b with
        | Some true => eval_row r t
        | _ => eval_row r e
        end)
  | Avg _ | Stddev _ | Sum _ | CountStar | PercentileCont _ _ => Raised nested_aggregate
  end
with eval_row_cond (r : row) (c : cond) : result (option bool) :=
  match c with
  | CEq a b => bind (eval_row r a) (fun x => bind (eval_row r b) (fun y => Answer (sql_eq x y)))
  | CGt a b => bind (eval_row r a) (fun x => bind (eval_row r b) (fun y => Answer (sql_gt x y)))
  end.

(** The columns of [stock_annual_k] a return expression may name. *)
Definition annual_row (k : annual_k) : row :=
  fun c =>
    if String.eqb c "year_open" then Some (year_open k)
    else if String.eqb c "year_close" then Some (year_close k)
    else if String.eqb c "year_high" then Some (year_high k)
    else None.

(** ** The return expression of each query *)

(** [(({price_field} - year_open) / year_open) * 100] *)
Definition return_expr (price_field : string) : expr :=
  Mul (Div (Sub (Col price_field) (Col "year_open")) (Col "year_open")) (Num 100).

Module App.
(** app.py, [fetch_heatmap_data] and [fetch_stat_summary]:
    [((year_close - year_open) / year_open) * 100 AS annual_return]. *)
Definition annual_return : expr :=
  Mul (Div (Sub (Col "year_close") (Col "year_open")) (Col "year_open")) (Num 100).
(** app.py, [detail_query]:
    [((year_close - year_open) / year_open) * 100 as annual_ret]. *)
Definition annual_ret : expr :=
  Mul (Div (Sub (Col "year_close") (Col "year_open")) (Col "year_open")) (Num 100).
End App.

Module High.
(** pages/11_app_high.py, both queries:
    [((year_high - year_open) / year_open) * 100 AS annual_max_return]. *)
Definition annual_max_return : expr :=
  Mul (Div (Sub (Col "year_high") (Col "year_open")) (Col "year_open")) (Num 100).
End High.

Module Probability.
(** pages/probability.py, [fetch_multi_year_data]:
    [(({price_field} - year_open) / year_open) * 100 as annual_return]. *)
Definition annual_return (price_field : string) : expr :=
  Mul (Div (Sub (Col price_field) (Col "year_open")) (Col "year_open")) (Num 100).
(** [fetch_prob_data] and [fetch_prob_data_alt]:
    [(({price_field} - year_open) / year_open)*100 as ret]. *)
Definition ret (price_field : string) : expr :=
  Mul (Div (Sub (Col price_field) (Col "year_open")) (Col "year_open")) (Num 100).
(** [detail_query]: [(k.{price_field} - k.year_open)/k.year_open*100]; [/] and
    [*] associate to the left. *)
Definition detail_return (price_field : string) : expr :=
  Mul (Div (Sub (Col price_field) (Col "year_open")) (Col "year_open")) (Num 100).
(** The sidebar radio: close price, or the year's high. *)
Inductive price_calc := ClosePrice | HighPrice.
Definition price_field (p : price_calc) : string :=
  match p with
  | ClosePrice => "year_close"
  | HighPrice => "year_high"
  end.
End Probability.

(** The return formula in the specification's words. *)
Definition spec_return (price open : Q) : Q := ((price - open) / open) * 100.

(** ** Bucket tables *)

Module CloseBins.
(** The [return_bin] CASE of app.py ([fetch_heatmap_data],
    [fetch_stat_summary], [detail_query]); [r] is the value of the return
    expression every WHEN repeats. *)
Definition return_bin (r : numeric) : string :=
  sql_case
    [ WHEN sql_le r (lit (-100)) THEN "00. 下跌-100%以下";
      WHEN sql_lt r (lit (-90)) THEN "01. 下跌-100%至-90%";
      WHEN sql_lt r (lit (-80)) THEN "02. 下跌-90%至-80%";
      WHEN sql_lt r (lit (-70)) THEN "03. 下跌-80%至-70%";
      WHEN sql_lt r (lit (-60)) THEN "04. 下跌-70%至-60%";
      WHEN sql_lt r (lit (-50)) THEN "05. 下跌-60%至-50%";
      WHEN sql_lt r (lit (-40)) THEN "06. 下跌-50%至-40%";
      WHEN sql_lt r (lit (-30)) THEN "07. 下跌-40%至-30%";
      WHEN sql_lt r (lit (-20)) THEN "08. 下跌-30%至-20%";
      WHEN sql_lt r (lit (-10)) THEN "09. 下跌-20%至-10%";
      WHEN sql_lt r (lit 0) THEN "10. 下跌-10%至0%";
      WHEN sql_lt r (lit 100) THEN "11. 上漲0-100%";
      WHEN sql_lt r (lit 200) THEN "12. 上漲100-200%";
      WHEN sql_lt r (lit 300) THEN "13. 上漲200-300%";
      WHEN sql_lt r (lit 400) THEN "14. 上漲300-400%";
      WHEN sql_lt r (lit 500) THEN "15. 上漲400-500%";
      WHEN sql_lt r (lit 600) THEN "16. 上漲500-600%";
      WHEN sql_lt r (lit 700) THEN "17. 上漲600-700%";
      WHEN sql_lt r (lit 800) THEN "18. 上漲700-800%";
      WHEN sql_lt r (lit 900) THEN "19. 上漲800-900%";
      WHEN sql_lt r (lit 1000) THEN "20. 上漲900-1000%" ]
    "21. 上漲1000%以上".

(** The parallel [bin_order] CASE of [fetch_heatmap_data] and
    [fetch_stat_summary]. *)
Definition bin_order (r : numeric) : Z :=
  sql_case
    [ WHEN sql_le r (lit (-100)) THEN 0%Z;
      WHEN sql_lt r (lit (-90)) THEN 1%Z;
      WHEN sql_lt r (lit (-80)) THEN 2%Z;
      WHEN sql_lt r (lit (-70)) THEN 3%Z;
      WHEN sql_lt r (lit (-60)) THEN 4%Z;
      WHEN sql_lt r (lit (-50)) THEN 5%Z;
      WHEN sql_lt r (lit (-40)) THEN 6%Z;
      WHEN sql_lt r (lit (-30)) THEN 7%Z;
      WHEN sql_lt r (lit (-20)) THEN 8%Z;
      WHEN sql_lt r (lit (-10)) THEN 9%Z;
      WHEN sql_lt r (lit 0) THEN 10%Z;
      WHEN sql_lt r (lit 100) THEN 11%Z;
      WHEN sql_lt r (lit 200) THEN 12%Z;
      WHEN sql_lt r (lit 300) THEN 13%Z;
      WHEN sql_lt r (lit 400) THEN 14%Z;
      WHEN sql_lt r (lit 500) THEN 15%Z;
      WHEN sql_lt r (lit 600) THEN 16%Z;
      WHEN sql_lt r (lit 700) THEN 17%Z;
      WHEN sql_lt r (lit 800) THEN 18%Z;
      WHEN sql_lt r (lit 900) THEN 19%Z;
      WHEN sql_lt r (lit 1000) THEN 20%Z ]
    21%Z.

(** The 22 labels, in the order of the CASE. *)
Definition labels : list string :=
  [ "00. 下跌-100%以下"; "01. 下跌-100%至-90%"; "02. 下跌-90%至-80%";
    "03. 下跌-80%至-70%"; "04. 下跌-70%至-60%"; "05. 下跌-60%至-50%";
    "06. 下跌-50%至-40%"; "07. 下跌-40%至-30%"; "08. 下跌-30%至-20%";
    "09. 下跌-20%至-10%"; "10. 下跌-10%至0%"; "11. 上漲0-100%";
    "12. 上漲100-200%"; "13. 上漲200-300%"; "14. 上漲300-400%";
    "15. 上漲400-500%"; "16. 上漲500-600%"; "17. 上漲600-700%";
    "18. 上漲700-800%"; "19. 上漲800-900%"; "20. 上漲900-1000%";
    "21. 上漲1000%以上" ].
End CloseBins.

Module HighBins.
(** The [return_bin] CASE of pages/11_app_high.py
    ([fetch_heatmap_data_high], [fetch_stat_summary_high]). *)
Definition return_bin (r : numeric) : string :=
  sql_case
    [ WHEN sql_lt r (lit 100) THEN "01. 上漲0-100%";
      WHEN sql_lt r (lit 200) THEN "02. 上漲100-200%";
      WHEN sql_lt r (lit 300) THEN "03. 上漲200-300%";
      WHEN sql_lt r (lit 400) THEN "04. 上漲300-400%";
      WHEN sql_lt r (lit 500) THEN "05. 上漲400-500%";
      WHEN sql_lt r (lit 600) THEN "06. 上漲500-600%";
      WHEN sql_lt r (lit 700) THEN "07. 上漲600-700%";
      WHEN sql_lt r (lit 800) THEN "08. 上漲700-800%";
      WHEN sql_lt r (lit 900) THEN "09. 上漲800-900%";
      WHEN sql_lt r (lit 1000) THEN "10. 上漲900-1000%" ]
    "11. 上漲1000%以上".

Definition bin_order (r : numeric) : Z :=
  sql_case
    [ WHEN sql_lt r (lit 100) THEN 1%Z;
      WHEN sql_lt r (lit 200) THEN 2%Z;
      WHEN sql_lt r (lit 300) THEN 3%Z;
      WHEN sql_lt r (lit 400) THEN 4%Z;
      WHEN sql_lt r (lit 500) THEN 5%Z;
      WHEN sql_lt r (lit 600) THEN 6%Z;
      WHEN sql_lt r (lit 700) THEN 7%Z;
      WHEN sql_lt r (lit 800) THEN 8%Z;
      WHEN sql_lt r (lit 900) THEN 9%Z;
      WHEN sql_lt r (lit 1000) THEN 10%Z ]
    11%Z.

(** The eleven labels, in the order of the CASE. *)
Definition labels : list string :=
  [ "01. 上漲0-100%"; "02. 上漲100-200%"; "03. 上漲200-300%"; "04. 上漲300-400%";
    "05. 上漲400-500%"; "06. 上漲500-600%"; "07. 上漲600-700%"; "08. 上漲700-800%";
    "09. 上漲800-900%"; "10. 上漲900-1000%"; "11. 上漲1000%以上" ].

(** The WHERE clause of the [annual_bins] CTE after the year test:
    [year_open IS NOT NULL AND year_high IS NOT NULL AND year_open > 0]. *)
Definition complete_record (k : annual_k) : bool :=
  holds (sql_and (sql_and (is_not_null (year_open k)) (is_not_null (year_high k)))
                 (sql_gt (year_open k) (lit 0))).
End HighBins.

(** ** Reading a label's numeric prefix *)

Definition digit_of (c : ascii) : option Z :=
  let n := Z.of_nat (nat_of_ascii c) in
  if ((48 <=? n) && (n <=? 57))%Z then Some (n - 48)%Z else None.

(** The decimal number in front of the first ['.'] of a label. *)
Fixpoint prefix_number (acc : Z) (s : string) : option Z :=
  match s with
  | EmptyString => None
  | String c rest =>
      if Ascii.eqb c "."%char then Some acc
      else match digit_of c with
           | Some d => prefix_number (10 * acc + d) rest
           | None => None
           end
  end.

Definition label_order (s : string) : option Z := prefix_number 0 s.

(** The labels are listed in increasing byte order (their two-digit prefixes
    decide every comparison). *)
Definition labels_increasing (l : list string) : bool :=
  forallb (fun i => forallb (fun j => String.leb (nth i l "") (nth j l ""))
                            (seq i (length l - i)))
          (seq 0 (length l)).

(** ** The 22 intervals in the specification's words *)

(** One bin at or below -100, ten bins ten wide up to 0, ten bins a hundred
    wide up to 1000, one bin from 1000 on.  Bin 1 starts strictly above -100,
    every later bin includes its lower end. *)
Definition in_bin (k : Z) (r : Q) : Prop :=
  if (k =? 0)%Z then r <= -100
  else if (k =? 1)%Z then -100 < r /\ r < -90
  else if (k <=? 10)%Z then -100 + 10 * (inject_Z k - 1) <= r /\ r < -100 + 10 * inject_Z k
  else if (k <=? 20)%Z then 100 * (inject_Z k - 11) <= r /\ r < 100 * (inject_Z k - 10)
  else 1000 <= r.

(** ** The [annual_bins] common table expression *)

(** A row of [annual_bins]: symbol, return, label, order. *)
Record binned := {
  b_symbol : string;
  b_return : numeric;
  b_return_bin : string;
  b_bin_order : Z
}.

(** The SELECT list of [annual_bins] on one row of [stock_annual_k]. *)
Definition select_binned (ret : expr) (bin : numeric -> string) (ord : numeric -> Z)
    (k : annual_k) : result binned :=
  bind (eval_row (annual_row k) ret) (fun r =>
    Answer {| b_symbol := symbol k; b_return := r;
              b_return_bin := bin r; b_bin_order := ord r |}).

(** Run a row function over a table; the first error aborts the query. *)
Fixpoint collect {A B} (f : A -> result B) (l : list A) : result (list B) :=
  match l with
  | [] => Answer []
  | a :: rest =>
      bind (f a) (fun b => bind (collect f rest) (fun bs => Answer (b :: bs)))
  end.

(** app.py: [FROM stock_annual_k WHERE year = '{year}']. *)
Definition app_annual_bins (y : string) (table : list annual_k) : result (list binned) :=
  collect (select_binned App.annual_return CloseBins.return_bin CloseBins.bin_order)
          (List.filter (fun k => String.eqb (year k) y) table).

(** pages/11_app_high.py: [WHERE year = '{year}' AND year_open IS NOT NULL
    AND year_high IS NOT NULL AND year_open > 0]. *)
Definition high_annual_bins (y : string) (table : list annual_k) : result (list binned) :=
  collect (select_binned High.annual_max_return HighBins.return_bin HighBins.bin_order)
          (List.filter (fun k => String.eqb (year k) y && HighBins.complete_record k) table).

(** Two records used as examples. *)
Definition sample_record : annual_k :=
  {| symbol := "2330.TW"; year := "2024";
     year_open := Some 100; year_close := Some 150; year_high := Some 180 |}.

Definition falling_record : annual_k :=
  {| symbol := "9999.TW"; year := "2024";
     year_open := Some 50; year_close := Some 30; year_high := Some 40 |}.

(** ** The report-month window *)

Module ReportMonth.

(** [minguo_year = int(year) - 1911]; [year] here is the value of
    [int(year)].  The f-strings print it in decimal ([pretty]). *)
Definition minguo_year (year : Z) : Z := year - 1911.
Definition prev_minguo_year (year : Z) : Z := minguo_year year - 1.

(** SQL [s LIKE p] on single-byte text: ['%'] matches any run of characters,
    ['_'] exactly one, any other character itself. *)
Fixpoint like (p : string) : string -> bool :=
  match p with
  | EmptyString => fun s => match s with EmptyString => true | String _ _ => false end
  | String c p' =>
      if Ascii.eqb c "%"%char then
        fix any_run (s : string) : bool :=
          like p' s || match s with
                       | EmptyString => false
                       | String _ s' => any_run s'
                       end
      else if Ascii.eqb c "_"%char then
        fun s => match s with
                 | EmptyString => false
                 | String _ s' => like p' s'
                 end
      else
        fun s => match s with
                 | EmptyString => false
                 | String d s' => Ascii.eqb c d && like p' s'
                 end
  end.

(** app.py, [monthly_stats] of [fetch_heatmap_data] and [fetch_stat_summary]:
    [report_month = '{prev_minguo_year}_12'
     OR (report_month LIKE '{minguo_year}_%'
         AND report_month < '{minguo_year}_12'
         AND LENGTH(report_month) <= 7)]. *)
Definition app_window (year : Z) (report_month : string) : bool :=
  String.eqb report_month (pretty (prev_minguo_year year) +:+ "_12")
  || (like (pretty (minguo_year year) +:+ "_%") report_month
      && String.ltb report_month (pretty (minguo_year year) +:+ "_12")
      && (String.length report_month <=? 7)%nat).

(** pages/probability.py, [hit_table] of [fetch_prob_data]:
    [report_month = '{prev_minguo_year}_12'
     OR (report_month LIKE '{minguo_year}_%' AND report_month <= '{minguo_year}_11')]. *)
Definition prob_window (year : Z) (report_month : string) : bool :=
  String.eqb report_month (pretty (prev_minguo_year year) +:+ "_12")
  || (like (pretty (minguo_year year) +:+ "_%") report_month
      && String.leb report_month (pretty (minguo_year year) +:+ "_11")).

(** A pattern without wildcards. *)
Fixpoint literal (p : string) : bool :=
  match p with
  | EmptyString => true
  | String c p' => negb (Ascii.eqb c "%"%char) && negb (Ascii.eqb c "_"%char) && literal p'
  end.

(** The encoding the specification assumes: a three-digit year offset, an
    underscore, the month padded to two digits. *)
Definition pad2 (m : Z) : string :=
  if (m <? 10)%Z then "0" +:+ pretty m else pretty m.

Definition encode (y m : Z) : string := pretty y +:+ "_" +:+ pad2 m.

(** December of the previous year, then January to November. *)
Definition window_months (year : Z) : list (Z * Z) :=
  (prev_minguo_year year, 12%Z)
  :: map (fun m => (minguo_year year, m)) [1; 2; 3; 4; 5; 6; 7; 8; 9; 10; 11]%Z.

End ReportMonth.

(** ** [urllib.parse]: percent-encoding

    A Python [str] is modelled by its UTF-8 bytes, which is what [quote]
    encodes. *)

Module Urllib.

Definition in_range (lo hi c : ascii) : bool :=
  (nat_of_ascii lo <=? nat_of_ascii c)%nat && (nat_of_ascii c <=? nat_of_ascii hi)%nat.

Fixpoint mem (c : ascii) (s : string) : bool :=
  match s with
  | EmptyString => false
  | String d rest => Ascii.eqb c d || mem c rest
  end.

(** [_ALWAYS_SAFE]: letters, digits and [_.-~]. *)
Definition always_safe (c : ascii) : bool :=
  in_range "A" "Z" c || in_range "a" "z" c || in_range "0" "9" c || mem c "_.-~".

Definition hex_digit (n : nat) : ascii :=
  if (n <? 10)%nat then ascii_of_nat (48 + n) else ascii_of_nat (55 + n).

(** ['%{:02X}'.format(b)] *)
Definition percent (c : ascii) : string :=
  let n := nat_of_ascii c in
  String "%" (String (hex_digit (n / 16)) (String (hex_digit (n mod 16)) EmptyString)).

(** [quote_from_bytes(bs, safe)]: a byte is kept when it is always safe or
    listed in [safe], and written [%XX] otherwise. *)
Fixpoint quote_from_bytes (safe : string) (bs : string) : string :=
  match bs with
  | EmptyString => EmptyString
  | String c rest =>
      (if always_safe c || mem c safe then String c EmptyString else percent c)
      +:+ quote_from_bytes safe rest
  end.

(** [quote(string)] with its default [safe='/']. *)
Definition quote (s : string) : string := quote_from_bytes "/" s.

Fixpoint replace_space (s : string) : string :=
  match s with
  | EmptyString => EmptyString
  | String c rest => String (if Ascii.eqb c " " then "+"%char else c) (replace_space rest)
  end.

(** [quote_plus(string)] with its default [safe='']: without a space it is
    [quote(string, '')]; otherwise spaces are kept by [quote] and then
    replaced by ['+']. *)
Definition quote_plus (s : string) : string :=
  if mem " " s then replace_space (quote_from_bytes " " s)
  else quote_from_bytes "" s.

(** Reading an encoded text back ([unquote]): [%XX] is one byte. *)
Definition hex_value (c : ascii) : option nat :=
  if in_range "0" "9" c then Some (nat_of_ascii c - 48)%nat
  else if in_range "A" "F" c then Some (nat_of_ascii c - 55)%nat
  else if in_range "a" "f" c then Some (nat_of_ascii c - 87)%nat
  else None.

Fixpoint unquote (s : string) : string :=
  match s with
  | EmptyString => EmptyString
  | String c tail =>
      if Ascii.eqb c "%" then
        match tail with
        | String h (String l rest) =>
            match hex_value h, hex_value l with
            | Some a, Some b => String (ascii_of_nat (16 * a + b)) (unquote rest)
            | _, _ => String c (unquote tail)
            end
        | _ => String c (unquote tail)
        end
      else String c (unquote tail)
  end.

End Urllib.

(** ** [get_engine] *)

Module Engine.

(** A value of the secrets store: TOML text, or something that is not text. *)
Inductive secret :=
| SecretText (s : string)
| SecretNumber (n : Z).

(** What the f-string prints for a secret. *)
Definition format (v : secret) : string :=
  match v with
  | SecretText s => s
  | SecretNumber n => pretty n
  end.

(** [urllib.parse.quote_plus] raises [TypeError] on a value that is neither
    text nor bytes. *)
Definition quote_plus (v : secret) : option string :=
  match v with
  | SecretText s => Some (Urllib.quote_plus s)
  | SecretNumber _ => None
  end.

(** The engine [create_engine] builds for a URL. *)
Record engine := { engine_url : string }.

(** What the user sees and what the script does to the outside. *)
Inductive event :=
| CreateEngine (url : string)
| StError (msg : string)
| StStop.

(** A call either returns or stops the script run ([st.stop()]). *)
Inductive outcome (A : Type) :=
| Returned (a : A)
| Stopped.
Arguments Returned {A} a.
Arguments Stopped {A}.

(** The body of the [try]: three lookups in [st.secrets] (a missing key
    raises), the encoding of the password, the f-string. *)
Definition connection_string (secrets : gmap string secret) : option string :=
  DB_PASSWORD ← secrets !! "DB_PASSWORD";
  PROJECT_REF ← secrets !! "PROJECT_REF";
  POOLER_HOST ← secrets !! "POOLER_HOST";
  encoded_password ← quote_plus DB_PASSWORD;
  Some ("postgresql://postgres." +:+ format PROJECT_REF +:+ ":" +:+ encoded_password
        +:+ "@" +:+ format POOLER_HOST +:+ ":5432/postgres?sslmode=require").

(** [get_engine]: [create_engine] is the library call, [None] when it raises;
    [message] is the text of the page's [st.error]. *)
Definition get_engine (message : string) (secrets : gmap string secret)
    (create_engine : string -> option engine) : outcome engine * list event :=
  match connection_string secrets with
  | Some url =>
      match create_engine url with
      | Some e => (Returned e, [CreateEngine url])
      | None => (Stopped, [CreateEngine url; StError message; StStop])
      end
  | None => (Stopped, [StError message; StStop])
  end.

(** The message of app.py and pages/11_app_high.py. *)
Definition app_message : string := "❌ 資料庫連線失敗，請檢查 Streamlit Secrets 設定。".
(** The message of pages/probability.py. *)
Definition probability_message : string := "❌ 資料庫連線失敗，請檢查 Secrets 設定".
(** The message of pages/timing_lab.py. *)
Definition timing_message : string := "❌ 資料庫連線失敗".

Definition creations (t : list event) : nat :=
  length (List.filter (fun e => match e with CreateEngine _ => true | _ => false end) t).

Definition example_secrets : gmap string secret :=
  {[ "DB_PASSWORD" := SecretText "p@ss word"; "PROJECT_REF" := SecretText "abcd" ]}.

End Engine.

(** ** Links to the AI chat sites *)

Module Links.

Record link := { link_label : string; link_url : string }.

Inductive page := MainPage | HighPage | ProbabilityPage | TimingPage.

(** app.py: [encoded_p = urllib.parse.quote(prompt_text)], two
    [st.link_button]s, and the DeepSeek link of the [st.info] text. *)
Definition app_links (prompt_text : string) : list link :=
  let encoded_p := Urllib.quote prompt_text in
  [ {| link_label := "🔥 開啟 ChatGPT 分析"; link_url := "https://chatgpt.com/" |};
    {| link_label := "🔍 開啟 Claude 分析";
       link_url := "https://claude.ai/new?q=" +:+ encoded_p |};
    {| link_label := "DeepSeek"; link_url := "https://chat.deepseek.com" |} ].

(** pages/11_app_high.py: three [st.link_button]s with fixed addresses. *)
Definition high_links (prompt_text : string) : list link :=
  [ {| link_label := "🔥 ChatGPT 分析"; link_url := "https://chatgpt.com/" |};
    {| link_label := "🔍 Claude 分析"; link_url := "https://claude.ai/new" |};
    {| link_label := "🚀 DeepSeek 分析"; link_url := "https://chat.deepseek.com/" |} ].

(** pages/probability.py: [encoded_prompt = urllib.parse.quote(prompt_text)]. *)
Definition probability_links (prompt_text : string) : list link :=
  let encoded_prompt := Urllib.quote prompt_text in
  [ {| link_label := "🔥 ChatGPT 分析";
       link_url := "https://chatgpt.com/?q=" +:+ encoded_prompt |};
    {| link_label := "🔍 DeepSeek 分析"; link_url := "https://chat.deepseek.com/" |} ].

(** pages/timing_lab.py: one [st.link_button] and the DeepSeek link of the
    [st.info] text. *)
Definition timing_links (prompt_text : string) : list link :=
  let encoded_p := Urllib.quote prompt_text in
  [ {| link_label := "🔥 開啟 ChatGPT 分析";
       link_url := "https://chatgpt.com/?q=" +:+ encoded_p |};
    {| link_label := "DeepSeek"; link_url := "https://chat.deepseek.com" |} ].

Definition ai_links (p : page) (prompt_text : string) : list link :=
  match p with
  | MainPage => app_links prompt_text
  | HighPage => high_links prompt_text
  | ProbabilityPage => probability_links prompt_text
  | TimingPage => timing_links prompt_text
  end.

(** The query part of an address: what follows the first ['?']. *)
Fixpoint query_string (url : string) : option string :=
  match url with
  | EmptyString => None
  | String c rest => if Ascii.eqb c "?" then Some rest else query_string rest
  end.

(** A link carries a text when its query is one parameter whose value decodes
    to the text. *)
Definition carries (text : string) (l : link) : Prop :=
  exists name value,
    query_string (link_url l) = Some (name +:+ "=" +:+ value) /\
    Urllib.unquote value = text.

(** Every byte is unreserved, ['/'], or part of a [%XX] escape. *)
Definition url_safe (s : string) : Prop :=
  forall c, Urllib.mem c s = true ->
    Urllib.always_safe c = true \/ c = "/"%char \/ c = "%"%char.

End Links.

(** ** Page scripts and database round trips

    A page view runs the page's script from top to bottom.  The model keeps
    what matters for counting round trips: the database's answers, the
    [st.cache_data] store, the queries sent, and the three ways a call can
    end. *)

Module Pages.

(** A query or a cached call: its name and the text of its arguments. *)
Definition key := (string * list string)%type.

(** A result table, by the text of its rows; [[]] is an empty DataFrame. *)
Definition table := list string.

Record world := {
  database : key -> option table;  (* the rows a query returns; [None]: it raises *)
  engine_available : bool;         (* whether [get_engine()] returns an engine *)
  cache : gmap key table;          (* st.cache_data: unexpired entries *)
  trips : list key                 (* queries sent to the database, oldest first *)
}.

Inductive run (A : Type) :=
| Finished (a : A) (w : world)
| Failed (w : world)        (* an Exception is propagating *)
| Halted (w : world).      (* st.stop() *)
Arguments Finished {A} a w.
Arguments Failed {A} w.
Arguments Halted {A} w.

Definition script (A : Type) := world -> run A.

Definition ret {A} (a : A) : script A := fun w => Finished a w.

Definition bind {A B} (m : script A) (k : A -> script B) : script B :=
  fun w =>
    match m w with
    | Finished a w' => k a w'
    | Failed w' => Failed w'
    | Halted w' => Halted w'
    end.

Definition seq_ {A B} (m : script A) (k : script B) : script B := bind m (fun _ => k).

(** [try: m except Exception: handler]; [st.stop()] is not an [Exception] and
    passes through. *)
Definition catch {A} (m : script A) (handler : script A) : script A :=
  fun w =>
    match m w with
    | Failed w' => handler w'
    | other => other
    end.

Definition final {A} (r : run A) : world :=
  match r with
  | Finished _ w | Failed w | Halted w => w
  end.

(** [@st.cache_data(ttl=3600)]: a stored value is returned without running
    the body; a value the body returns is stored. *)
Definition cache_data (k : key) (body : script table) : script table :=
  fun w =>
    match cache w !! k with
    | Some v => Finished v w
    | None =>
        match body w with
        | Finished v w' =>
            Finished v {| database := database w'; engine_available := engine_available w';
                      cache := <[k := v]> (cache w'); trips := trips w' |}
        | other => other
        end
    end.

(** [get_engine()]: an engine, or [st.stop()]. *)
Definition get_engine : script unit :=
  fun w => if engine_available w then Finished tt w else Halted w.

(** [with engine.connect() as conn: pd.read_sql_query(text(query), conn)]:
    one round trip, answered or raising. *)
Definition read_sql_query (q : key) : script table :=
  fun w =>
    let w' := {| database := database w; engine_available := engine_available w;
                 cache := cache w; trips := trips w ++ [q] |} in
    match database w q with
    | Some t => Finished t w'
    | None => Failed w'
    end.

Definition is_empty (t : table) : bool :=
  match t with
  | [] => true
  | _ :: _ => false
  end.

(** [sub in s] *)
Fixpoint prefix_of (p s : string) : bool :=
  match p, s with
  | EmptyString, _ => true
  | String a p', String b s' => Ascii.eqb a b && prefix_of p' s'
  | String _ _, EmptyString => false
  end.

Fixpoint contains (sub s : string) : bool :=
  prefix_of sub s ||
  match s with
  | EmptyString => false
  | String _ s' => contains sub s'
  end.

(** The round trips a run added to a world. *)
Definition new_trips {A} (m : script A) (w : world) : nat :=
  (length (trips (final (m w))) - length (trips w))%nat.

(** [m] sends at most [n] queries, whatever the world. *)
Definition costs {A} (m : script A) (n : nat) : Prop :=
  forall w, exists sent,
    trips (final (m w)) = (trips w ++ sent)%list /\ (length sent <= n)%nat.

End Pages.

(** *** app.py *)

Module AppScript.
Import Pages.

Record inputs := {
  target_year : string;
  target_col : string;
  stat_method : string;
  selected_bin : string;
  display_limit : string;
  search_keyword : string;
  quick_stat : string
}.

(** The whole body is inside [try ... except Exception: return "資料擷取中"]. *)
Definition get_latest_data_date : script table :=
  cache_data ("get_latest_data_date", [])
    (catch (seq_ get_engine (read_sql_query ("SELECT MAX(date) FROM stock_prices", [])))
           (ret ["資料擷取中"])).

Definition fetch_heatmap_data (year metric_col method : string) : script table :=
  cache_data ("fetch_heatmap_data", [year; metric_col; method])
    (seq_ get_engine (read_sql_query ("heatmap", [year; metric_col; method]))).

Definition fetch_stat_summary (year metric_col : string) : script table :=
  cache_data ("fetch_stat_summary", [year; metric_col])
    (seq_ get_engine (read_sql_query ("stat_summary", [year; metric_col]))).

(** [display_df = df[df['stat_method'].str.contains(name)]], and a fetch when
    that is empty; every row of [df] has the selected method in that column,
    and [df] is not empty here. *)
Definition quick_display (i : inputs) (name full : string) : script unit :=
  if contains name (stat_method i) then ret tt
  else seq_ (fetch_heatmap_data (target_year i) (target_col i) full) (ret tt).

Definition quick_switch (i : inputs) : script unit :=
  if String.eqb (quick_stat i) "中位數" then quick_display i "中位數" "中位數 (排除極端值)"
  else if String.eqb (quick_stat i) "平均值" then quick_display i "平均值" "平均值 (含極端值)"
  else if String.eqb (quick_stat i) "標準差" then quick_display i "標準差" "標準差 (波動程度)"
  else if String.eqb (quick_stat i) "變異係數" then quick_display i "變異係數" "變異係數 (相對波動)"
  else ret tt.

(** The script: the sidebar date, the two fetches, and under
    [if not df.empty] the uncached [detail_query] and the quick switch. *)
Definition page (i : inputs) : script unit :=
  bind get_latest_data_date (fun _ =>
  bind (fetch_heatmap_data (target_year i) (target_col i) (stat_method i)) (fun df =>
  bind (fetch_stat_summary (target_year i) (target_col i)) (fun _ =>
  if is_empty df then ret tt
  else
    seq_ get_engine
   (seq_ (read_sql_query ("detail_query",
            [target_year i; selected_bin i; search_keyword i; display_limit i]))
         (quick_switch i))))).

End AppScript.

(** *** pages/11_app_high.py *)

Module HighScript.
Import Pages.

Record inputs := {
  target_year : string;
  target_col : string;
  stat_method : string
}.

Definition fetch_heatmap_data_high (year metric_col method : string) : script table :=
  cache_data ("fetch_heatmap_data_high", [year; metric_col; method])
    (seq_ get_engine (read_sql_query ("heatmap_high", [year; metric_col; method]))).

Definition fetch_stat_summary_high (year metric_col : string) : script table :=
  cache_data ("fetch_stat_summary_high", [year; metric_col])
    (seq_ get_engine (read_sql_query ("stat_summary_high", [year; metric_col]))).

Definition page (i : inputs) : script unit :=
  bind (fetch_heatmap_data_high (target_year i) (target_col i) (stat_method i)) (fun _ =>
  bind (fetch_stat_summary_high (target_year i) (target_col i)) (fun _ => ret tt)).

End HighScript.

(** *** pages/probability.py *)

Module ProbabilityScript.
Import Pages.

Record inputs := {
  target_year : string;
  study_metric : string;
  low : string;
  high : string;
  price_field : string;
  show_multi_year : bool;
  selected_hits : string
}.

Definition args (i : inputs) : list string :=
  [target_year i; study_metric i; low i; high i; price_field i].

(** [fetch_prob_data_alt]: not cached; its query raising is not caught. *)
Definition fetch_prob_data_alt (a : list string) : script table :=
  seq_ get_engine (read_sql_query ("prob_raw", a)).

(** [fetch_prob_data]: the aggregate query, and on any exception the
    alternate path. *)
Definition fetch_prob_data (a : list string) : script table :=
  cache_data ("fetch_prob_data", a)
    (seq_ get_engine
       (catch (read_sql_query ("prob", a)) (fetch_prob_data_alt a))).

(** [fetch_multi_year_data]: no query for an empty stock list. *)
Definition fetch_multi_year_data (stock_list : list string) (year price : string) : script table :=
  cache_data ("fetch_multi_year_data", (stock_list ++ [year; price])%list)
    (if is_empty stock_list then ret []
     else seq_ get_engine (read_sql_query ("multi_year", (stock_list ++ [year; price])%list))).

(** Section E, inside [try ... except Exception: st.error(...)]. *)
Definition multi_year_section (i : inputs) : script unit :=
  catch
    (seq_ get_engine
       (bind (read_sql_query ("list_query", [target_year i; study_metric i; low i; high i]))
             (fun stock_list_df =>
                if is_empty stock_list_df then ret tt
                else seq_ (fetch_multi_year_data stock_list_df (target_year i) (price_field i))
                          (ret tt))))
    (ret tt).

(** Section F, inside [try ... except Exception: st.error(...)]. *)
Definition detail_section (i : inputs) : script unit :=
  catch
    (seq_ get_engine
       (seq_ (read_sql_query ("detail_query", (args i ++ [selected_hits i])%list)) (ret tt)))
    (ret tt).

Definition page (i : inputs) : script unit :=
  bind (fetch_prob_data (args i)) (fun df_prob =>
  if is_empty df_prob then ret tt
  else
    seq_ (if show_multi_year i then multi_year_section i else ret tt)
         (detail_section i)).

End ProbabilityScript.

(** *** pages/timing_lab.py *)

Module TimingScript.
Import Pages.

Record inputs := {
  target_year : string;
  study_metric : string;
  threshold : string;
  search_remark : string
}.

Definition fetch_timing_data (year metric_col limit keyword : string) : script table :=
  cache_data ("fetch_timing_data", [year; metric_col; limit; keyword])
    (seq_ get_engine (read_sql_query ("timing", [year; metric_col; limit; keyword]))).

Definition page (i : inputs) : script unit :=
  seq_ (fetch_timing_data (target_year i) (study_metric i) (threshold i) (search_remark i))
       (ret tt).

End TimingScript.

(** A first view of the main page: nothing cached, every query answered, the
    mean selected and the quick switch left on the median. *)
Definition cold_world : Pages.world :=
  {| Pages.database := fun _ => Some ["row"]; Pages.engine_available := true;
     Pages.cache := ∅; Pages.trips := [] |}.

Definition mean_view : AppScript.inputs :=
  {| AppScript.target_year := "2024"; AppScript.target_col := "yoy_pct";
     AppScript.stat_method := "平均值 (含極端值)";
     AppScript.selected_bin := "11. 上漲0-100%"; AppScript.display_limit := "50";
     AppScript.search_keyword := ""; AppScript.quick_stat := "中位數" |}.

(** The same view once the hour's cache holds the heatmap. *)
Definition warm_world : Pages.world :=
  {| Pages.database := fun _ => Some ["row"]; Pages.engine_available := true;
     Pages.cache := {[ ("fetch_heatmap_data", ["2024"; "yoy_pct"; "平均值 (含極端值)"]) := ["row"] ]};
     Pages.trips := [] |}.

(** ** Descriptive statistics

    The reductions PostgreSQL and pandas apply to a column.  Both skip NULL
    (NaN) entries; the arithmetic is exact.  The square root is a parameter:
    it is the one operation with no rational value. *)

Module Stats.

Fixpoint non_null (vs : list numeric) : list Q :=
  match vs with
  | [] => []
  | Some x :: rest => x :: non_null rest
  | None :: rest => non_null rest
  end.

Definition total (xs : list Q) : Q := fold_right Qplus 0 xs.

Definition count (xs : list Q) : Q := inject_Z (Z.of_nat (length xs)).

Definition mean (xs : list Q) : Q := total xs / count xs.

(** Sum of squared deviations over [n - 1]. *)
Definition var_samp (xs : list Q) : Q :=
  total (map (fun x => (x - mean xs) * (x - mean xs)) xs) / (count xs - 1).

Definition minimum (x : Q) (xs : list Q) : Q := fold_left Qmin xs x.
Definition maximum (x : Q) (xs : list Q) : Q := fold_left Qmax xs x.

Fixpoint insert_sorted (x : Q) (l : list Q) : list Q :=
  match l with
  | [] => [x]
  | y :: rest => if Qle_bool x y then x :: l else y :: insert_sorted x rest
  end.

Definition sort (xs : list Q) : list Q := fold_right insert_sorted [] xs.

Definition at_index (xs : list Q) (i : Z) : Q := nth (Z.to_nat i) xs 0.

Section WithRoot.

Variable root : Q -> Q.

(** *** PostgreSQL aggregates *)

Definition AVG (vs : list numeric) : numeric :=
  match non_null vs with
  | [] => None
  | xs => Some (mean xs)
  end.

Definition SUM (vs : list numeric) : numeric :=
  match non_null vs with
  | [] => None
  | xs => Some (total xs)
  end.

(** [STDDEV] is [stddev_samp]: NULL on fewer than two inputs. *)
Definition STDDEV (vs : list numeric) : numeric :=
  let xs := non_null vs in
  if (length xs <? 2)%nat then None else Some (root (var_samp xs)).

Definition MIN (vs : list numeric) : numeric :=
  match non_null vs with
  | [] => None
  | x :: xs => Some (minimum x xs)
  end.

Definition MAX (vs : list numeric) : numeric :=
  match non_null vs with
  | [] => None
  | x :: xs => Some (maximum x xs)
  end.

(** [percentile_cont(p) WITHIN GROUP (ORDER BY ...)]: row number
    [p * (n - 1)] counted from 0 in the sorted inputs, interpolating between
    the rows on either side. *)
Definition PERCENTILE_CONT (p : Q) (vs : list numeric) : numeric :=
  match sort (non_null vs) with
  | [] => None
  | xs =>
      let rn := p * (count xs - 1) in
      let first_row := Qfloor rn in
      let second_row := Qceiling rn in
      if (first_row =? second_row)%Z then Some (at_index xs first_row)
      else Some (at_index xs first_row
                 + (rn - inject_Z first_row) * (at_index xs second_row - at_index xs first_row))
  end.

(** [COUNT( * )] and [COUNT( * ) FILTER (WHERE v > c)]. *)
Definition COUNT_STAR {A} (rows : list A) : Q := inject_Z (Z.of_nat (length rows)).

Definition COUNT_FILTER_GT (c : Q) (vs : list numeric) : Q :=
  inject_Z (Z.of_nat (length (List.filter (fun v => holds (sql_gt v (lit c))) vs))).

(** *** pandas reductions ([skipna=True]) *)

Definition pd_mean (s : list numeric) : numeric :=
  match non_null s with
  | [] => None
  | xs => Some (mean xs)
  end.

(** The middle value, or the mean of the two middle values. *)
Definition pd_median (s : list numeric) : numeric :=
  match sort (non_null s) with
  | [] => None
  | xs =>
      let n := Z.of_nat (length xs) in
      if Z.even n then Some ((at_index xs (n / 2 - 1) + at_index xs (n / 2)) / 2)
      else Some (at_index xs (n / 2))
  end.

Definition pd_min (s : list numeric) : numeric :=
  match non_null s with
  | [] => None
  | x :: xs => Some (minimum x xs)
  end.

Definition pd_max (s : list numeric) : numeric :=
  match non_null s with
  | [] => None
  | x :: xs => Some (maximum x xs)
  end.

(** [Series.std()], [ddof=1]. *)
Definition pd_std (s : list numeric) : numeric :=
  let xs := non_null s in
  if (length xs <? 2)%nat then None else Some (root (var_samp xs)).

(** [(s > c).sum()]: a NaN compares false. *)
Definition pd_count_gt (c : Q) (s : list numeric) : Q :=
  inject_Z (Z.of_nat (length (List.filter
    (fun v => match v with Some x => Qlt_bool c x | None => false end) s))).

Definition pd_len {A} (rows : list A) : Q := inject_Z (Z.of_nat (length rows)).

(** *** Evaluating a SELECT item on a group *)

(** The value of [e] over the rows [g] of one group.  A column outside an
    aggregate must be a grouping column; the metric column is not. *)
Fixpoint eval_group (g : list row) (e : expr) : result numeric :=
  match e with
  | Col _ => Raised ungrouped_column
  | Num q => Answer (Some q)
  | Sub a b =>
      Sql.bind (eval_group g a) (fun x => Sql.bind (eval_group g b) (fun y => Answer (sql_sub x y)))
  | Mul a b =>
      Sql.bind (eval_group g a) (fun x => Sql.bind (eval_group g b) (fun y => Answer (sql_mul x y)))
  | Div a b =>
      Sql.bind (eval_group g a) (fun x => Sql.bind (eval_group g b) (fun y => sql_div x y))
  | Abs a => Sql.bind (eval_group g a) (fun x => Answer (sql_abs x))
  | Power a n => Sql.bind (eval_group g a) (fun x => Answer (sql_power x n))
  | NullIf a b =>
      Sql.bind (eval_group g a) (fun x => Sql.bind (eval_group g b) (fun y => Answer (sql_nullif x y)))
  | CaseWhen c t e' =>
      Sql.bind (eval_group_cond g c) (fun b =>
        match b with
        | Some true => eval_group g t
        | _ => eval_group g e'
        end)
  | Avg a => Sql.bind (collect (fun r => eval_row r a) g) (fun vs => Answer (AVG vs))
  | Stddev a => Sql.bind (collect (fun r => eval_row r a) g) (fun vs => Answer (STDDEV vs))
  | Sum a => Sql.bind (collect (fun r => eval_row r a) g) (fun vs => Answer (SUM vs))
  | CountStar => Answer (Some (COUNT_STAR g))
  | PercentileCont p a =>
      Sql.bind (collect (fun r => eval_row r a) g) (fun vs => Answer (PERCENTILE_CONT p vs))
  end
with eval_group_cond (g : list row) (c : cond) : result (option bool) :=
  match c with
  | CEq a b =>
      Sql.bind (eval_group g a) (fun x => Sql.bind (eval_group g b) (fun y => Answer (sql_eq x y)))
  | CGt a b =>
      Sql.bind (eval_group g a) (fun x => Sql.bind (eval_group g b) (fun y => Answer (sql_gt x y)))
  end.

End WithRoot.

(** Whether an expression calls an aggregate, and whether it calls one
    inside the argument of another. *)
Fixpoint has_aggregate (e : expr) : bool :=
  match e with
  | Col _ | Num _ => false
  | Sub a b | Mul a b | Div a b | NullIf a b => has_aggregate a || has_aggregate b
  | Abs a | Power a _ => has_aggregate a
  | CaseWhen c t e' => cond_has_aggregate c || has_aggregate t || has_aggregate e'
  | Avg _ | Stddev _ | Sum _ | CountStar | PercentileCont _ _ => true
  end
with cond_has_aggregate (c : cond) : bool :=
  match c with
  | CEq a b | CGt a b => has_aggregate a || has_aggregate b
  end.

Fixpoint nests_aggregate (e : expr) : bool :=
  match e with
  | Col _ | Num _ | CountStar => false
  | Sub a b | Mul a b | Div a b | NullIf a b => nests_aggregate a || nests_aggregate b
  | Abs a | Power a _ => nests_aggregate a
  | CaseWhen c t e' => cond_nests_aggregate c || nests_aggregate t || nests_aggregate e'
  | Avg a | Stddev a | Sum a | PercentileCont _ a => has_aggregate a
  end
with cond_nests_aggregate (c : cond) : bool :=
  match c with
  | CEq a b | CGt a b => nests_aggregate a || nests_aggregate b
  end.

(** A SELECT item as PostgreSQL treats it: the statement is analysed before
    any row is read, and an aggregate inside an aggregate is refused there
    ("aggregate function calls cannot be nested"); otherwise the item is
    evaluated on each group. *)
Definition select_item (root : Q -> Q) (e : expr) (groups : list (list row))
    : result (list numeric) :=
  if nests_aggregate e then Raised nested_aggregate
  else collect (fun g => eval_group root g e) groups.

End Stats.

(** ** The statistic selector *)

(** The eight entries of the sidebar's [stat_methods] list. *)
Definition stat_methods : list string :=
  [ "中位數 (排除極端值)"; "平均值 (含極端值)"; "標準差 (波動程度)";
    "變異係數 (相對波動)"; "偏度 (分佈形狀)"; "峰度 (尾部厚度)";
    "四分位距 (離散程度)"; "正樣本比例" ].

Module AppSelector.
(** app.py, [fetch_heatmap_data]: the if-chain that sets [agg_func] and
    [stat_label]; [x] is [m.{metric_col}]. *)
Definition select : string -> string -> expr * string :=
  (fun stat_method metric_col =>
  let x := Col metric_col in
  if String.eqb stat_method "中位數 (排除極端值)" then
    (PercentileCont (1 # 2) x, "中位數")
  else if String.eqb stat_method "平均值 (含極端值)" then
    (Avg x, "平均值")
  else if String.eqb stat_method "標準差 (波動程度)" then
    (Stddev x, "標準差")
  else if String.eqb stat_method "變異係數 (相對波動)" then
    (CaseWhen (CEq (Avg x) (Num 0)) (Num 0)
       (Mul (Div (Stddev x) (Abs (Avg x))) (Num 100)),
     "變異係數%")
  else if String.eqb stat_method "偏度 (分佈形狀)" then
    (CaseWhen (CEq (Stddev x) (Num 0)) (Num 0)
       (Avg (Power (Div (Sub x (Avg x)) (NullIf (Stddev x) (Num 0))) 3)),
     "偏度")
  else if String.eqb stat_method "峰度 (尾部厚度)" then
    (CaseWhen (CEq (Stddev x) (Num 0)) (Num 0)
       (Sub (Avg (Power (Div (Sub x (Avg x)) (NullIf (Stddev x) (Num 0))) 4)) (Num 3)),
     "峰度")
  else if String.eqb stat_method "四分位距 (離散程度)" then
    (Sub (PercentileCont (3 # 4) x) (PercentileCont (1 # 4) x), "四分位距")
  else if String.eqb stat_method "正樣本比例" then
    (Div (Mul (Sum (CaseWhen (CGt x (Num 0)) (Num 1) (Num 0))) (Num 100)) CountStar,
     "正增長比例%")
  else
    (Avg x, "平均值")).
Definition agg_func (stat_method metric_col : string) : expr :=
  fst (select stat_method metric_col).
Definition stat_label (stat_method metric_col : string) : string :=
  snd (select stat_method metric_col).
End AppSelector.

Module HighSelector.
(** pages/11_app_high.py, [fetch_heatmap_data_high]: its own copy of the
    if-chain. *)
Definition select : string -> string -> expr * string :=
  (fun stat_method metric_col =>
  let x := Col metric_col in
  if String.eqb stat_method "中位數 (排除極端值)" then
    (PercentileCont (1 # 2) x, "中位數")
  else if String.eqb stat_method "平均值 (含極端值)" then
    (Avg x, "平均值")
  else if String.eqb stat_method "標準差 (波動程度)" then
    (Stddev x, "標準差")
  else if String.eqb stat_method "變異係數 (相對波動)" then
    (CaseWhen (CEq (Avg x) (Num 0)) (Num 0)
       (Mul (Div (Stddev x) (Abs (Avg x))) (Num 100)),
     "變異係數%")
  else if String.eqb stat_method "偏度 (分佈形狀)" then
    (CaseWhen (CEq (Stddev x) (Num 0)) (Num 0)
       (Avg (Power (Div (Sub x (Avg x)) (NullIf (Stddev x) (Num 0))) 3)),
     "偏度")
  else if String.eqb stat_method "峰度 (尾部厚度)" then
    (CaseWhen (CEq (Stddev x) (Num 0)) (Num 0)
       (Sub (Avg (Power (Div (Sub x (Avg x)) (NullIf (Stddev x) (Num 0))) 4)) (Num 3)),
     "峰度")
  else if String.eqb stat_method "四分位距 (離散程度)" then
    (Sub (PercentileCont (3 # 4) x) (PercentileCont (1 # 4) x), "四分位距")
  else if String.eqb stat_method "正樣本比例" then
    (Div (Mul (Sum (CaseWhen (CGt x (Num 0)) (Num 1) (Num 0))) (Num 100)) CountStar,
     "正增長比例%")
  else
    (Avg x, "平均值")).
Definition agg_func (stat_method metric_col : string) : expr :=
  fst (select stat_method metric_col).
Definition stat_label (stat_method metric_col : string) : string :=
  snd (select stat_method metric_col).
End HighSelector.

(** A joined row of the heatmap query, as far as the aggregates see it: the
    metric column [m.{metric_col}] with value [v]. *)
Definition metric_row (metric_col : string) (v : numeric) : row :=
  fun c => if String.eqb c metric_col then Some v else None.

(** [CASE WHEN x > 0 THEN 1 ELSE 0 END] on a number. *)
Definition positive_flag (x : Q) : Q := if Qlt_bool 0 x then 1 else 0.

(** ** The two heatmap engines side by side

    What the [annual_bins] CTE of an engine is made of; the rest of the
    query (the [monthly_stats] window, the join, the grouping and the
    selected aggregate) is the same text in both files. *)
Record engine_shape := {
  shape_return : expr;
  shape_bin : numeric -> string;
  shape_order : numeric -> Z;
  shape_keep : annual_k -> bool;
  shape_agg : string -> string -> expr * string;
  shape_window : Z -> string -> bool
}.

Definition run_annual_bins (s : engine_shape) (y : string) (table : list annual_k)
    : result (list binned) :=
  collect (select_binned (shape_return s) (shape_bin s) (shape_order s))
          (List.filter (fun k => String.eqb (year k) y && shape_keep s k) table).

Definition app_engine : engine_shape :=
  {| shape_return := App.annual_return;
     shape_bin := CloseBins.return_bin;
     shape_order := CloseBins.bin_order;
     shape_keep := fun _ => true;
     shape_agg := AppSelector.select;
     shape_window := ReportMonth.app_window |}.

Definition high_engine : engine_shape :=
  {| shape_return := High.annual_max_return;
     shape_bin := HighBins.return_bin;
     shape_order := HighBins.bin_order;
     shape_keep := HighBins.complete_record;
     shape_agg := HighSelector.select;
     shape_window := ReportMonth.app_window |}.

(** The main engine with only its price field and bucket table exchanged for
    those of the high-price page. *)
Definition app_engine_with_high_bins : engine_shape :=
  {| shape_return := return_expr "year_high";
     shape_bin := HighBins.return_bin;
     shape_order := HighBins.bin_order;
     shape_keep := shape_keep app_engine;
     shape_agg := shape_agg app_engine;
     shape_window := shape_window app_engine |}.

(** A record without a high price. *)
Definition no_high_record : annual_k :=
  {| symbol := "1234.TW"; year := "2024";
     year_open := Some 20; year_close := Some 25; year_high := None |}.

(** ** The probability table: SQL aggregation and its Python alternate *)

Module ProbData.
Import Stats.

(** A row of [joined_data] (the raw rows of the alternate query): hits, ret. *)
Definition joined := (Z * numeric)%type.

(** A row of the result.  The rounded columns hold a number with one decimal,
    written as its count of tenths; [None] is NULL (NaN). *)
Record prob_row := {
  r_hits : Z;              (* 爆發次數 *)
  r_count : Z;             (* 股票檔數 *)
  r_mean : option Z;       (* 平均年度漲幅% *)
  r_median : option Z;     (* 中位數漲幅% *)
  r_win : option Z;        (* 勝率(>20%) *)
  r_double : option Z;     (* 翻倍率(>100%) *)
  r_min : option Z;        (* 最低漲幅% *)
  r_max : option Z;        (* 最高漲幅% *)
  r_std : option Z         (* 標準差% *)
}.

(** [ROUND(x::numeric, 1)]: halves go away from zero. *)
Definition ROUND1 (v : numeric) : option Z :=
  option_map (fun x =>
    let t := x * 10 in
    if Qle_bool 0 t then Qfloor (t + (1 # 2)) else (- Qfloor (- t + (1 # 2)))%Z) v.

(** Python's [round(x, 1)]: halves go to the even neighbour. *)
Definition round1 (v : numeric) : option Z :=
  option_map (fun x =>
    let t := x * 10 in
    let f := Qfloor t in
    let r := t - inject_Z f in
    if Qlt_bool r (1 # 2) then f
    else if Qlt_bool (1 # 2) r then (f + 1)%Z
    else if Z.even f then f else (f + 1)%Z) v.

(** The [ret] values of the rows with [hits = k]. *)
Definition group_of (k : Z) (jd : list joined) : list numeric :=
  map snd (List.filter (fun r => (fst r =? k)%Z) jd).

(** The distinct values of [hits]. *)
Definition hit_values (jd : list joined) : list Z := remove_dups (map fst jd).

Definition descending (a b : Z) : Prop := (b <= a)%Z.
Definition ascending (a b : Z) : Prop := (a <= b)%Z.
Definition by_hits_descending (a b : prob_row) : Prop := (r_hits b <= r_hits a)%Z.

#[global] Instance descending_dec (a b : Z) : Decision (descending a b) := Z_le_dec b a.
#[global] Instance ascending_dec (a b : Z) : Decision (ascending a b) := Z_le_dec a b.
#[global] Instance by_hits_descending_dec (a b : prob_row) : Decision (by_hits_descending a b) :=
  Z_le_dec (r_hits b) (r_hits a).

Section WithRoot.

Variable root : Q -> Q.

(** pages/probability.py, [fetch_prob_data]: the final SELECT on one group. *)
Definition sql_row (jd : list joined) (k : Z) : prob_row :=
  let ret := group_of k jd in
  {| r_hits := k;
     r_count := Z.of_nat (length ret);
     r_mean := ROUND1 (AVG ret);
     r_median := ROUND1 (PERCENTILE_CONT (1 # 2) ret);
     r_win := ROUND1 (Some (COUNT_FILTER_GT 20 ret * 100 / COUNT_STAR ret));
     r_double := ROUND1 (Some (COUNT_FILTER_GT 100 ret * 100 / COUNT_STAR ret));
     r_min := ROUND1 (MIN ret);
     r_max := ROUND1 (MAX ret);
     r_std := ROUND1 (STDDEV root ret) |}.

(** [GROUP BY hits ORDER BY hits DESC]. *)
Definition fetch_prob_data (jd : list joined) : list prob_row :=
  map (sql_row jd) (merge_sort descending (hit_values jd)).

(** [fetch_prob_data_alt]: the dictionary built for one group of
    [raw_df.groupby('hits')]. *)
Definition alt_row (jd : list joined) (hits : Z) : prob_row :=
  let ret_series := group_of hits jd in
  {| r_hits := hits;
     r_count := Z.of_nat (length ret_series);
     r_mean := round1 (pd_mean ret_series);
     r_median := round1 (pd_median ret_series);
     r_win := round1 (Some (pd_count_gt 20 ret_series / pd_len ret_series * 100));
     r_double := round1 (Some (pd_count_gt 100 ret_series / pd_len ret_series * 100));
     r_min := round1 (pd_min ret_series);
     r_max := round1 (pd_max ret_series);
     r_std := if (1 <? length ret_series)%nat then round1 (pd_std root ret_series)
              else Some 0%Z |}.

(** An empty [raw_df] gives an empty frame; otherwise one row per group
    (groupby visits the keys in increasing order), sorted by hits,
    descending. *)
Definition fetch_prob_data_alt (jd : list joined) : list prob_row :=
  match jd with
  | [] => []
  | _ :: _ =>
      merge_sort by_hits_descending
        (map (alt_row jd) (merge_sort ascending (hit_values jd)))
  end.

(** The unrounded statistics of a group. *)
Definition exact_statistics (ret : list numeric) : list numeric :=
  [ AVG ret; PERCENTILE_CONT (1 # 2) ret;
    Some (COUNT_FILTER_GT 20 ret * 100 / COUNT_STAR ret);
    Some (COUNT_FILTER_GT 100 ret * 100 / COUNT_STAR ret);
    MIN ret; MAX ret; STDDEV root ret ].

End WithRoot.

(** Equal numbers, or both NULL. *)
Definition same_value (a b : numeric) : Prop :=
  match a, b with
  | Some x, Some y => x == y
  | None, None => True
  | _, _ => False
  end.

(** A value exactly halfway between two neighbours at one decimal. *)
Definition is_tie (x : Q) : bool :=
  Qeq_bool (x * 10 - inject_Z (Qfloor (x * 10))) (1 # 2).

Definition no_ties (root : Q -> Q) (jd : list joined) : Prop :=
  forall k v, In k (map fst jd) ->
    In (Some v) (exact_statistics root (group_of k jd)) -> is_tie v = false.

(** Two result rows agree: every column is equal, except that for a group of
    one stock the SQL standard deviation is NULL where the alternate path
    writes 0. *)
Definition agree (p a : prob_row) : Prop :=
  r_hits p = r_hits a /\ r_count p = r_count a /\
  r_mean p = r_mean a /\ r_median p = r_median a /\
  r_win p = r_win a /\ r_double p = r_double a /\
  r_min p = r_min a /\ r_max p = r_max a /\
  (if (r_count p =? 1)%Z then r_std p = None /\ r_std a = Some 0%Z
   else r_std p = r_std a).

(** One stock with three hits; and a table with a group of two. *)
Definition one_stock : list joined := [(3%Z, Some 10)].
Definition three_stocks : list joined := [(2%Z, Some 10); (1%Z, Some 5); (2%Z, Some 31)].

End ProbData.

(** * Part I, continued: further code of the pages *)

(** ** [urllib.parse]: decoding a form value *)

Module Form.
Import Urllib.

(** [string.replace('+', ' ')] *)
Fixpoint plus_to_space (s : string) : string :=
  match s with
  | EmptyString => EmptyString
  | String c rest => String (if Ascii.eqb c "+" then " "%char else c) (plus_to_space rest)
  end.

(** [unquote_plus]: ['+'] is a space, then [unquote]. *)
Definition unquote_plus (s : string) : string := unquote (plus_to_space s).

(** What [quote_plus] writes for one byte. *)
Definition plus_byte (c : ascii) : string :=
  if Ascii.eqb c " " then "+"
  else if always_safe c then String c EmptyString
  else percent c.

Fixpoint each_byte (f : ascii -> string) (s : string) : string :=
  match s with
  | EmptyString => EmptyString
  | String c rest => f c +:+ each_byte f rest
  end.

Fixpoint all_bytes (p : ascii -> bool) (s : string) : bool :=
  match s with
  | EmptyString => true
  | String c rest => p c && all_bytes p rest
  end.

End Form.

(** ** The other report-month windows *)

Module Windows.
Import ReportMonth.

(** app.py, [detail_query] (both in [latest_remarks] and in the outer WHERE):
    [report_month LIKE '{minguo_year}_%' AND report_month < '{minguo_year}_12'
     OR report_month = '{prev_minguo_year}_12']; AND binds tighter than OR. *)
Definition app_detail_window (year : Z) (report_month : string) : bool :=
  (like (pretty (minguo_year year) +:+ "_%") report_month
   && String.ltb report_month (pretty (minguo_year year) +:+ "_12"))
  || String.eqb report_month (pretty (prev_minguo_year year) +:+ "_12").

(** pages/probability.py, [detail_query], the join with [monthly_revenue]:
    [m.report_month LIKE '{minguo_year}_%' OR m.report_month = '{prev_minguo_year}_12']. *)
Definition prob_detail_window (year : Z) (report_month : string) : bool :=
  like (pretty (minguo_year year) +:+ "_%") report_month
  || String.eqb report_month (pretty (prev_minguo_year year) +:+ "_12").

(** pages/timing_lab.py, [raw_events]:
    [report_month LIKE '{minguo_year}_%' OR report_month LIKE '{int(minguo_year)-1}_12']. *)
Definition timing_raw_window (year : Z) (report_month : string) : bool :=
  like (pretty (minguo_year year) +:+ "_%") report_month
  || like (pretty (minguo_year year - 1)%Z +:+ "_12") report_month.

(** pages/timing_lab.py, [spark_events]: [report_month LIKE '{minguo_year}_%']. *)
Definition timing_event_window (year : Z) (report_month : string) : bool :=
  like (pretty (minguo_year year) +:+ "_%") report_month.

End Windows.

(** ** Decimal numerals: [int(...)] and the SQL text functions *)

Module Numeral.

Fixpoint digits_value (acc : Z) (s : string) : option Z :=
  match s with
  | EmptyString => Some acc
  | String c rest =>
      match digit_of c with
      | Some d => digits_value (10 * acc + d) rest
      | None => None
      end
  end.

(** [int(s)], and the SQL cast [s::int], on a text made of decimal digits;
    [None] is the error both raise on text that is not a number.  (Signs and
    surrounding blanks, which both also accept, do not occur in the texts
    read here.) *)
Definition int (s : string) : option Z :=
  match s with
  | EmptyString => None
  | String _ _ => digits_value 0 s
  end.

(** The options of the year select box: [[str(y) for y in range(2025, 2019, -1)]]. *)
Definition year_options : list string :=
  map pretty [2025; 2024; 2023; 2022; 2021; 2020]%Z.

Fixpoint drop (n : nat) (s : string) : string :=
  match n, s with
  | O, _ => s
  | S n', String _ rest => drop n' rest
  | S _, EmptyString => EmptyString
  end.

Fixpoint take (n : nat) (s : string) : string :=
  match n, s with
  | S n', String c rest => String c (take n' rest)
  | _, _ => EmptyString
  end.

(** [LEFT(s, n)] and [RIGHT(s, n)] for a non-negative [n]. *)
Definition LEFT (s : string) (n : nat) : string := take n s.
Definition RIGHT (s : string) (n : nat) : string := drop (String.length s - n) s.

Fixpoint repeat_char (c : ascii) (n : nat) : string :=
  match n with
  | O => EmptyString
  | S n' => String c (repeat_char c n')
  end.

(** [LPAD(s, n, fill)] with a one-character fill: cut to [n] characters, or
    filled on the left up to [n]. *)
Definition LPAD (s : string) (n : nat) (fill : ascii) : string :=
  if (n <=? String.length s)%nat then take n s
  else repeat_char fill (n - String.length s) +:+ s.

(** pages/timing_lab.py, [spark_events]: the text cast to [base_date],
    [CASE WHEN RIGHT(report_month, 2) = '12'
          THEN (LEFT(report_month, 3)::int + 1 + 1911)::text || '-01-10'
          ELSE (LEFT(report_month, 3)::int + 1911)::text || '-'
               || LPAD((RIGHT(report_month, 2)::int + 1)::text, 2, '0') || '-10' END];
    [None] when a cast to int fails. *)
Definition base_date_text (report_month : string) : option string :=
  if String.eqb (RIGHT report_month 2) "12" then
    y ← int (LEFT report_month 3);
    Some (pretty (y + 1 + 1911)%Z +:+ "-01-10")
  else
    y ← int (LEFT report_month 3);
    m ← int (RIGHT report_month 2);
    Some (pretty (y + 1911)%Z +:+ "-" +:+ LPAD (pretty (m + 1)%Z) 2 "0" +:+ "-10").

(** The day after which a report month's revenue is known, in the
    description's words: the tenth of the following calendar month. *)
Definition tenth_of_next_month (y m : Z) : string :=
  if (m =? 12)%Z then pretty (y + 1912)%Z +:+ "-01-10"
  else pretty (y + 1911)%Z +:+ "-" +:+ ReportMonth.pad2 (m + 1) +:+ "-10".

End Numeral.

(** ** The summary the AI prompt is built from *)

Module Prompt.

(** A row of [stat_summary], as far as [generate_ai_prompt] reads it for
    its totals. *)
Record summary_row := {
  s_return_bin : string;
  s_stock_count : Z
}.

(** [stat_summary['return_bin'].str.contains('下跌')] and [... '上漲'] *)
Definition is_falling (r : summary_row) : bool := Pages.contains "下跌" (s_return_bin r).
Definition is_rising (r : summary_row) : bool := Pages.contains "上漲" (s_return_bin r).

Definition sum_counts (rows : list summary_row) : Z :=
  fold_right Z.add 0%Z (map s_stock_count rows).

(** [stat_summary[...]['stock_count'].sum()] *)
Definition total_falling_stocks (stat_summary : list summary_row) : Z :=
  sum_counts (List.filter is_falling stat_summary).
Definition total_rising_stocks (stat_summary : list summary_row) : Z :=
  sum_counts (List.filter is_rising stat_summary).

End Prompt.

(** ** The eleven high-price intervals, written out *)

(** Below 100; then hundred-wide intervals up to 1000; then from 1000 on. *)
Definition in_high_bin (k : Z) (r : Q) : Prop :=
  if (k =? 1)%Z then r < 100
  else if (k <=? 10)%Z then 100 * (inject_Z k - 1) <= r /\ r < 100 * inject_Z k
  else 1000 <= r.

(** A record with no closing price, and one with a zero opening price. *)
Definition no_close_record : annual_k :=
  {| symbol := "5678.TW"; year := "2024";
     year_open := Some 20; year_close := None; year_high := Some 30 |}.

Definition zero_open_record : annual_k :=
  {| symbol := "4321.TW"; year := "2024";
     year_open := Some 0; year_close := Some 12; year_high := Some 15 |}.

(** ** What a script leaves of the world *)

Module PageFacts.
Import Pages.

(** [w'] comes after [w]: the same database and engine, and every cached
    entry of [w] still there. *)
Definition extends (w w' : world) : Prop :=
  database w' = database w /\
  engine_available w' = engine_available w /\
  (forall k v, cache w !! k = Some v -> cache w' !! k = Some v).

Definition stable {A} (m : script A) : Prop :=
  forall w, extends w (final (m w)).

(** A script that sends nothing while no engine can be made. *)
Definition silent {A} (m : script A) : Prop :=
  forall w, engine_available w = false -> trips (final (m w)) = trips w.

(** The world after one more query. *)
Definition sent (q : key) (w : world) : world :=
  {| database := database w; engine_available := engine_available w;
     cache := cache w; trips := trips w ++ [q] |}.

(** The world after a cached call stored its value. *)
Definition stored (k : key) (v : table) (w : world) : world :=
  {| database := database w; engine_available := engine_available w;
     cache := <[k := v]> (cache w); trips := trips w |}.

End PageFacts.

(** A view with no secrets configured, and one where the aggregate query of
    the probability page raises. *)
Definition offline_world : Pages.world :=
  {| Pages.database := fun _ => Some ["row"]; Pages.engine_available := false;
     Pages.cache := ∅; Pages.trips := [] |}.

Definition aggregate_fails_world : Pages.world :=
  {| Pages.database := fun q => if String.eqb (fst q) "prob" then None else Some ["row"];
     Pages.engine_available := true;
     Pages.cache := ∅; Pages.trips := [] |}.

Definition down_world : Pages.world :=
  {| Pages.database := fun _ => None; Pages.engine_available := true;
     Pages.cache := ∅; Pages.trips := [] |}.

Definition probability_view : ProbabilityScript.inputs :=
  {| ProbabilityScript.target_year := "2024"; ProbabilityScript.study_metric := "yoy_pct";
     ProbabilityScript.low := "20"; ProbabilityScript.high := "9999";
     ProbabilityScript.price_field := "year_close";
     ProbabilityScript.show_multi_year := true;
     ProbabilityScript.selected_hits := "3" |}.

(** ** Reading a row of the probability table *)

Module ProbFacts.
Import ProbData.

(** Two one-decimal columns (tenths), both present and in order. *)
Definition tenths_le (a b : option Z) : Prop :=
  match a, b with
  | Some x, Some y => (x <= y)%Z
  | _, _ => False
  end.

(** The columns of a row fit together: minimum, mean, median and maximum are
    in order, and the two rates are percentages with the doubling rate at
    most the win rate. *)
Definition consistent (r : prob_row) : Prop :=
  tenths_le (r_min r) (r_mean r) /\ tenths_le (r_mean r) (r_max r) /\
  tenths_le (r_min r) (r_median r) /\ tenths_le (r_median r) (r_max r) /\
  tenths_le (Some 0%Z) (r_double r) /\ tenths_le (r_double r) (r_win r) /\
  tenths_le (r_win r) (Some 1000%Z).

End ProbFacts.

(** ** pages/probability.py: [calculate_expected_value]

    The frame's columns are floats; [None] is NaN, which is how pandas
    reads a NULL in a numeric column that holds a number in some row.  A NaN
    compares false with everything, also under [!=]'s negation [==], and
    every arithmetic operation on a NaN gives a NaN. *)

Module Expected.
Import ProbData.

(** A one-decimal column as a number. *)
Definition value (t : option Z) : numeric := option_map (fun z => inject_Z z / 10) t.

(** [a > b] and [a != b] on floats. *)
Definition py_gt (a b : numeric) : bool :=
  match a, b with
  | Some x, Some y => Qlt_bool y x
  | _, _ => false
  end.

Definition py_ne (a b : numeric) : bool :=
  match a, b with
  | Some x, Some y => negb (Qeq_bool x y)
  | _, _ => true
  end.

(** [max(a, b)]: the first argument unless the second is greater. *)
Definition py_max (a b : numeric) : numeric := if py_gt b a then b else a.

(** [a / b]; the divisors of [calculate_expected_value] are 100, 3 and the
    clamped standard deviation, never zero. *)
Definition py_div (a b : numeric) : numeric :=
  match a, b with
  | Some x, Some y => if Qeq_bool y 0 then None else Some (x / y)
  | _, _ => None
  end.

Definition py_add (a b : numeric) : numeric :=
  match a, b with
  | Some x, Some y => Some (x + y)
  | _, _ => None
  end.

(** The integer nearest to [t], halves to the even neighbour. *)
Definition half_even (t : Q) : Z :=
  let f := Qfloor t in
  let r := t - inject_Z f in
  if Qlt_bool r (1 # 2) then f
  else if Qlt_bool (1 # 2) r then (f + 1)%Z
  else if Z.even f then f else (f + 1)%Z.

(** [round(x, 2)], as hundredths. *)
Definition round2 (v : numeric) : option Z := option_map (fun x => half_even (x * 100)) v.

(** A row of the result.  [e_diff] is in tenths, the four scores in
    hundredths. *)
Record ev_row := {
  e_hits : Z;               (* 爆發次數 *)
  e_count : Z;              (* 股票檔數 *)
  e_avg : numeric;          (* 平均年度漲幅% *)
  e_median : numeric;       (* 中位數漲幅% *)
  e_diff : option Z;        (* 平均-中位差 *)
  e_win : numeric;          (* 勝率(>20%) *)
  e_double : numeric;       (* 翻倍率(>100%) *)
  e_expected : option Z;    (* 期望值分數 *)
  e_risk : option Z;        (* 風險調整分數 *)
  e_success : option Z;     (* 成功率分數 *)
  e_total : option Z        (* 綜合評分 *)
}.

Definition avg_return (row : prob_row) : numeric := value (r_mean row).
Definition median_return (row : prob_row) : numeric := value (r_median row).
Definition win_rate (row : prob_row) : numeric := py_div (value (r_win row)) (Some 100).

(** [expected_value = avg_return * count] *)
Definition expected_value (row : prob_row) : numeric :=
  sql_mul (avg_return row) (Some (inject_Z (r_count row))).

(** [std_dev = max(row.get("標準差%", 1), 1)] *)
Definition std_dev (row : prob_row) : numeric := py_max (value (r_std row)) (Some 1).

(** [risk_adjusted = avg_return / std_dev if std_dev > 0 else 0] *)
Definition risk_adjusted (row : prob_row) : numeric :=
  if py_gt (std_dev row) (Some 0) then py_div (avg_return row) (std_dev row) else Some 0.

(** [success_adjusted = avg_return * win_rate] *)
Definition success_adjusted (row : prob_row) : numeric :=
  sql_mul (avg_return row) (win_rate row).

Definition mean_median_diff (row : prob_row) : numeric :=
  sql_sub (avg_return row) (median_return row).

Definition calculate_row (row : prob_row) : ev_row :=
  {| e_hits := r_hits row;
     e_count := r_count row;
     e_avg := avg_return row;
     e_median := median_return row;
     e_diff := round1 (mean_median_diff row);
     e_win := value (r_win row);
     e_double := value (r_double row);
     e_expected := if py_ne (expected_value row) (Some 0)
                   then round2 (py_div (expected_value row) (Some 100))
                   else Some 0%Z;
     e_risk := round2 (risk_adjusted row);
     e_success := round2 (success_adjusted row);
     e_total := if py_ne (expected_value row) (Some 0)
                then round2 (py_div
                       (py_add (py_add (py_div (expected_value row) (Some 100))
                                       (risk_adjusted row))
                               (success_adjusted row))
                       (Some 3))
                else Some 0%Z |}.

(** An empty frame gives an empty frame; otherwise one result row for each
    row, in order. *)
Definition calculate_expected_value (df : list prob_row) : list ev_row :=
  match df with
  | [] => []
  | _ :: _ => map calculate_row df
  end.

End Expected.

(** ** pages/timing_lab.py: the helpers of the page *)

Module TimingLab.
Import Stats.

(** *** [get_ai_summary_dist] *)

(** An edge of [np.histogram]. *)
Inductive edge :=
| NegInf
| Edge (q : Q)
| PosInf.

(** [x < e] and [x <= e]. *)
Definition below (e : edge) (x : Q) : bool :=
  match e with
  | NegInf => false
  | Edge q => Qlt_bool x q
  | PosInf => true
  end.

Definition upto (e : edge) (x : Q) : bool :=
  match e with
  | NegInf => false
  | Edge q => Qle_bool x q
  | PosInf => true
  end.

Definition how_many (p : Q -> bool) (data : list Q) : Z :=
  Z.of_nat (length (List.filter p data)).

Fixpoint diff (l : list Z) : list Z :=
  match l with
  | a :: (b :: _) as rest => (b - a)%Z :: diff rest
  | _ => []
  end.

(** [np.histogram(data, bins=edges)] with explicit edges: the values below
    each edge but the last are counted ([searchsorted], left), for the last
    edge the values up to it (right), and the counts are the differences.
    Every bin is closed on the left and open on the right, but the last,
    which is closed on both sides. *)
Definition histogram (edges : list edge) (data : list Q) : list Z :=
  diff (map (fun e => how_many (below e) data) (removelast edges)
        ++ [how_many (upto (List.last edges PosInf)) data])%list.

Definition bins : list edge := [NegInf; Edge (-5); Edge (-1); Edge 1; Edge 5; PosInf].
Definition labels : list string := ["大跌(<-5%)"; "小跌"; "持平"; "小漲"; "大漲(>5%)"].

(** [for label, count in zip(labels, counts): if count > 0: ...] *)
Definition summary (col : list numeric) : list (string * Z) :=
  List.filter (fun lc => (0 <? snd lc)%Z) (combine labels (histogram bins (non_null col))).

Fixpoint join (sep : string) (l : list string) : string :=
  match l with
  | [] => ""
  | [s] => s
  | s :: rest => s +:+ sep +:+ join sep rest
  end.

Section WithFormat.

(** [f"{x:.1f}"] on a float. *)
Variable format_1f : Q -> string.

Definition entry (total : Z) (lc : string * Z) : string :=
  fst lc +:+ ":" +:+ pretty (snd lc) +:+ "檔("
  +:+ format_1f (inject_Z (snd lc) / inject_Z total * 100) +:+ "%)".

Definition get_ai_summary_dist (col : list numeric) : string :=
  let data := non_null col in
  if (length data =? 0)%nat then "無數據"
  else join " / " (map (entry (Z.of_nat (length data))) (summary col)).

End WithFormat.

(** The interval each label stands for, as the edges have it. *)
Definition falls_in (i : nat) (x : Q) : bool :=
  match i with
  | 0%nat => Qlt_bool x (-5)
  | 1%nat => Qle_bool (-5) x && Qlt_bool x (-1)
  | 2%nat => Qle_bool (-1) x && Qlt_bool x 1
  | 3%nat => Qle_bool 1 x && Qlt_bool x 5
  | _ => Qle_bool 5 x
  end.

(** *** [get_advanced_stats] and [create_big_hist] *)

(** A Python call that returns, or raises [TypeError]. *)
Inductive py (A : Type) :=
| Value (a : A)
| TypeError.
Arguments Value {A} a.
Arguments TypeError {A}.

Section Figures.

(** The dictionary of statistics and the figure drawn from it; what they
    hold plays no part in which way the calls end. *)
Variable stats : Type.
Variable describe : list Q -> stats.
Variable figure : Type.
Variable draw : list Q -> stats -> figure.

(** [if len(data) < 2: return None] *)
Definition get_advanced_stats (col : list numeric) : option stats :=
  let data := non_null col in
  if (length data <? 2)%nat then None else Some (describe data).

(** [create_big_hist]: [None] on an empty column; the figure reads
    [stats_vals['mean']] with no test of [stats_vals], and subscripting [None]
    raises [TypeError]. *)
Definition create_big_hist (col : list numeric) : py (option figure) :=
  let data := non_null col in
  if (length data =? 0)%nat then Value None
  else
    match get_advanced_stats col with
    | Some stats_vals => Value (Some (draw data stats_vals))
    | None => TypeError
    end.

(** The table of advanced statistics keeps a stage only [if stats_data]. *)
Definition advanced_stats (stages : list (string * list numeric)) : list (string * stats) :=
  omap (fun stage => match get_advanced_stats (snd stage) with
                     | Some stats_data => Some (fst stage, stats_data)
                     | None => None
                     end) stages.

End Figures.

(** *** [detect_outliers] *)

(** [Series.quantile(q)], linear interpolation: position [q * (n - 1)] in the
    sorted values, between the value below and the next one. *)
Definition quantile (q : Q) (data : list Q) : Q :=
  let xs := sort data in
  let pos := q * (count xs - 1) in
  let lo := Qfloor pos in
  let hi := Z.min (lo + 1) (Z.of_nat (length xs) - 1) in
  at_index xs lo + (pos - inject_Z lo) * (at_index xs hi - at_index xs lo).

(** The rows of [df] whose value lies outside the fences; a NaN compares
    false on both sides. *)
Definition detect_outliers {A} (df : list A) (col : A -> numeric) (threshold : Q) : list A :=
  let data := non_null (map col df) in
  if (length data <? 4)%nat then []
  else
    let Q1 := quantile (1 # 4) data in
    let Q3 := quantile (3 # 4) data in
    let IQR := Q3 - Q1 in
    let lower_bound := Q1 - threshold * IQR in
    let upper_bound := Q3 + threshold * IQR in
    List.filter (fun r => match col r with
                          | Some x => Qlt_bool x lower_bound || Qlt_bool upper_bound x
                          | None => false
                          end) df.

(** *** The AI diagnosis form *)

(** The first model whose name contains [model_name]. *)
Fixpoint first_containing (model_name : string) (available_models : list string)
    : option string :=
  match available_models with
  | [] => None
  | m :: rest => if Pages.contains model_name m then Some m
                 else first_containing model_name rest
  end.

(** A string is true when it is not empty. *)
Definition truthy (s : option string) : bool :=
  match s with
  | Some (String _ _) => true
  | _ => false
  end.

(** The two loops over the preferred names, then the first model of the
    list. *)
Fixpoint preferred (names : list string) (available_models : list string) : option string :=
  match names with
  | [] => None
  | model_name :: rest =>
      let target_model := first_containing model_name available_models in
      if truthy target_model then target_model else preferred rest available_models
  end.

Definition target_model (available_models : list string) : option string :=
  let target := preferred ["gemini-1.5-flash"; "gemini-pro"] available_models in
  if negb (truthy target) && negb (length available_models =? 0)%nat
  then head available_models
  else target.

(** The Gemini client: the names [list_models] returns for models that
    support [generateContent], and the text a model answers; [None] where the
    call raises. *)
Record gemini := {
  list_models : option (list string);
  generate_content : string -> option string
}.

Inductive diagnosis :=
| WrongPassword                            (* 密碼錯誤 *)
| PackageMissing                           (* Gemini AI 套件未安裝 *)
| DiagnosisFailed                          (* AI 診斷失敗 *)
| NoModel                                  (* 找不到可用的 AI 模型 *)
| Report (model : string) (text : string).

(** [password == st.secrets.get("AI_ASK_PASSWORD", "default_password")]; a
    secret that is not text equals no password. *)
Definition password_accepted (secrets : gmap string Engine.secret) (password : string) : bool :=
  match secrets !! "AI_ASK_PASSWORD" with
  | Some (Engine.SecretText s) => String.eqb password s
  | Some (Engine.SecretNumber _) => false
  | None => String.eqb password "default_password"
  end.

Definition ai_diagnosis (secrets : gmap string Engine.secret) (AI_AVAILABLE : bool)
    (genai : gemini) (password : string) : diagnosis :=
  if password_accepted secrets password then
    if AI_AVAILABLE then
      match secrets !! "GEMINI_API_KEY" with
      | None => DiagnosisFailed
      | Some _ =>
          match list_models genai with
          | None => DiagnosisFailed
          | Some available_models =>
              let target := target_model available_models in
              if truthy target then
                match target with
                | Some m =>
                    match generate_content genai m with
                    | Some text => Report m text
                    | None => DiagnosisFailed
                    end
                | None => NoModel
                end
              else NoModel
          end
      end
    else PackageMissing
  else WrongPassword.

End TimingLab.

(** * Part II: properties *)

(** ** Reflection of the comparisons *)

Lemma Qle_bool_reflect (x y : Q) : reflect (x <= y) (Qle_bool x y).
Proof. apply iff_reflect. symmetry. apply Qle_bool_iff. Qed.

Lemma Qlt_bool_reflect (x y : Q) : reflect (x < y) (Qlt_bool x y).
Proof.
  unfold Qlt_bool. destruct (Qle_bool_reflect y x); constructor; lra.
Qed.

Lemma Qeq_bool_reflect (x y : Q) : reflect (x == y) (Qeq_bool x y).
Proof. apply iff_reflect. symmetry. apply Qeq_bool_iff. Qed.

(** Walk down a CASE ladder over a known number: decide each threshold test in
    turn. *)
Ltac ladder_step :=
  match goal with
  | |- context [Qle_bool ?a ?b] => destruct (Qle_bool_reflect a b)
  | |- context [Qlt_bool ?a ?b] => destruct (Qlt_bool_reflect a b)
  end; cbn [sql_case].

Ltac ladder := cbn [sql_case sql_le sql_lt lit]; repeat ladder_step.

(** ** Close-price buckets *)

Lemma close_bin_order_in_bin (r : Q) : in_bin (CloseBins.bin_order (Some r)) r.
Proof.
  unfold CloseBins.bin_order. ladder; unfold in_bin; cbn; unfold inject_Z; lra.
Qed.

Lemma close_bin_order_range (r : Q) : (0 <= CloseBins.bin_order (Some r) <= 21)%Z.
Proof. unfold CloseBins.bin_order. ladder; lia. Qed.

Lemma close_label_of_order (r : Q) :
  nth_error CloseBins.labels (Z.to_nat (CloseBins.bin_order (Some r)))
  = Some (CloseBins.return_bin (Some r)).
Proof.
  unfold CloseBins.bin_order, CloseBins.return_bin. ladder; reflexivity.
Qed.

Lemma close_label_prefix (r : Q) :
  label_order (CloseBins.return_bin (Some r)) = Some (CloseBins.bin_order (Some r)).
Proof.
  unfold CloseBins.bin_order, CloseBins.return_bin. ladder; reflexivity.
Qed.

Lemma bin_index_cases (j : Z) :
  (0 <= j <= 21)%Z ->
  In j [0; 1; 2; 3; 4; 5; 6; 7; 8; 9; 10; 11; 12; 13; 14; 15; 16; 17; 18; 19; 20; 21]%Z.
Proof. cbn [In]. lia. Qed.

Lemma close_bin_unique (r : Q) (j : Z) :
  (0 <= j <= 21)%Z -> in_bin j r -> j = CloseBins.bin_order (Some r).
Proof.
  intros Hj Hin.
  apply bin_index_cases in Hj as Hcases. clear Hj.
  repeat (destruct Hcases as [<- | Hcases]; [
    unfold in_bin in Hin; cbn in Hin; unfold inject_Z in Hin;
    unfold CloseBins.bin_order; ladder; (reflexivity || (exfalso; lra)) |]).
  destruct Hcases.
Qed.

Lemma close_bin_order_mono (r r' : Q) :
  r <= r' -> (CloseBins.bin_order (Some r) <= CloseBins.bin_order (Some r'))%Z.
Proof.
  intros Hle.
  pose proof (close_bin_order_in_bin r) as H.
  pose proof (close_bin_order_range r) as Hr.
  pose proof (close_bin_order_in_bin r') as H'.
  revert H Hr. generalize (CloseBins.bin_order (Some r)). intros j H Hj.
  apply bin_index_cases in Hj as Hcases. clear Hj.
  repeat (destruct Hcases as [<- | Hcases]; [
    unfold in_bin in H; cbn in H; unfold inject_Z in H;
    revert H'; unfold CloseBins.bin_order; ladder; intros H';
    (lia || (exfalso; unfold in_bin in H'; cbn in H'; unfold inject_Z in H'; lra)) |]).
  destruct Hcases.
Qed.

Lemma labels_increasing_nth (l : list string) (i j : nat) :
  labels_increasing l = true -> (i <= j < length l)%nat ->
  String.leb (nth i l "") (nth j l "") = true.
Proof.
  unfold labels_increasing. rewrite forallb_forall. intros H Hij.
  specialize (H i). rewrite forallb_forall in H.
  apply H; apply in_seq; lia.
Qed.

Lemma close_labels_increasing : labels_increasing CloseBins.labels = true.
Proof. vm_compute. reflexivity. Qed.

Lemma close_return_bin_mono (r r' : Q) :
  r <= r' ->
  String.leb (CloseBins.return_bin (Some r)) (CloseBins.return_bin (Some r')) = true.
Proof.
  intros Hle.
  pose proof (close_bin_order_mono r r' Hle) as Hm.
  pose proof (close_bin_order_range r) as Hr.
  pose proof (close_bin_order_range r') as Hr'.
  pose proof (close_label_of_order r) as Hl.
  pose proof (close_label_of_order r') as Hl'.
  apply (nth_error_nth _ _ "") in Hl. apply (nth_error_nth _ _ "") in Hl'.
  rewrite <- Hl, <- Hl'.
  apply labels_increasing_nth; [apply close_labels_increasing|].
  change (length CloseBins.labels) with 22%nat. lia.
Qed.

(** C1. Every return [r] falls in exactly one of the 22 intervals (one at or
    below -100, ten of width 10 up to 0, ten of width 100 up to 1000, one from
    1000 on); [bin_order] names that interval; the label chosen by
    [return_bin] is the entry of the 22-label table at that position and its
    numeric prefix is [bin_order]; a larger return never gets a smaller order
    or a label that sorts earlier. *)
Theorem close_bucketing_partitions_returns (r : Q) :
  let k := CloseBins.bin_order (Some r) in
  length CloseBins.labels = 22%nat /\
  (0 <= k <= 21)%Z /\
  in_bin k r /\
  (forall j, (0 <= j <= 21)%Z -> in_bin j r -> j = k) /\
  nth_error CloseBins.labels (Z.to_nat k) = Some (CloseBins.return_bin (Some r)) /\
  label_order (CloseBins.return_bin (Some r)) = Some k /\
  (forall r', r <= r' ->
     (k <= CloseBins.bin_order (Some r'))%Z /\
     String.leb (CloseBins.return_bin (Some r)) (CloseBins.return_bin (Some r')) = true).
Proof.
  cbv zeta. split; [reflexivity|].
  split; [apply close_bin_order_range|].
  split; [apply close_bin_order_in_bin|].
  split; [intros j; apply close_bin_unique|].
  split; [apply close_label_of_order|].
  split; [apply close_label_prefix|].
  intros r' Hle. split.
  - now apply close_bin_order_mono.
  - now apply close_return_bin_mono.
Qed.

Lemma close_bucketing_partitions_returns_witness :
  in_bin 12 150 /\ 150 <= 250 /\
  CloseBins.return_bin (Some 150) = "12. 上漲100-200%" /\
  (12 <= CloseBins.bin_order (Some 250%Q))%Z.
Proof.
  pose proof (close_bucketing_partitions_returns 150) as H. cbv zeta in H.
  destruct H as (_ & _ & Hin & _ & Hlab & _ & Hmono).
  assert (Hle : 150 <= 250) by (unfold Qle; cbn; lia).
  split; [exact Hin|]. split; [exact Hle|]. split; [reflexivity|].
  exact (proj1 (Hmono 250 Hle)).
Defined.

(** ** The return formula *)

Lemma eval_return_expr (k : annual_k) (pf : string) (p o : Q) :
  annual_row k pf = Some (Some p) ->
  year_open k = Some o -> ~ o == 0 ->
  eval_row (annual_row k) (return_expr pf) = Answer (Some (spec_return p o)).
Proof.
  intros Hp Ho Hnz. unfold return_expr. cbn [eval_row].
  rewrite Hp. change (annual_row k "year_open") with (Some (year_open k)).
  rewrite Ho. cbn [bind sql_sub sql_div].
  destruct (Qeq_bool_reflect o 0) as [Hz | _]; [contradiction|].
  reflexivity.
Qed.

(** C6. Every query that computes an annual return uses the expression
    [((price - year_open) / year_open) * 100]: with [year_close] on the main
    page, [year_high] on the high-price page, and the field the sidebar picks
    on the probability page; on a record with a non-zero opening price it
    evaluates to that value. *)
Theorem return_formula_consistent :
  App.annual_return = return_expr "year_close" /\
  App.annual_ret = return_expr "year_close" /\
  High.annual_max_return = return_expr "year_high" /\
  (forall pf, Probability.annual_return pf = return_expr pf /\
              Probability.ret pf = return_expr pf /\
              Probability.detail_return pf = return_expr pf) /\
  Probability.price_field Probability.ClosePrice = "year_close" /\
  Probability.price_field Probability.HighPrice = "year_high" /\
  (forall (k : annual_k) (o : Q), year_open k = Some o -> ~ o == 0 ->
     (forall c, year_close k = Some c ->
        eval_row (annual_row k) (return_expr "year_close") = Answer (Some (spec_return c o))) /\
     (forall h, year_high k = Some h ->
        eval_row (annual_row k) (return_expr "year_high") = Answer (Some (spec_return h o)))).
Proof.
  repeat (split; [reflexivity|]).
  split; [intros pf; repeat split|].
  repeat (split; [reflexivity|]).
  intros k o Ho Hnz. split.
  - intros c Hc. apply eval_return_expr; [|assumption..].
    unfold annual_row. cbn. now rewrite Hc.
  - intros h Hh. apply eval_return_expr; [|assumption..].
    unfold annual_row. cbn. now rewrite Hh.
Qed.

Lemma return_formula_consistent_witness :
  eval_row (annual_row sample_record) App.annual_return = Answer (Some (spec_return 150 100)) /\
  eval_row (annual_row sample_record) High.annual_max_return = Answer (Some (spec_return 180 100)).
Proof.
  destruct return_formula_consistent as (-> & _ & -> & _ & _ & _ & H).
  assert (Hnz : ~ 100 == 0) by (intros Hz; discriminate Hz).
  destruct (H sample_record 100 eq_refl Hnz) as [Hc Hh].
  split; [exact (Hc 150 eq_refl) | exact (Hh 180 eq_refl)].
Defined.

(** ** High-price buckets *)

Lemma complete_record_inv (k : annual_k) :
  HighBins.complete_record k = true ->
  exists o h, year_open k = Some o /\ year_high k = Some h /\ 0 < o.
Proof.
  unfold HighBins.complete_record.
  destruct (year_open k) as [o|], (year_high k) as [h|]; cbn; try discriminate.
  destruct (Qlt_bool_reflect 0 o); cbn; [|discriminate].
  intros _. now exists o, h.
Qed.

Lemma high_return_bin_in_labels (r : Q) :
  In (HighBins.return_bin (Some r)) HighBins.labels /\
  (1 <= HighBins.bin_order (Some r) <= 11)%Z /\
  label_order (HighBins.return_bin (Some r)) = Some (HighBins.bin_order (Some r)).
Proof.
  unfold HighBins.return_bin, HighBins.bin_order.
  ladder; (split; [cbn; tauto | split; [lia | reflexivity]]).
Qed.

Lemma high_first_bin (r : Q) :
  r < 100 -> HighBins.return_bin (Some r) = "01. 上漲0-100%".
Proof.
  intros Hr. unfold HighBins.return_bin. ladder; (reflexivity || contradiction).
Qed.

Lemma spec_return_negative (h o : Q) : 0 < o -> h < o -> spec_return h o < 0.
Proof.
  intros Ho Hlt. unfold spec_return.
  assert (Hq : (h - o) / o < 0).
  { apply Qlt_shift_div_r; [assumption | lra]. }
  lra.
Qed.

(** C9. In the high-price query, a row kept by the WHERE clause has both
    prices and a positive opening price, its return evaluates, and the row
    gets one of the eleven labels; when the year's high is below the opening
    price the return is negative and the label is still ['01. 上漲0-100%']. *)
Theorem high_bucketing_keeps_every_filtered_row (k : annual_k) :
  HighBins.complete_record k = true ->
  exists o h b,
    year_open k = Some o /\ year_high k = Some h /\ 0 < o /\
    select_binned High.annual_max_return HighBins.return_bin HighBins.bin_order k = Answer b /\
    b_return b = Some (spec_return h o) /\
    In (b_return_bin b) HighBins.labels /\
    (1 <= b_bin_order b <= 11)%Z /\
    (h < o -> spec_return h o < 0 /\ b_return_bin b = "01. 上漲0-100%" /\ b_bin_order b = 1%Z).
Proof.
  intros Hkeep. destruct (complete_record_inv k Hkeep) as (o & h & Ho & Hh & Hpos).
  exists o, h.
  assert (Hev : eval_row (annual_row k) High.annual_max_return
                = Answer (Some (spec_return h o))).
  { apply (eval_return_expr k "year_high"); [| assumption | lra].
    unfold annual_row. cbn. now rewrite Hh. }
  unfold select_binned. rewrite Hev. cbn [bind].
  eexists. repeat (split; [reflexivity || eassumption|]). cbn.
  destruct (high_return_bin_in_labels (spec_return h o)) as (Hin & Hrange & _).
  repeat (split; [assumption|]).
  intros Hlt. pose proof (spec_return_negative h o Hpos Hlt) as Hneg.
  split; [assumption|]. split.
  - apply high_first_bin. lra.
  - unfold HighBins.bin_order. ladder; (reflexivity || (exfalso; lra)).
Qed.

Lemma high_bucketing_keeps_every_filtered_row_witness :
  HighBins.complete_record falling_record = true /\
  exists b, select_binned High.annual_max_return HighBins.return_bin HighBins.bin_order
              falling_record = Answer b /\
            b_return_bin b = "01. 上漲0-100%".
Proof.
  assert (Hkeep : HighBins.complete_record falling_record = true) by reflexivity.
  split; [exact Hkeep|].
  destruct (high_bucketing_keeps_every_filtered_row falling_record Hkeep)
    as (o & h & b & Ho & Hh & _ & Hsel & _ & _ & _ & Hfall).
  exists b. split; [exact Hsel|].
  injection Ho as <-. injection Hh as <-.
  apply Hfall. reflexivity.
Defined.

(** ** Report-month windows *)

Import ReportMonth.

(** ** Strings: prefixes, literal patterns, decimal numerals *)

Lemma string_app_cons (a : ascii) (p s : string) :
  String a p +:+ s = String a (p +:+ s).
Proof. reflexivity. Qed.

Lemma string_app_nil (s : string) : "" +:+ s = s.
Proof. reflexivity. Qed.

Lemma ascii_compare_refl (a : ascii) : Ascii.compare a a = Eq.
Proof. unfold Ascii.compare. apply N.compare_refl. Qed.

Lemma string_compare_app_same (p s t : string) :
  String.compare (p +:+ s) (p +:+ t) = String.compare s t.
Proof.
  induction p as [|a p IH]; [reflexivity|].
  rewrite !string_app_cons. cbn [String.compare]. now rewrite ascii_compare_refl.
Qed.

Lemma string_eqb_app_same (p s t : string) :
  String.eqb (p +:+ s) (p +:+ t) = String.eqb s t.
Proof.
  induction p as [|a p IH]; [reflexivity|].
  rewrite !string_app_cons. cbn [String.eqb]. now rewrite Ascii.eqb_refl.
Qed.

Lemma string_eqb_app_ne (p q s t : string) :
  String.length p = String.length q -> p <> q ->
  String.eqb (p +:+ s) (q +:+ t) = false.
Proof.
  revert q. induction p as [|a p IH]; intros [|b q] Hlen Hne; try discriminate.
  - contradiction.
  - rewrite !string_app_cons. cbn [String.eqb].
    destruct (Ascii.eqb_spec a b) as [->|]; [|reflexivity].
    apply IH; [now injection Hlen | congruence].
Qed.

Lemma like_app_literal_same (p r s : string) :
  literal p = true -> like (p +:+ r) (p +:+ s) = like r s.
Proof.
  induction p as [|a p IH]; [reflexivity|].
  rewrite !string_app_cons. cbn [like literal].
  intros H. apply andb_prop in H as [H Hp]. apply andb_prop in H as [H1 H2].
  apply negb_true_iff in H1, H2. rewrite H1, H2, Ascii.eqb_refl. cbn [andb]. now apply IH.
Qed.

Lemma like_app_literal_ne (p q r s : string) :
  literal p = true -> String.length p = String.length q -> p <> q ->
  like (p +:+ r) (q +:+ s) = false.
Proof.
  revert q. induction p as [|a p IH]; intros [|b q] Hlit Hlen Hne; try discriminate.
  - contradiction.
  - rewrite !string_app_cons. cbn [like literal] in Hlit |- *.
    apply andb_prop in Hlit as [H Hp]. apply andb_prop in H as [H1 H2].
    apply negb_true_iff in H1, H2. rewrite H1, H2.
    destruct (Ascii.eqb_spec a b) as [->|]; [|reflexivity].
    cbn [andb]. apply IH; [assumption | now injection Hlen | congruence].
Qed.

Lemma like_any (s : string) : like "%" s = true.
Proof. induction s as [|a s IH]; [reflexivity|]. exact IH. Qed.

(** Decimal numerals of three digits. *)
Lemma pretty_three_digits (n : Z) :
  (100 <= n <= 999)%Z ->
  String.length (pretty n) = 3%nat /\ literal (pretty n) = true.
Proof.
  intros Hn. destruct n as [|p|p]; try lia.
  change (pretty (Z.pos p)) with (pretty (N.pos p)).
  unfold pretty, pretty_N. rewrite decide_False by discriminate.
  rewrite pretty_N_go_step by lia.
  rewrite pretty_N_go_step by (apply N.div_str_pos; lia).
  rewrite pretty_N_go_step.
  2:{ apply N.div_str_pos. split; [lia|]. apply N.div_le_lower_bound; lia. }
  replace (N.pos p / 10 / 10 / 10)%N with 0%N.
  2:{ symmetry. rewrite !N.Div0.div_div. apply N.div_small. lia. }
  rewrite pretty_N_go_0. split; [reflexivity|].
  unfold pretty_N_char. cbn [literal]. repeat case_match; reflexivity.
Qed.

Lemma pretty_ne (a b : Z) : a <> b -> pretty a <> pretty b.
Proof. intros Hne Heq. apply Hne. now apply (inj pretty). Qed.

Lemma month_cases (m : Z) :
  (1 <= m <= 12)%Z -> In m [1; 2; 3; 4; 5; 6; 7; 8; 9; 10; 11; 12]%Z.
Proof. cbn [In]. lia. Qed.

Lemma window_months_spec (year y m : Z) :
  (1 <= m <= 12)%Z ->
  In (y, m) (window_months year) <->
  (y = prev_minguo_year year /\ m = 12%Z) \/ (y = minguo_year year /\ (m <= 11)%Z).
Proof.
  intros Hm. unfold window_months. cbn [In map]. split.
  - intros H. repeat (destruct H as [H|H]; [injection H as <- <-; (left; split; [reflexivity|lia]) || (right; split; [reflexivity|lia]) |]).
    destruct H.
  - intros [[-> ->] | [-> Hle]]; [now left | right].
    apply month_cases in Hm. cbn [In] in Hm.
    repeat (destruct Hm as [<- | Hm]; [tauto || lia |]). destruct Hm.
Qed.

Lemma string_length_app (p s : string) :
  String.length (p +:+ s) = (String.length p + String.length s)%nat.
Proof.
  induction p as [|a p IH]; [reflexivity|].
  rewrite string_app_cons. cbn [String.length]. now rewrite IH.
Qed.

(** The two windows on a month of the analysis year itself. *)
Lemma windows_same_year (p : string) (m : Z) :
  (1 <= m <= 12)%Z -> String.length p = 3%nat -> literal p = true ->
  let rm := p +:+ "_" +:+ pad2 m in
  like (p +:+ "_%") rm && String.ltb rm (p +:+ "_12") && (String.length rm <=? 7)%nat
  = negb (m =? 12)%Z /\
  like (p +:+ "_%") rm && String.leb rm (p +:+ "_11") = negb (m =? 12)%Z.
Proof.
  intros Hm Hlen Hlit rm. subst rm.
  rewrite like_app_literal_same by assumption.
  unfold String.ltb, String.leb. rewrite !string_compare_app_same.
  rewrite string_length_app, Hlen.
  apply month_cases in Hm. cbn [In] in Hm.
  repeat (destruct Hm as [<- | Hm]; [split; reflexivity |]). destruct Hm.
Qed.

Lemma window_months_NoDup (year : Z) : List.NoDup (window_months year).
Proof.
  unfold window_months, prev_minguo_year. cbn [map].
  repeat (apply List.NoDup_cons; [cbn [In]; intros H;
    repeat (destruct H as [H|H]; [injection H; lia|]); destruct H |]).
  apply List.NoDup_nil.
Qed.



(** ** [get_engine] *)

Import Engine.

Lemma connection_string_needs_secrets (secrets : gmap string secret) :
  secrets !! "DB_PASSWORD" = None \/ secrets !! "PROJECT_REF" = None
  \/ secrets !! "POOLER_HOST" = None ->
  connection_string secrets = None.
Proof.
  unfold connection_string. intros [H | [H | H]].
  - now rewrite H.
  - rewrite H. now destruct (secrets !! "DB_PASSWORD").
  - rewrite H. destruct (secrets !! "DB_PASSWORD"); [|reflexivity].
    now destruct (secrets !! "PROJECT_REF").
Qed.

(** C5. When a secret is missing, or [create_engine] raises on the connection
    string, [get_engine] returns no engine: the run stops after showing the
    page's fixed message once, and [create_engine] was called at most once
    (no second attempt, no other URL). *)
Theorem get_engine_failure_halts (message : string) (secrets : gmap string secret)
    (create_engine : string -> option engine) :
  secrets !! "DB_PASSWORD" = None \/ secrets !! "PROJECT_REF" = None
  \/ secrets !! "POOLER_HOST" = None
  \/ (exists url, connection_string secrets = Some url /\ create_engine url = None) ->
  fst (get_engine message secrets create_engine) = Stopped /\
  (snd (get_engine message secrets create_engine) = [StError message; StStop]
   \/ exists url, snd (get_engine message secrets create_engine)
                  = [CreateEngine url; StError message; StStop]) /\
  (creations (snd (get_engine message secrets create_engine)) <= 1)%nat.
Proof.
  intros H.
  assert (Hcases : connection_string secrets = None
                   \/ exists url, connection_string secrets = Some url /\ create_engine url = None).
  { destruct H as [H | [H | [H | H]]]; auto using connection_string_needs_secrets. }
  unfold get_engine. destruct Hcases as [-> | (url & -> & ->)]; cbn.
  - repeat split; auto.
  - repeat split; eauto.
Qed.

Lemma get_engine_failure_halts_witness :
  Engine.example_secrets !! "POOLER_HOST" = None /\
  get_engine app_message Engine.example_secrets (fun url => Some {| engine_url := url |})
  = (Stopped, [StError app_message; StStop]).
Proof.
  assert (H : Engine.example_secrets !! "POOLER_HOST" = None) by reflexivity.
  split; [exact H|].
  destruct (get_engine_failure_halts app_message Engine.example_secrets
              (fun url => Some {| engine_url := url |}) (or_intror (or_intror (or_introl H))))
    as (Hout & Htrace & _).
  destruct Htrace as [Ht | (url & Hurl)].
  - rewrite (surjective_pairing (get_engine _ _ _)). now rewrite Hout, Ht.
  - exfalso. vm_compute in Hurl. discriminate Hurl.
Defined.

(** ** Percent-encoding and the AI links *)

Import Urllib Links.

Lemma hex_value_hex_digit (n : nat) :
  (n < 16)%nat -> hex_value (hex_digit n) = Some n.
Proof.
  intros Hn.
  do 16 (destruct n as [|n]; [reflexivity|]). lia.
Qed.

Lemma unquote_percent (c : ascii) (s : string) :
  unquote (percent c +:+ s) = String c (unquote s).
Proof.
  unfold percent.
  change (unquote (String "%" (String (hex_digit (nat_of_ascii c / 16))
            (String (hex_digit (nat_of_ascii c mod 16)) s)))
          = String c (unquote s)).
  cbn [unquote]. rewrite Ascii.eqb_refl.
  pose proof (nat_ascii_bounded c) as Hc.
  rewrite !hex_value_hex_digit.
  - rewrite <- Nat.div_mod_eq, ascii_nat_embedding. reflexivity.
  - apply Nat.mod_upper_bound. lia.
  - apply Nat.Div0.div_lt_upper_bound. lia.
Qed.

Lemma always_safe_not_percent (c : ascii) :
  always_safe c = true -> Ascii.eqb c "%" = false.
Proof.
  destruct (Ascii.eqb_spec c "%") as [-> | ]; [discriminate | reflexivity].
Qed.

Lemma mem_not_percent (safe : string) (c : ascii) :
  mem "%" safe = false -> mem c safe = true -> Ascii.eqb c "%" = false.
Proof.
  intros Hs Hc. destruct (Ascii.eqb_spec c "%") as [-> | ]; [congruence | reflexivity].
Qed.

(** Decoding undoes [quote] whenever ['%'] itself is not declared safe. *)
Lemma unquote_quote_from_bytes (safe s : string) :
  mem "%" safe = false -> unquote (quote_from_bytes safe s) = s.
Proof.
  intros Hsafe. induction s as [|c s IH]; [reflexivity|].
  cbn [quote_from_bytes].
  destruct (always_safe c || mem c safe) eqn:Hkeep.
  - change (unquote (String c (quote_from_bytes safe s)) = String c s).
    cbn [unquote].
    assert (Hc : Ascii.eqb c "%" = false).
    { apply orb_prop in Hkeep as [H | H];
        [now apply always_safe_not_percent | now apply (mem_not_percent safe)]. }
    rewrite Hc. now rewrite IH.
  - rewrite unquote_percent. now rewrite IH.
Qed.

Lemma unquote_quote (s : string) : unquote (quote s) = s.
Proof. now apply unquote_quote_from_bytes. Qed.

Lemma mem_app (c : ascii) (s t : string) : mem c (s +:+ t) = mem c s || mem c t.
Proof.
  induction s as [|d s IH]; [reflexivity|].
  change (mem c (String d (s +:+ t)) = mem c (String d s) || mem c t).
  cbn [mem]. rewrite IH. now rewrite orb_assoc.
Qed.

Lemma hex_digit_safe (n : nat) : (n < 16)%nat -> always_safe (hex_digit n) = true.
Proof.
  intros Hn. do 16 (destruct n as [|n]; [reflexivity|]). lia.
Qed.

Lemma quote_url_safe (s : string) : url_safe (quote s).
Proof.
  unfold url_safe, quote. induction s as [|d s IH]; intros c; [discriminate|].
  cbn [quote_from_bytes]. rewrite mem_app. intros H.
  apply orb_prop in H as [H | H]; [|now apply IH].
  pose proof (nat_ascii_bounded d) as Hd.
  destruct (always_safe d || mem d "/") eqn:Hkeep.
  - cbn [mem] in H. rewrite orb_false_r in H. apply Ascii.eqb_eq in H. subst c.
    apply orb_prop in Hkeep as [Hk | Hk]; [now left|].
    cbn [mem] in Hk. rewrite orb_false_r in Hk. apply Ascii.eqb_eq in Hk. now right; left.
  - unfold percent in H. cbn [mem] in H.
    apply orb_prop in H as [H | H]; [apply Ascii.eqb_eq in H; now right; right|].
    apply orb_prop in H as [H | H].
    + apply Ascii.eqb_eq in H. subst c. left. apply hex_digit_safe.
      apply Nat.Div0.div_lt_upper_bound. lia.
    + rewrite orb_false_r in H. apply Ascii.eqb_eq in H. subst c. left.
      apply hex_digit_safe. apply Nat.mod_upper_bound. lia.
Qed.

Lemma carries_q (text : string) (l : link) :
  query_string (link_url l) = Some ("q=" +:+ quote text) -> carries text l.
Proof.
  intros H. exists "q", (quote text). split; [exact H | apply unquote_quote].
Qed.




(** ** Round trips of a page view *)

Import Pages.

Lemma costs_ret {A} (a : A) : costs (ret a) 0.
Proof. intros w. exists []. now rewrite app_nil_r. Qed.

Lemma costs_weaken {A} (m : script A) (a b : nat) :
  costs m a -> (a <= b)%nat -> costs m b.
Proof. intros H Hab w. destruct (H w) as (s & Hs & Hl). exists s. split; [assumption | lia]. Qed.

Lemma costs_bind {A B} (m : script A) (k : A -> script B) (a b : nat) :
  costs m a -> (forall x, costs (k x) b) -> costs (bind m k) (a + b).
Proof.
  intros Hm Hk w. destruct (Hm w) as (s & Hs & Hl). unfold bind.
  destruct (m w) as [x w' | w' | w']; cbn [final] in *.
  - destruct (Hk x w') as (s' & Hs' & Hl'). exists (s ++ s')%list.
    rewrite Hs', Hs, <- app_assoc, length_app. split; [reflexivity | lia].
  - exists s. split; [assumption | lia].
  - exists s. split; [assumption | lia].
Qed.

Lemma costs_seq {A B} (m : script A) (k : script B) (a b : nat) :
  costs m a -> costs k b -> costs (seq_ m k) (a + b).
Proof. intros Hm Hk. apply costs_bind; [assumption | intros _; assumption]. Qed.

Lemma costs_catch {A} (m handler : script A) (a b : nat) :
  costs m a -> costs handler b -> costs (catch m handler) (a + b).
Proof.
  intros Hm Hh w. destruct (Hm w) as (s & Hs & Hl). unfold catch.
  destruct (m w) as [x w' | w' | w']; cbn [final] in *.
  - exists s. split; [assumption | lia].
  - destruct (Hh w') as (s' & Hs' & Hl'). exists (s ++ s')%list.
    rewrite Hs', Hs, <- app_assoc, length_app. split; [reflexivity | lia].
  - exists s. split; [assumption | lia].
Qed.

Lemma costs_cache_data (k : key) (body : script table) (n : nat) :
  costs body n -> costs (cache_data k body) n.
Proof.
  intros Hb w. unfold cache_data. destruct (cache w !! k) as [v|].
  - exists []. cbn. rewrite app_nil_r. split; [reflexivity | lia].
  - destruct (Hb w) as (s & Hs & Hl). destruct (body w); cbn [final trips] in *; eauto.
Qed.

Lemma costs_get_engine : costs get_engine 0.
Proof.
  intros w. exists []. unfold get_engine.
  destruct (engine_available w); cbn; rewrite app_nil_r; auto.
Qed.

Lemma costs_read_sql_query (q : key) : costs (read_sql_query q) 1.
Proof.
  intros w. exists [q]. unfold read_sql_query.
  destruct (database w q); cbn; auto.
Qed.

Lemma costs_query (q : key) : costs (seq_ get_engine (read_sql_query q)) 1.
Proof. apply (costs_seq _ _ 0 1); [apply costs_get_engine | apply costs_read_sql_query]. Qed.

Lemma costs_new_trips {A} (m : script A) (n : nat) (w : world) :
  costs m n -> (new_trips m w <= n)%nat.
Proof.
  intros H. destruct (H w) as (s & Hs & Hl). unfold new_trips.
  rewrite Hs, length_app. lia.
Qed.

(** A cache hit sends nothing. *)
Lemma cache_hit_no_trip (k : key) (body : script table) (w : world) (v : table) :
  cache w !! k = Some v ->
  cache_data k body w = Finished v w /\ new_trips (cache_data k body) w = 0%nat.
Proof.
  intros H. unfold new_trips, cache_data. rewrite H. cbn. split; [reflexivity | lia].
Qed.

Lemma costs_fetch_heatmap_data (y c m : string) : costs (AppScript.fetch_heatmap_data y c m) 1.
Proof. apply costs_cache_data, costs_query. Qed.

Lemma costs_quick_switch (i : AppScript.inputs) : costs (AppScript.quick_switch i) 1.
Proof.
  assert (H : forall name full, costs (AppScript.quick_display i name full) 1).
  { intros name full. unfold AppScript.quick_display.
    destruct (contains name _).
    - apply (costs_weaken _ 0); [apply costs_ret | lia].
    - apply (costs_seq _ _ 1 0); [apply costs_fetch_heatmap_data | apply costs_ret]. }
  unfold AppScript.quick_switch.
  repeat (match goal with |- context [String.eqb ?a ?b] => destruct (String.eqb a b) end;
          [apply H|]).
  apply (costs_weaken _ 0); [apply costs_ret | lia].
Qed.

Lemma costs_app_page (i : AppScript.inputs) : costs (AppScript.page i) 5.
Proof.
  unfold AppScript.page.
  apply (costs_bind _ _ 1 4).
  { apply costs_cache_data. apply (costs_catch _ _ 1 0); [apply costs_query | apply costs_ret]. }
  intros _. apply (costs_bind _ _ 1 3); [apply costs_fetch_heatmap_data|].
  intros df. apply (costs_bind _ _ 1 2); [apply costs_cache_data, costs_query|].
  intros _. destruct (is_empty df).
  - apply (costs_weaken _ 0); [apply costs_ret | lia].
  - apply (costs_seq _ _ 0 2); [apply costs_get_engine|].
    apply (costs_seq _ _ 1 1); [apply costs_read_sql_query | apply costs_quick_switch].
Qed.

Lemma costs_high_page (i : HighScript.inputs) : costs (HighScript.page i) 2.
Proof.
  unfold HighScript.page.
  apply (costs_bind _ _ 1 1); [apply costs_cache_data, costs_query|].
  intros _. apply (costs_bind _ _ 1 0); [apply costs_cache_data, costs_query|].
  intros _. apply costs_ret.
Qed.

Lemma costs_fetch_prob_data (a : list string) : costs (ProbabilityScript.fetch_prob_data a) 2.
Proof.
  apply costs_cache_data. apply (costs_seq _ _ 0 2); [apply costs_get_engine|].
  apply (costs_catch _ _ 1 1); [apply costs_read_sql_query | apply costs_query].
Qed.

Lemma costs_probability_page (i : ProbabilityScript.inputs) :
  costs (ProbabilityScript.page i) 5.
Proof.
  unfold ProbabilityScript.page.
  apply (costs_bind _ _ 2 3); [apply costs_fetch_prob_data|].
  intros df. destruct (is_empty df).
  { apply (costs_weaken _ 0); [apply costs_ret | lia]. }
  apply (costs_seq _ _ 2 1).
  - destruct (ProbabilityScript.show_multi_year i).
    + unfold ProbabilityScript.multi_year_section.
      apply (costs_catch _ _ 2 0); [|apply costs_ret].
      apply (costs_seq _ _ 0 2); [apply costs_get_engine|].
      apply (costs_bind _ _ 1 1); [apply costs_read_sql_query|].
      intros l. destruct (is_empty l) eqn:Hl.
      * apply (costs_weaken _ 0); [apply costs_ret | lia].
      * apply (costs_seq _ _ 1 0); [|apply costs_ret].
        apply costs_cache_data. rewrite Hl. apply costs_query.
    + apply (costs_weaken _ 0); [apply costs_ret | lia].
  - unfold ProbabilityScript.detail_section.
    apply (costs_catch _ _ 1 0); [|apply costs_ret].
    apply (costs_seq _ _ 0 1); [apply costs_get_engine|].
    apply (costs_seq _ _ 1 0); [apply costs_read_sql_query | apply costs_ret].
Qed.

Lemma costs_timing_page (i : TimingScript.inputs) : costs (TimingScript.page i) 1.
Proof.
  unfold TimingScript.page.
  apply (costs_seq _ _ 1 0); [apply costs_cache_data, costs_query | apply costs_ret].
Qed.

(** C4 (as the code has it). A page view sends at most five queries on the
    main page, two on the high-price page, five on the probability page and
    one on the timing page; a cached fetch whose key is in the cache sends
    none. *)
Theorem page_view_round_trips_bounded :
  (forall i w, (new_trips (AppScript.page i) w <= 5)%nat) /\
  (forall i w, (new_trips (HighScript.page i) w <= 2)%nat) /\
  (forall i w, (new_trips (ProbabilityScript.page i) w <= 5)%nat) /\
  (forall i w, (new_trips (TimingScript.page i) w <= 1)%nat) /\
  (forall k body w v, cache w !! k = Some v -> new_trips (cache_data k body) w = 0%nat).
Proof.
  repeat split; intros.
  - apply costs_new_trips, costs_app_page.
  - apply costs_new_trips, costs_high_page.
  - apply costs_new_trips, costs_probability_page.
  - apply costs_new_trips, costs_timing_page.
  - now apply (cache_hit_no_trip k body w v).
Qed.

Lemma page_view_round_trips_bounded_witness :
  cache warm_world !! ("fetch_heatmap_data", ["2024"; "yoy_pct"; "平均值 (含極端值)"]) = Some ["row"] /\
  new_trips (AppScript.fetch_heatmap_data "2024" "yoy_pct" "平均值 (含極端值)") warm_world = 0%nat.
Proof.
  assert (H : cache warm_world !! ("fetch_heatmap_data", ["2024"; "yoy_pct"; "平均值 (含極端值)"])
              = Some ["row"]) by (vm_compute; reflexivity).
  split; [exact H|].
  destruct page_view_round_trips_bounded as (_ & _ & _ & _ & Hhit).
  exact (Hhit _ _ warm_world _ H).
Defined.

(** C4 as stated fails: the first view of the main page sends five queries
    (latest date, heatmap, summary, detail, and the heatmap again for the
    quick switch). *)
Lemma page_view_sends_several_queries :
  new_trips (AppScript.page mean_view) cold_world = 5%nat /\
  ~ (forall i w, (new_trips (AppScript.page i) w <= 1)%nat).
Proof.
  assert (H : new_trips (AppScript.page mean_view) cold_world = 5%nat)
    by (vm_compute; reflexivity).
  split; [exact H|].
  intros Hall. specialize (Hall mean_view cold_world). rewrite H in Hall. lia.
Qed.

(** ** The statistic selector *)

Import Stats.

Lemma collect_metric (c : string) (vs : list numeric) :
  collect (fun r => eval_row r (Col c)) (map (metric_row c) vs) = Answer vs.
Proof.
  induction vs as [|v vs IH]; [reflexivity|].
  cbn [map collect]. rewrite IH.
  cbn [eval_row]. unfold metric_row. now rewrite String.eqb_refl.
Qed.

(** The selector as a table: the formula and label of each method. *)
Lemma selector_table (c : string) :
  let x := Col c in
  AppSelector.select "中位數 (排除極端值)" c = (PercentileCont (1 # 2) x, "中位數") /\
  AppSelector.select "平均值 (含極端值)" c = (Avg x, "平均值") /\
  AppSelector.select "標準差 (波動程度)" c = (Stddev x, "標準差") /\
  AppSelector.select "變異係數 (相對波動)" c
    = (CaseWhen (CEq (Avg x) (Num 0)) (Num 0) (Mul (Div (Stddev x) (Abs (Avg x))) (Num 100)),
       "變異係數%") /\
  AppSelector.select "偏度 (分佈形狀)" c
    = (CaseWhen (CEq (Stddev x) (Num 0)) (Num 0)
         (Avg (Power (Div (Sub x (Avg x)) (NullIf (Stddev x) (Num 0))) 3)),
       "偏度") /\
  AppSelector.select "峰度 (尾部厚度)" c
    = (CaseWhen (CEq (Stddev x) (Num 0)) (Num 0)
         (Sub (Avg (Power (Div (Sub x (Avg x)) (NullIf (Stddev x) (Num 0))) 4)) (Num 3)),
       "峰度") /\
  AppSelector.select "四分位距 (離散程度)" c
    = (Sub (PercentileCont (3 # 4) x) (PercentileCont (1 # 4) x), "四分位距") /\
  AppSelector.select "正樣本比例" c
    = (Div (Mul (Sum (CaseWhen (CGt x (Num 0)) (Num 1) (Num 0))) (Num 100)) CountStar,
       "正增長比例%").
Proof. cbv zeta. repeat split; reflexivity. Qed.

(** The two copies of the if-chain are the same function. *)
Lemma selectors_agree (stat_method metric_col : string) :
  AppSelector.select stat_method metric_col = HighSelector.select stat_method metric_col.
Proof. reflexivity. Qed.

(** What the one-level formulas evaluate to on a group whose metric values
    are [vs]. *)
Lemma selector_one_level_formulas (root : Q -> Q) (c : string) (vs : list numeric) :
  let g := map (metric_row c) vs in
  eval_group root g (AppSelector.agg_func "中位數 (排除極端值)" c)
    = Answer (PERCENTILE_CONT (1 # 2) vs) /\
  eval_group root g (AppSelector.agg_func "平均值 (含極端值)" c) = Answer (AVG vs) /\
  eval_group root g (AppSelector.agg_func "標準差 (波動程度)" c) = Answer (STDDEV root vs) /\
  eval_group root g (AppSelector.agg_func "四分位距 (離散程度)" c)
    = Answer (sql_sub (PERCENTILE_CONT (3 # 4) vs) (PERCENTILE_CONT (1 # 4) vs)) /\
  (forall m s, AVG vs = Some m -> ~ m == 0 -> STDDEV root vs = Some s ->
     eval_group root g (AppSelector.agg_func "變異係數 (相對波動)" c)
     = Answer (Some (s / Qabs m * 100))).
Proof.
  cbv zeta. unfold AppSelector.agg_func.
  destruct (selector_table c) as (-> & -> & -> & -> & _ & _ & -> & _). cbn [fst].
  repeat split.
  - cbn [eval_group]. now rewrite collect_metric.
  - cbn [eval_group]. now rewrite collect_metric.
  - cbn [eval_group]. now rewrite collect_metric.
  - cbn [eval_group]. now rewrite !collect_metric.
  - intros m s Hm Hnz Hs. cbn [eval_group eval_group_cond]. rewrite !collect_metric.
    cbn [Sql.bind]. rewrite Hm, Hs. cbn [sql_eq Sql.bind sql_abs option_map sql_div sql_mul lit].
    destruct (Qeq_bool_reflect m 0) as [Hz|_]; [contradiction|].
    destruct (Qeq_bool_reflect (Qabs m) 0) as [Hz|_]; [|reflexivity].
    exfalso. apply Hnz. revert Hz. apply Qabs_case; intros; lra.
Qed.

Lemma collect_positive_flags (c : string) (xs : list Q) :
  collect (fun r => eval_row r (CaseWhen (CGt (Col c) (Num 0)) (Num 1) (Num 0)))
          (map (metric_row c) (map Some xs))
  = Answer (map (fun x => Some (positive_flag x)) xs).
Proof.
  induction xs as [|x xs IH]; [reflexivity|].
  cbn [map collect]. rewrite IH.
  cbn [eval_row eval_row_cond]. unfold metric_row. rewrite String.eqb_refl.
  cbn [Sql.bind sql_gt sql_lt]. unfold positive_flag.
  now destruct (Qlt_bool 0 x).
Qed.

Lemma non_null_some {A} (f : A -> Q) (xs : list A) :
  non_null (map (fun x => Some (f x)) xs) = map f xs.
Proof. induction xs as [|x xs IH]; [reflexivity|]. cbn. now rewrite IH. Qed.

Lemma total_positive_flags (xs : list Q) :
  total (map positive_flag xs) == COUNT_FILTER_GT 0 (map Some xs).
Proof.
  unfold COUNT_FILTER_GT.
  induction xs as [|x xs IH]; [reflexivity|].
  cbn [map total fold_right List.filter]. fold (total (map positive_flag xs)). rewrite IH.
  unfold positive_flag, sql_gt, sql_lt, lit, holds.
  destruct (Qlt_bool 0 x); cbn [length]; [|lra].
  rewrite Nat2Z.inj_succ, <- Z.add_1_l, inject_Z_plus. reflexivity.
Qed.

(** The positive-rate formula on a non-empty group of non-NULL values: the
    share of values above zero, times 100. *)
Lemma selector_positive_rate (root : Q -> Q) (c : string) (x : Q) (xs : list Q) :
  exists v,
    eval_group root (map (metric_row c) (map Some (x :: xs)))
               (AppSelector.agg_func "正樣本比例" c) = Answer (Some v) /\
    v == COUNT_FILTER_GT 0 (map Some (x :: xs)) * 100 / COUNT_STAR (x :: xs).
Proof.
  set (l := x :: xs).
  unfold AppSelector.agg_func.
  destruct (selector_table c) as (_ & _ & _ & _ & _ & _ & _ & ->). cbn [fst].
  cbn [eval_group]. rewrite collect_positive_flags. cbn [Sql.bind].
  unfold SUM. rewrite (non_null_some positive_flag).
  assert (Hn : ~ COUNT_STAR (map (metric_row c) (map Some l)) == 0).
  { unfold COUNT_STAR. rewrite !length_map. unfold l. cbn [length].
    rewrite Nat2Z.inj_succ. unfold Qeq. cbn. lia. }
  unfold l at 1. cbn [map]. fold (map positive_flag xs).
  change (positive_flag x :: map positive_flag xs) with (map positive_flag l).
  cbn [sql_mul sql_div].
  destruct (Qeq_bool_reflect (COUNT_STAR (map (metric_row c) (map Some l))) 0) as [Hz|_];
    [contradiction|].
  eexists. split; [reflexivity|].
  rewrite total_positive_flags. unfold COUNT_STAR. rewrite !length_map. reflexivity.
Qed.

(** C2. With skewness or kurtosis selected, either page splices into its
    query a formula that calls [AVG] and [STDDEV] inside the argument of
    [AVG]; PostgreSQL refuses the statement, on every table, so no statistic
    is computed. *)
Theorem skewness_and_kurtosis_nest_aggregates (root : Q -> Q) (c : string)
    (groups : list (list row)) :
  select_item root (AppSelector.agg_func "偏度 (分佈形狀)" c) groups = Raised nested_aggregate /\
  select_item root (AppSelector.agg_func "峰度 (尾部厚度)" c) groups = Raised nested_aggregate /\
  select_item root (HighSelector.agg_func "偏度 (分佈形狀)" c) groups = Raised nested_aggregate /\
  select_item root (HighSelector.agg_func "峰度 (尾部厚度)" c) groups = Raised nested_aggregate /\
  (forall m, In m stat_methods -> m <> "偏度 (分佈形狀)" -> m <> "峰度 (尾部厚度)" ->
     nests_aggregate (AppSelector.agg_func m c) = false).
Proof.
  repeat split; try reflexivity.
  intros m Hin H1 H2. unfold stat_methods in Hin. cbn [In] in Hin.
  destruct Hin as [<- | [<- | [<- | [<- | [<- | [<- | [<- | [<- | []]]]]]]]];
    try reflexivity; contradiction.
Qed.

Lemma skewness_and_kurtosis_nest_aggregates_witness :
  select_item (fun x => x) (AppSelector.agg_func "偏度 (分佈形狀)" "yoy_pct")
    [[metric_row "yoy_pct" (Some 5); metric_row "yoy_pct" (Some 7)]]
  = Raised nested_aggregate /\
  nests_aggregate (AppSelector.agg_func "平均值 (含極端值)" "yoy_pct") = false.
Proof.
  destruct (skewness_and_kurtosis_nest_aggregates (fun x => x) "yoy_pct"
              [[metric_row "yoy_pct" (Some 5); metric_row "yoy_pct" (Some 7)]])
    as (H & _ & _ & _ & Hok).
  split; [exact H|].
  apply Hok; [right; left; reflexivity | discriminate | discriminate].
Defined.

(** ** The two heatmap engines *)

Lemma run_annual_bins_app (y : string) (table : list annual_k) :
  run_annual_bins app_engine y table = app_annual_bins y table.
Proof.
  unfold run_annual_bins, app_annual_bins, app_engine. cbn.
  f_equal. apply filter_ext. intros k. now rewrite andb_true_r.
Qed.

Lemma run_annual_bins_high (y : string) (table : list annual_k) :
  run_annual_bins high_engine y table = high_annual_bins y table.
Proof. reflexivity. Qed.




(** ** The probability table and its alternate path *)

Import ProbData.

(** *** Rounding *)

Lemma Qfloor_unique (x : Q) (z : Z) :
  inject_Z z <= x -> x < inject_Z z + 1 -> Qfloor x = z.
Proof.
  intros Hlo Hhi.
  pose proof (Qfloor_le x) as H1. pose proof (Qlt_floor x) as H2.
  rewrite inject_Z_plus in H2. change (inject_Z 1) with 1 in H2.
  assert (Ha : inject_Z (Qfloor x) < inject_Z z + 1) by lra.
  assert (Hb : inject_Z z < inject_Z (Qfloor x) + 1) by lra.
  change 1 with (inject_Z 1) in Ha, Hb. rewrite <- inject_Z_plus in Ha, Hb.
  rewrite <- Zlt_Qlt in Ha, Hb. lia.
Qed.

Lemma Qlt_bool_comp (a b c d : Q) : a == b -> c == d -> Qlt_bool a c = Qlt_bool b d.
Proof. intros H1 H2. unfold Qlt_bool. now rewrite H1, H2. Qed.

Lemma ROUND1_comp (x y : Q) : x == y -> ROUND1 (Some x) = ROUND1 (Some y).
Proof.
  intros H. unfold ROUND1. cbn [option_map]. f_equal.
  assert (Ht : x * 10 == y * 10) by now rewrite H.
  rewrite (Qleb_comp 0 0 (Qeq_refl 0) _ _ Ht).
  destruct (Qle_bool 0 (y * 10)).
  - apply Qfloor_comp. now rewrite Ht.
  - f_equal. apply Qfloor_comp. now rewrite Ht.
Qed.

(** Away from a tie the two rounding rules give the same tenths. *)
Lemma rounding_agrees (x : Q) :
  is_tie x = false -> ROUND1 (Some x) = round1 (Some x).
Proof.
  unfold is_tie, ROUND1, round1. cbn [option_map]. intros Htie. f_equal.
  set (t := x * 10) in *. set (f := Qfloor t) in *.
  pose proof (Qfloor_le t) as H1. pose proof (Qlt_floor t) as H2. fold f in H1, H2.
  rewrite inject_Z_plus in H2. change (inject_Z 1) with 1 in H2.
  destruct (Qeq_bool_reflect (t - inject_Z f) (1 # 2)) as [|Hne]; [discriminate|].
  destruct (Qlt_bool_reflect (t - inject_Z f) (1 # 2)) as [Hlt | Hge].
  - destruct (Qle_bool_reflect 0 t).
    + apply Qfloor_unique; lra.
    + assert (E : Qfloor (- t + (1 # 2)) = (- f)%Z).
      { apply Qfloor_unique; rewrite inject_Z_opp; lra. }
      rewrite E. lia.
  - destruct (Qlt_bool_reflect (1 # 2) (t - inject_Z f)) as [Hgt | Hle]; [|exfalso; lra].
    destruct (Qle_bool_reflect 0 t).
    + apply Qfloor_unique; rewrite inject_Z_plus; change (inject_Z 1) with 1; lra.
    + assert (E : Qfloor (- t + (1 # 2)) = (- (f + 1))%Z).
      { apply Qfloor_unique; rewrite inject_Z_opp, inject_Z_plus;
          change (inject_Z 1) with 1; lra. }
      rewrite E. lia.
Qed.

Lemma rounding_agrees_up_to_eq (x y : Q) :
  x == y -> is_tie x = false -> ROUND1 (Some x) = round1 (Some y).
Proof.
  intros Heq Htie. rewrite (ROUND1_comp x y Heq). apply rounding_agrees.
  unfold is_tie in *. rewrite <- Htie. symmetry.
  assert (Ht : x * 10 == y * 10) by now rewrite Heq.
  rewrite (Qfloor_comp _ _ Ht). apply Qeqb_comp; [now rewrite Ht | reflexivity].
Qed.

(** *** The median is the 0.5 percentile *)

Lemma half_row_even (k : Z) :
  let rn := (1 # 2) * (inject_Z (2 * k) - 1) in
  Qfloor rn = (k - 1)%Z /\ Qceiling rn = k /\ rn - inject_Z (k - 1) == 1 # 2.
Proof.
  cbv zeta.
  assert (E : (1 # 2) * (inject_Z (2 * k) - 1) == inject_Z k - (1 # 2)).
  { rewrite inject_Z_mult. change (inject_Z 2) with 2. lra. }
  assert (Hf : Qfloor ((1 # 2) * (inject_Z (2 * k) - 1)) = (k - 1)%Z).
  { apply Qfloor_unique; rewrite E; unfold Z.sub; rewrite inject_Z_plus, inject_Z_opp;
      change (inject_Z 1) with 1; lra. }
  split; [exact Hf|]. split.
  - unfold Qceiling.
    assert (Hc : Qfloor (- ((1 # 2) * (inject_Z (2 * k) - 1))) = (- k)%Z).
    { apply Qfloor_unique; rewrite E, inject_Z_opp; lra. }
    rewrite Hc. lia.
  - rewrite E. unfold Z.sub. rewrite inject_Z_plus, inject_Z_opp.
    change (inject_Z 1) with 1. lra.
Qed.

Lemma half_row_odd (k : Z) :
  let rn := (1 # 2) * (inject_Z (2 * k + 1) - 1) in
  Qfloor rn = k /\ Qceiling rn = k.
Proof.
  cbv zeta.
  assert (E : (1 # 2) * (inject_Z (2 * k + 1) - 1) == inject_Z k).
  { rewrite inject_Z_plus, inject_Z_mult. change (inject_Z 2) with 2.
    change (inject_Z 1) with 1. lra. }
  split.
  - rewrite (Qfloor_comp _ _ E). apply Qfloor_Z.
  - rewrite (Qceiling_comp _ _ E). apply Qceiling_Z.
Qed.

Lemma median_is_percentile (s : list numeric) :
  same_value (PERCENTILE_CONT (1 # 2) s) (pd_median s).
Proof.
  unfold PERCENTILE_CONT, pd_median.
  destruct (sort (non_null s)) as [|x xs]; [exact I|].
  set (l := x :: xs). unfold count.
  set (n := Z.of_nat (length l)).
  destruct (Z.even n) eqn:Heven.
  - apply Z.even_spec in Heven as [k Hk]. rewrite Hk.
    destruct (half_row_even k) as (-> & -> & Hc).
    replace (k - 1 =? k)%Z with false by (symmetry; apply Z.eqb_neq; lia).
    replace (2 * k / 2)%Z with k by (symmetry; rewrite Z.mul_comm; apply Z.div_mul; lia).
    cbn [same_value]. rewrite Hc. field.
  - assert (Hodd : Z.odd n = true) by (rewrite <- Z.negb_even, Heven; reflexivity).
    apply Z.odd_spec in Hodd as [k Hk]. rewrite Hk.
    destruct (half_row_odd k) as (-> & ->).
    rewrite Z.eqb_refl.
    replace ((2 * k + 1) / 2)%Z with k.
    2:{ symmetry. rewrite Z.mul_comm, Z.div_add_l by lia. change (1 / 2)%Z with 0%Z. lia. }
    cbn [same_value]. reflexivity.
Qed.

(** *** Row order *)

#[local] Instance descending_transitive : Transitive descending.
Proof. unfold descending. intros a b c H1 H2. lia. Qed.

#[local] Instance descending_antisymm : AntiSymm eq descending.
Proof. unfold descending. intros a b H1 H2. lia. Qed.

#[local] Instance descending_total : Total descending.
Proof. unfold descending. intros a b. lia. Qed.

#[local] Instance by_hits_descending_total : Total by_hits_descending.
Proof. unfold by_hits_descending. intros a b. lia. Qed.

(** Sorting the alternate path's rows by hits, descending, lists the groups
    in the same order as [ORDER BY hits DESC]. *)
Lemma alt_rows_in_descending_order (root : Q -> Q) (jd : list joined) (keys : list Z) :
  merge_sort by_hits_descending (map (alt_row root jd) (merge_sort ascending keys))
  = map (alt_row root jd) (merge_sort descending keys).
Proof.
  set (rows := map (alt_row root jd) (merge_sort ascending keys)).
  set (sorted := merge_sort by_hits_descending rows).
  assert (Hperm : Permutation sorted rows) by apply merge_sort_Permutation.
  assert (Hkeys : map r_hits sorted = merge_sort descending keys).
  { apply (Sorted_unique descending).
    - apply (Sorted_fmap r_hits by_hits_descending descending).
      + intros x y H. exact H.
      + apply Sorted_merge_sort. apply _.
    - apply Sorted_merge_sort. apply _.
    - rewrite (Permutation_map r_hits Hperm). unfold rows.
      rewrite List.map_map. cbn [alt_row r_hits]. rewrite List.map_id.
      rewrite !merge_sort_Permutation. reflexivity. }
  rewrite <- Hkeys, List.map_map.
  rewrite <- (List.map_id sorted) at 1.
  apply List.map_ext_in. intros a Ha.
  apply (Permutation_in _ Hperm) in Ha. unfold rows in Ha.
  apply List.in_map_iff in Ha as (k & <- & _). reflexivity.
Qed.

(** *** One group *)

Lemma non_null_length (s : list numeric) : (length (non_null s) <= length s)%nat.
Proof. induction s as [|[x|] s IH]; cbn [non_null length]; lia. Qed.

Lemma group_nonempty (k : Z) (jd : list joined) :
  In k (map fst jd) -> (1 <= length (group_of k jd))%nat.
Proof.
  unfold group_of. rewrite length_map.
  induction jd as [|[h r] jd IH]; cbn [map In List.filter fst]; [tauto|].
  intros [-> | Hin].
  - rewrite Z.eqb_refl. cbn [length]. lia.
  - destruct (h =? k)%Z; cbn [length]; [lia | now apply IH].
Qed.

Lemma count_gt_same (c : Q) (s : list numeric) : COUNT_FILTER_GT c s = pd_count_gt c s.
Proof.
  unfold COUNT_FILTER_GT, pd_count_gt. do 3 f_equal.
  apply List.filter_ext. intros [x|]; [|reflexivity].
  unfold sql_gt, sql_lt, lit, holds. now destruct (Qlt_bool c x).
Qed.

Lemma rounded_same (a b : numeric) :
  same_value a b -> (forall v, a = Some v -> is_tie v = false) -> ROUND1 a = round1 b.
Proof.
  destruct a as [x|], b as [y|]; cbn [same_value]; try tauto.
  intros Heq Htie. apply rounding_agrees_up_to_eq; [assumption | now apply Htie].
Qed.

Lemma same_value_refl (a : numeric) : same_value a a.
Proof. destruct a; cbn; [reflexivity | exact I]. Qed.

Lemma rate_same (c : Q) (s : list numeric) :
  same_value (Some (COUNT_FILTER_GT c s * 100 / COUNT_STAR s))
             (Some (pd_count_gt c s / pd_len s * 100)).
Proof.
  rewrite count_gt_same. unfold COUNT_STAR, pd_len. cbn [same_value].
  unfold Qdiv. ring.
Qed.

Lemma row_agrees (root : Q -> Q) (jd : list joined) (k : Z) :
  In k (map fst jd) -> no_ties root jd -> agree (sql_row root jd k) (alt_row root jd k).
Proof.
  intros Hk Hties. specialize (Hties k).
  pose proof (group_nonempty k jd Hk) as Hlen.
  unfold agree, sql_row, alt_row. cbn [r_hits r_count r_mean r_median r_win r_double r_min r_max r_std].
  set (g := group_of k jd) in *.
  assert (Hin : forall a v, In a (exact_statistics root g) -> a = Some v -> is_tie v = false).
  { intros a v Ha ->. now apply Hties. }
  unfold exact_statistics in Hin. cbn [In] in Hin.
  do 2 (split; [reflexivity|]).
  split; [apply rounded_same; [apply same_value_refl | intros v; apply Hin; tauto]|].
  split; [apply rounded_same; [apply median_is_percentile | intros v; apply Hin; tauto]|].
  split; [apply rounded_same; [apply rate_same | intros v; apply Hin; tauto]|].
  split; [apply rounded_same; [apply rate_same | intros v; apply Hin; tauto]|].
  split; [apply rounded_same; [apply same_value_refl | intros v; apply Hin; tauto]|].
  split; [apply rounded_same; [apply same_value_refl | intros v; apply Hin; tauto]|].
  destruct (Z.of_nat (length g) =? 1)%Z eqn:Hone.
  - apply Z.eqb_eq in Hone.
    assert (Hg : length g = 1%nat) by lia.
    pose proof (non_null_length g) as Hnn.
    unfold STDDEV. rewrite Hg.
    replace (length (non_null g) <? 2)%nat with true
      by (symmetry; apply Nat.ltb_lt; lia).
    split; reflexivity.
  - apply Z.eqb_neq in Hone.
    replace (1 <? length g)%nat with true by (symmetry; apply Nat.ltb_lt; lia).
    apply rounded_same; [apply same_value_refl | intros v; apply Hin; tauto].
Qed.

Lemma Forall2_map_same {A B} (P : B -> B -> Prop) (f h : A -> B) (l : list A) :
  (forall k, In k l -> P (f k) (h k)) -> Forall2 P (map f l) (map h l).
Proof.
  induction l as [|a l IH]; intros H; cbn [map]; constructor.
  - apply H. now left.
  - apply IH. intros k Hk. apply H. now right.
Qed.

(** C3 (as the code has it). When no unrounded statistic lies exactly halfway
    between two one-decimal values, the alternate path returns the same rows
    in the same order as the SQL aggregation, with the same stock count,
    mean, median, win rate, doubling rate, minimum and maximum, and the same
    standard deviation for every group of two or more stocks; for a group of
    one stock the SQL standard deviation is NULL and the alternate path
    writes 0. *)
Theorem alternate_path_agrees_except_single_stock_std (root : Q -> Q) (jd : list joined) :
  no_ties root jd ->
  Forall2 agree (fetch_prob_data root jd) (fetch_prob_data_alt root jd).
Proof.
  intros Hties. unfold fetch_prob_data, fetch_prob_data_alt.
  destruct jd as [|r jd']; [constructor|].
  set (jd := r :: jd') in *.
  rewrite alt_rows_in_descending_order.
  apply Forall2_map_same. intros k Hk.
  apply row_agrees; [|assumption].
  apply list_elem_of_In in Hk. rewrite merge_sort_Permutation in Hk.
  unfold hit_values in Hk. rewrite elem_of_remove_dups in Hk.
  now apply list_elem_of_In.
Qed.

Lemma three_stocks_no_ties : no_ties (fun x => x) three_stocks.
Proof.
  intros k v Hk Hv. cbn in Hk.
  destruct Hk as [<- | [<- | [<- | []]]]; vm_compute in Hv;
    repeat (destruct Hv as [Hv | Hv]; [try discriminate Hv; injection Hv as <-; reflexivity|]);
    destruct Hv.
Qed.

Lemma alternate_path_agrees_except_single_stock_std_witness :
  no_ties (fun x => x) three_stocks /\
  Forall2 agree (fetch_prob_data (fun x => x) three_stocks)
                (fetch_prob_data_alt (fun x => x) three_stocks).
Proof.
  split; [exact three_stocks_no_ties|].
  exact (alternate_path_agrees_except_single_stock_std (fun x => x) three_stocks
           three_stocks_no_ties).
Defined.

(** C3 as stated fails: for a single stock with three hits the SQL table has
    a NULL standard deviation and the alternate table has 0. *)
Lemma alternate_path_differs_on_single_stock :
  (forall root, map r_std (fetch_prob_data root one_stock) = [None]) /\
  (forall root, map r_std (fetch_prob_data_alt root one_stock) = [Some 0%Z]) /\
  ~ (forall root jd, fetch_prob_data_alt root jd = fetch_prob_data root jd).
Proof.
  assert (H1 : forall root, map r_std (fetch_prob_data root one_stock) = [None])
    by (intros root; reflexivity).
  assert (H2 : forall root, map r_std (fetch_prob_data_alt root one_stock) = [Some 0%Z])
    by (intros root; reflexivity).
  split; [exact H1|]. split; [exact H2|].
  intros Hall. specialize (Hall (fun x => x) one_stock).
  apply (f_equal (map r_std)) in Hall. rewrite H1, H2 in Hall. discriminate Hall.
Qed.

(** * Part II, continued: properties of the further code *)

(** ** [quote_plus]: alphabet and round trip *)

Import Form.

Lemma replace_space_app (s t : string) :
  replace_space (s +:+ t) = replace_space s +:+ replace_space t.
Proof.
  induction s as [|c s IH]; [reflexivity|].
  rewrite string_app_cons. cbn [replace_space]. now rewrite IH.
Qed.

Lemma plus_to_space_app (s t : string) :
  plus_to_space (s +:+ t) = plus_to_space s +:+ plus_to_space t.
Proof.
  induction s as [|c s IH]; [reflexivity|].
  rewrite string_app_cons. cbn [plus_to_space]. now rewrite IH.
Qed.

Lemma hex_digit_plain (n : nat) :
  (n < 16)%nat ->
  Ascii.eqb (hex_digit n) " " = false /\ Ascii.eqb (hex_digit n) "+" = false.
Proof. intros Hn. do 16 (destruct n as [|n]; [split; reflexivity|]). lia. Qed.

Lemma percent_plain (c : ascii) :
  replace_space (percent c) = percent c /\ plus_to_space (percent c) = percent c.
Proof.
  pose proof (nat_ascii_bounded c) as Hc.
  destruct (hex_digit_plain (nat_of_ascii c / 16)) as [H1 H2];
    [apply Nat.Div0.div_lt_upper_bound; lia|].
  destruct (hex_digit_plain (nat_of_ascii c mod 16)) as [H3 H4];
    [apply Nat.mod_upper_bound; lia|].
  unfold percent. cbn [replace_space plus_to_space].
  rewrite H1, H2, H3, H4. split; reflexivity.
Qed.

Lemma always_safe_plain (c : ascii) :
  always_safe c = true ->
  Ascii.eqb c " " = false /\ Ascii.eqb c "+" = false /\ Ascii.eqb c "%" = false.
Proof.
  intros H.
  destruct (Ascii.eqb_spec c " ") as [-> | _]; [discriminate|].
  destruct (Ascii.eqb_spec c "+") as [-> | _]; [discriminate|].
  destruct (Ascii.eqb_spec c "%") as [-> | _]; [discriminate|].
  repeat split.
Qed.

(** Both branches of [quote_plus] write the same thing, byte by byte. *)
Lemma quote_plus_each_byte (s : string) : quote_plus s = each_byte plus_byte s.
Proof.
  unfold quote_plus.
  assert (Hspace : replace_space (quote_from_bytes " " s) = each_byte plus_byte s).
  { induction s as [|c s IH]; [reflexivity|].
    cbn [quote_from_bytes each_byte]. rewrite replace_space_app, IH. f_equal.
    unfold plus_byte. cbn [mem]. rewrite orb_false_r.
    destruct (Ascii.eqb_spec c " ") as [-> | Hne]; [reflexivity|].
    destruct (always_safe c) eqn:Hs; cbn [orb].
    - cbn [replace_space]. destruct (Ascii.eqb_spec c " "); [contradiction | reflexivity].
    - apply percent_plain. }
  destruct (mem " " s) eqn:Hmem; [exact Hspace|].
  clear Hspace. induction s as [|c s IH]; [reflexivity|].
  cbn [mem] in Hmem. apply orb_false_elim in Hmem as [Hc Hs].
  cbn [quote_from_bytes each_byte]. rewrite (IH Hs). f_equal.
  unfold plus_byte. cbn [mem]. rewrite orb_false_r.
  rewrite Ascii.eqb_sym in Hc. now rewrite Hc.
Qed.

(** X1. Decoding a password encoded by [quote_plus] gives the password back,
    so two different passwords never get the same encoded form. *)
Theorem quote_plus_round_trip (s t : string) :
  unquote_plus (quote_plus s) = s /\ (quote_plus s = quote_plus t -> s = t).
Proof.
  assert (H : forall u, unquote_plus (quote_plus u) = u).
  { intros u. rewrite quote_plus_each_byte. unfold unquote_plus.
    induction u as [|c u IH]; [reflexivity|].
    cbn [each_byte]. rewrite plus_to_space_app. unfold plus_byte at 1.
    destruct (Ascii.eqb_spec c " ") as [-> | Hne].
    - change (unquote (String " " (plus_to_space (each_byte plus_byte u))) = String " " u).
      cbn [unquote]. change (Ascii.eqb " " "%") with false. cbn iota. now rewrite IH.
    - destruct (always_safe c) eqn:Hs.
      + destruct (always_safe_plain c Hs) as (_ & Hplus & Hpct).
        cbn [plus_to_space]. rewrite Hplus.
        change (unquote (String c (plus_to_space (each_byte plus_byte u))) = String c u).
        cbn [unquote]. rewrite Hpct. now rewrite IH.
      + rewrite (proj2 (percent_plain c)), unquote_percent. now rewrite IH. }
  split; [apply H|].
  intros Heq. rewrite <- (H s), <- (H t). now rewrite Heq.
Qed.

Lemma quote_plus_round_trip_witness :
  unquote_plus "p%40ss+word%2B" = "p@ss word+" /\ "p@ss word+" = "p@ss word+".
Proof.
  split.
  - exact (proj1 (quote_plus_round_trip "p@ss word+" "")).
  - exact (proj2 (quote_plus_round_trip "p@ss word+" "p@ss word+") eq_refl).
Defined.

Lemma mem_plus_byte (c d : ascii) :
  mem d (plus_byte c) = true -> always_safe d = true \/ d = "+"%char \/ d = "%"%char.
Proof.
  unfold plus_byte.
  destruct (Ascii.eqb c " ").
  { cbn [mem]. rewrite orb_false_r. intros H. apply Ascii.eqb_eq in H. now right; left. }
  destruct (always_safe c) eqn:Hs.
  { cbn [mem]. rewrite orb_false_r. intros H. apply Ascii.eqb_eq in H. subst d. now left. }
  pose proof (nat_ascii_bounded c) as Hc.
  unfold percent. cbn [mem]. rewrite orb_false_r. intros H.
  apply orb_prop in H as [H | H]; [apply Ascii.eqb_eq in H; now right; right|].
  apply orb_prop in H as [H | H]; apply Ascii.eqb_eq in H; subst d; left; apply hex_digit_safe.
  - apply Nat.Div0.div_lt_upper_bound. lia.
  - apply Nat.mod_upper_bound. lia.
Qed.

(** X2. The encoded password consists of letters, digits, [_.-~], ['+'] and
    [%XX] escapes only: it never contains a separator of the connection
    string ([:], [@], [/], [?], [#]) or a space. *)
Theorem quote_plus_alphabet (s : string) (d : ascii) :
  mem d (quote_plus s) = true ->
  (always_safe d = true \/ d = "+"%char \/ d = "%"%char) /\ mem d ":@/?# " = false.
Proof.
  rewrite quote_plus_each_byte. intros H.
  assert (Hd : always_safe d = true \/ d = "+"%char \/ d = "%"%char).
  { induction s as [|c s IH]; [discriminate|].
    cbn [each_byte] in H. rewrite mem_app in H. apply orb_prop in H as [H | H].
    - now apply (mem_plus_byte c).
    - now apply IH. }
  split; [exact Hd|].
  destruct Hd as [Hs | [-> | ->]]; try reflexivity.
  cbn [mem]. rewrite orb_false_r.
  repeat match goal with
  | |- context [Ascii.eqb d ?x] =>
      destruct (Ascii.eqb_spec d x) as [-> | _]; [discriminate Hs|]
  end.
  reflexivity.
Qed.

Lemma quote_plus_alphabet_witness :
  mem "4" (quote_plus "p@ss word+") = true /\ mem "4" ":@/?# " = false.
Proof.
  assert (H : mem "4" (quote_plus "p@ss word+") = true) by reflexivity.
  split; [exact H|].
  exact (proj2 (quote_plus_alphabet "p@ss word+" "4" H)).
Defined.

Lemma string_length_percent (c : ascii) : String.length (percent c) = 3%nat.
Proof. reflexivity. Qed.

(** X3. [quote] never shortens a text and at most triples it; a text made of
    unreserved bytes and ['/'] only is left unchanged. *)
Theorem quote_length_and_fixed_points (s : string) :
  (String.length s <= String.length (quote s) <= 3 * String.length s)%nat /\
  (all_bytes (fun c => always_safe c || Ascii.eqb c "/") s = true -> quote s = s).
Proof.
  unfold quote. split.
  - induction s as [|c s IH]; [cbn; lia|].
    cbn [quote_from_bytes]. rewrite string_length_app. cbn [String.length].
    destruct (always_safe c || mem c "/"); [cbn [String.length] | rewrite string_length_percent]; lia.
  - induction s as [|c s IH]; [reflexivity|].
    cbn [all_bytes quote_from_bytes mem]. rewrite orb_false_r.
    intros H. apply andb_prop in H as [Hc Hs]. rewrite Hc, (IH Hs). reflexivity.
Qed.

Lemma quote_length_and_fixed_points_witness :
  all_bytes (fun c => always_safe c || Ascii.eqb c "/") "a/b-c_d.e" = true /\
  quote "a/b-c_d.e" = "a/b-c_d.e".
Proof.
  assert (H : all_bytes (fun c => always_safe c || Ascii.eqb c "/") "a/b-c_d.e" = true)
    by reflexivity.
  split; [exact H|].
  exact (proj2 (quote_length_and_fixed_points "a/b-c_d.e") H).
Defined.

(** ** [get_engine]: the successful path *)



(** ** The other report-month windows *)

Import Windows.

Lemma like_year_prefix (my y m : Z) :
  (100 <= my <= 999)%Z -> (100 <= y <= 999)%Z -> (1 <= m <= 12)%Z ->
  like (pretty my +:+ "_%") (encode y m) = (y =? my)%Z.
Proof.
  intros Hmy Hy Hm. unfold encode.
  destruct (pretty_three_digits my Hmy) as [Llen Llit].
  destruct (pretty_three_digits y Hy) as [Ylen _].
  destruct (Z.eq_dec y my) as [-> | Hne].
  - rewrite like_app_literal_same by assumption. rewrite Z.eqb_refl.
    apply month_cases in Hm. cbn [In] in Hm.
    repeat (destruct Hm as [<- | Hm]; [reflexivity|]). destruct Hm.
  - rewrite like_app_literal_ne; try assumption; try congruence.
    + symmetry. now apply Z.eqb_neq.
    + now apply not_eq_sym, pretty_ne.
Qed.

Lemma eqb_december (p y m : Z) :
  (100 <= p <= 999)%Z -> (100 <= y <= 999)%Z -> (1 <= m <= 12)%Z ->
  String.eqb (encode y m) (pretty p +:+ "_12") = (y =? p)%Z && (m =? 12)%Z.
Proof.
  intros Hp Hy Hm. unfold encode.
  destruct (pretty_three_digits p Hp) as [Plen _].
  destruct (pretty_three_digits y Hy) as [Ylen _].
  destruct (Z.eq_dec y p) as [-> | Hne].
  - rewrite string_eqb_app_same, Z.eqb_refl.
    apply month_cases in Hm. cbn [In] in Hm.
    repeat (destruct Hm as [<- | Hm]; [reflexivity|]). destruct Hm.
  - rewrite string_eqb_app_ne; [| congruence | now apply pretty_ne].
    symmetry. apply andb_false_intro1. now apply Z.eqb_neq.
Qed.

Lemma like_december (p y m : Z) :
  (100 <= p <= 999)%Z -> (100 <= y <= 999)%Z -> (1 <= m <= 12)%Z ->
  like (pretty p +:+ "_12") (encode y m) = (y =? p)%Z && (m =? 12)%Z.
Proof.
  intros Hp Hy Hm. unfold encode.
  destruct (pretty_three_digits p Hp) as [Plen Plit].
  destruct (pretty_three_digits y Hy) as [Ylen _].
  destruct (Z.eq_dec y p) as [-> | Hne].
  - rewrite like_app_literal_same by assumption. rewrite Z.eqb_refl.
    apply month_cases in Hm. cbn [In] in Hm.
    repeat (destruct Hm as [<- | Hm]; [reflexivity|]). destruct Hm.
  - rewrite like_app_literal_ne; try assumption; try congruence.
    + symmetry. apply andb_false_intro1. now apply Z.eqb_neq.
    + now apply not_eq_sym, pretty_ne.
Qed.

Lemma ltb_december (my m : Z) :
  (1 <= m <= 12)%Z ->
  String.ltb (encode my m) (pretty my +:+ "_12") = negb (m =? 12)%Z.
Proof.
  intros Hm. unfold encode, String.ltb. rewrite string_compare_app_same.
  apply month_cases in Hm. cbn [In] in Hm.
  repeat (destruct Hm as [<- | Hm]; [reflexivity|]). destruct Hm.
Qed.

Lemma app_window_encoded (year y m : Z) :
  (100 < minguo_year year <= 999)%Z -> (100 <= y <= 999)%Z -> (1 <= m <= 12)%Z ->
  app_window year (encode y m)
  = (y =? prev_minguo_year year)%Z && (m =? 12)%Z
    || (y =? minguo_year year)%Z && negb (m =? 12)%Z.
Proof.
  intros Hyear Hy Hm. unfold app_window.
  rewrite eqb_december by (unfold prev_minguo_year; lia).
  rewrite like_year_prefix by lia.
  destruct (Z.eqb_spec y (minguo_year year)) as [-> | Hne]; [|reflexivity].
  rewrite ltb_december by assumption.
  destruct (pretty_three_digits (minguo_year year)) as [Llen _]; [lia|].
  unfold encode. rewrite !string_length_app, Llen.
  apply month_cases in Hm. cbn [In] in Hm.
  repeat (destruct Hm as [<- | Hm]; [reflexivity|]). destruct Hm.
Qed.

(** X5. On an encoded month the window of app.py's detail query (written
    without the length test and without parentheses around the AND) accepts
    exactly the months the heatmap query accepts. *)
Theorem app_detail_window_same_months (year y m : Z) :
  (100 < minguo_year year <= 999)%Z -> (100 <= y <= 999)%Z -> (1 <= m <= 12)%Z ->
  app_detail_window year (encode y m) = app_window year (encode y m) /\
  (app_detail_window year (encode y m) = true <-> In (y, m) (window_months year)).
Proof.
  intros Hyear Hy Hm.
  assert (E : app_detail_window year (encode y m)
              = (y =? prev_minguo_year year)%Z && (m =? 12)%Z
                || (y =? minguo_year year)%Z && negb (m =? 12)%Z).
  { unfold app_detail_window.
    rewrite eqb_december by (unfold prev_minguo_year; lia).
    rewrite like_year_prefix by lia.
    destruct (Z.eqb_spec y (minguo_year year)) as [-> | Hne].
    - rewrite ltb_december by assumption. apply orb_comm.
    - apply orb_comm. }
  split; [now rewrite E, app_window_encoded|].
  rewrite E, window_months_spec by assumption.
  rewrite orb_true_iff, !andb_true_iff, negb_true_iff, !Z.eqb_eq, Z.eqb_neq. lia.
Qed.

Lemma app_detail_window_same_months_witness :
  app_detail_window 2024 "112_12" = app_window 2024 "112_12" /\
  (app_detail_window 2024 "112_12" = true <-> In (112, 12)%Z (window_months 2024)).
Proof.
  assert (H1 : (100 < minguo_year 2024 <= 999)%Z) by (unfold minguo_year; lia).
  exact (app_detail_window_same_months 2024 112 12 H1 ltac:(lia) ltac:(lia)).
Defined.

(** X6. The join of the probability page's detail query has no upper bound
    on the month: on encoded months it accepts the twelve months of the
    window and also December of the analysis year, thirteen months in all. *)
Theorem prob_detail_window_thirteen_months (year y m : Z) :
  (100 < minguo_year year <= 999)%Z -> (100 <= y <= 999)%Z -> (1 <= m <= 12)%Z ->
  prob_detail_window year (encode y m) = true <->
  In (y, m) (window_months year) \/ (y = minguo_year year /\ m = 12%Z).
Proof.
  intros Hyear Hy Hm. unfold prob_detail_window.
  rewrite eqb_december by (unfold prev_minguo_year; lia).
  rewrite like_year_prefix by lia.
  rewrite window_months_spec by assumption.
  rewrite orb_true_iff, !andb_true_iff, !Z.eqb_eq. lia.
Qed.

Lemma prob_detail_window_thirteen_months_witness :
  prob_detail_window 2024 "113_12" = true /\ prob_window 2024 "113_12" = false.
Proof.
  assert (H1 : (100 < minguo_year 2024 <= 999)%Z) by (unfold minguo_year; lia).
  split; [|reflexivity].
  apply (prob_detail_window_thirteen_months 2024 113 12 H1 ltac:(lia) ltac:(lia)).
  right. split; reflexivity.
Defined.

(** X7. On encoded months the timing page reads the previous December and
    all twelve months of the analysis year (its second LIKE has no wildcard
    that matters), and looks for events in the twelve months of the analysis
    year only. *)
Theorem timing_windows_on_encoded_months (year y m : Z) :
  (100 < minguo_year year <= 999)%Z -> (100 <= y <= 999)%Z -> (1 <= m <= 12)%Z ->
  (timing_raw_window year (encode y m) = true <->
     y = minguo_year year \/ (y = prev_minguo_year year /\ m = 12%Z)) /\
  (timing_event_window year (encode y m) = true <-> y = minguo_year year).
Proof.
  intros Hyear Hy Hm. unfold timing_raw_window, timing_event_window.
  rewrite like_december by lia. rewrite like_year_prefix by lia.
  unfold prev_minguo_year.
  rewrite orb_true_iff, !andb_true_iff, !Z.eqb_eq. lia.
Qed.

Lemma timing_windows_on_encoded_months_witness :
  timing_raw_window 2024 "112_12" = true /\ timing_event_window 2024 "112_12" = false.
Proof.
  assert (H1 : (100 < minguo_year 2024 <= 999)%Z) by (unfold minguo_year; lia).
  destruct (timing_windows_on_encoded_months 2024 112 12 H1 ltac:(lia) ltac:(lia)) as [Hraw _].
  split; [|reflexivity].
  apply Hraw. right. split; reflexivity.
Defined.

(** ** Decimal numerals *)

Import Numeral.

Lemma digit_of_pretty_char (r : N) :
  (r < 10)%N -> digit_of (pretty_N_char r) = Some (Z.of_N r).
Proof.
  intros Hr.
  assert (H : In r [0; 1; 2; 3; 4; 5; 6; 7; 8; 9]%N) by (cbn [In]; lia).
  cbn [In] in H.
  repeat (destruct H as [<- | H]; [reflexivity|]). destruct H.
Qed.

(** Reading the digits [pretty_N_go] writes in front of a text. *)
Lemma digits_value_pretty_go (x : N) :
  exists k : Z, forall (s : string) (acc : Z),
    digits_value acc (pretty_N_go x s) = digits_value (acc * k + Z.of_N x) s.
Proof.
  induction (N.lt_wf_0 x) as [x _ IH].
  destruct (N.eq_dec x 0%N) as [-> | Hx].
  - exists 1%Z. intros s acc. rewrite pretty_N_go_0. f_equal. lia.
  - destruct (IH (x / 10)%N) as [k Hk]; [apply N.div_lt; lia|].
    exists (10 * k)%Z. intros s acc.
    rewrite pretty_N_go_step by lia. rewrite Hk. cbn [digits_value].
    rewrite digit_of_pretty_char by (apply N.mod_lt; lia).
    f_equal. rewrite (N.div_mod x 10) at 3 by lia.
    rewrite N2Z.inj_add, N2Z.inj_mul. change (Z.of_N 10) with 10%Z. lia.
Qed.

Lemma pretty_go_nonempty (x : N) (s : string) :
  s <> "" -> pretty_N_go x s <> "".
Proof.
  revert s. induction (N.lt_wf_0 x) as [x _ IH]. intros s Hs.
  destruct (N.eq_dec x 0%N) as [-> | Hx]; [now rewrite pretty_N_go_0|].
  rewrite pretty_N_go_step by lia. apply IH; [apply N.div_lt; lia | discriminate].
Qed.

Lemma int_pretty (n : Z) : (0 <= n)%Z -> int (pretty n) = Some n.
Proof.
  intros Hn. destruct n as [|p|p]; [reflexivity | | lia].
  change (pretty (Z.pos p)) with (pretty (N.pos p)).
  unfold pretty, pretty_N. rewrite decide_False by discriminate.
  assert (Hne : pretty_N_go (N.pos p) "" <> "").
  { rewrite pretty_N_go_step by lia. apply pretty_go_nonempty. discriminate. }
  unfold int. destruct (pretty_N_go (N.pos p) "") eqn:E; [contradiction|].
  rewrite <- E. destruct (digits_value_pretty_go (N.pos p)) as [k Hk].
  rewrite Hk. cbn [digits_value]. f_equal.
Qed.

(** X8. Reading back a printed non-negative integer gives the integer; and
    every year the select box offers is read as a year from 2020 to 2025,
    whose offset from 1911 has three digits (109 to 114). *)
Theorem int_of_printed_year (n : Z) (s : string) :
  ((0 <= n)%Z -> int (pretty n) = Some n) /\
  (In s year_options ->
     exists y, int s = Some y /\ (2020 <= y <= 2025)%Z /\
               (109 <= ReportMonth.minguo_year y <= 114)%Z).
Proof.
  split; [apply int_pretty|].
  unfold year_options. intros H. apply List.in_map_iff in H as (y & <- & Hy).
  exists y. cbn [In] in Hy. split; [apply int_pretty; lia|].
  unfold ReportMonth.minguo_year. lia.
Qed.

Lemma int_of_printed_year_witness :
  int (pretty 2024%Z) = Some 2024%Z /\
  exists y, int "2024" = Some y /\ (109 <= ReportMonth.minguo_year y <= 114)%Z.
Proof.
  destruct (int_of_printed_year 2024 "2024") as [H1 H2].
  split; [apply H1; lia|].
  destruct H2 as (y & Hy & _ & Hm).
  - unfold year_options. cbn. tauto.
  - exists y. split; assumption.
Defined.

(** ** The announcement date of the timing page *)

Lemma take_app_length (p r : string) : take (String.length p) (p +:+ r) = p.
Proof.
  induction p as [|c p IH]; [destruct r; reflexivity|].
  rewrite string_app_cons. cbn [String.length take]. now rewrite IH.
Qed.

Lemma drop_app_length (p r : string) : drop (String.length p) (p +:+ r) = r.
Proof.
  induction p as [|c p IH]; [reflexivity|].
  rewrite string_app_cons. cbn [String.length drop]. exact IH.
Qed.

Lemma pad2_length (m : Z) : (1 <= m <= 12)%Z -> String.length (pad2 m) = 2%nat.
Proof.
  intros Hm. apply month_cases in Hm. cbn [In] in Hm.
  repeat (destruct Hm as [<- | Hm]; [reflexivity|]). destruct Hm.
Qed.

Lemma drop_plus (a b : nat) (s : string) : drop (a + b) s = drop b (drop a s).
Proof.
  revert s. induction a as [|a IH]; intros s; [reflexivity|].
  destruct s as [|c s]; cbn [Nat.add drop]; [now destruct b | apply IH].
Qed.

Lemma encoded_parts (y m : Z) :
  (100 <= y <= 999)%Z -> (1 <= m <= 12)%Z ->
  LEFT (encode y m) 3 = pretty y /\ RIGHT (encode y m) 2 = pad2 m.
Proof.
  intros Hy Hm. destruct (pretty_three_digits y Hy) as [Ylen _].
  unfold LEFT, RIGHT, encode. split.
  - rewrite <- Ylen. apply take_app_length.
  - rewrite !string_length_app, (pad2_length m Hm).
    replace (String.length (pretty y) + (String.length "_" + 2) - 2)%nat
      with (String.length (pretty y) + 1)%nat by (cbn [String.length]; lia).
    rewrite drop_plus, drop_app_length. reflexivity.
Qed.

(** X9. For an encoded report month the timing page's announcement date is
    the tenth of the following calendar month: the month part is the next
    month, padded to two digits, and December rolls over to January of the
    next year. *)
Theorem base_date_is_tenth_of_next_month (y m : Z) :
  (100 <= y <= 999)%Z -> (1 <= m <= 12)%Z ->
  base_date_text (encode y m) = Some (tenth_of_next_month y m).
Proof.
  intros Hy Hm. unfold base_date_text, tenth_of_next_month.
  destruct (encoded_parts y m Hy Hm) as [-> ->].
  rewrite int_pretty by lia.
  apply month_cases in Hm. cbn [In] in Hm.
  repeat (destruct Hm as [<- | Hm]; [reflexivity|]).
  destruct Hm as [<- | []].
  change (Some (pretty (y + 1 + 1911)%Z +:+ "-01-10")
          = Some (pretty (y + 1912)%Z +:+ "-01-10")).
  do 3 f_equal. lia.
Qed.

Lemma base_date_is_tenth_of_next_month_witness :
  base_date_text "113_12" = Some "2025-01-10" /\ base_date_text "113_09" = Some "2024-10-10".
Proof.
  split.
  - exact (base_date_is_tenth_of_next_month 113 12 ltac:(lia) ltac:(lia)).
  - exact (base_date_is_tenth_of_next_month 113 9 ltac:(lia) ltac:(lia)).
Defined.

(** ** Buckets: the markers the prompt reads, missing and zero prices *)

Import Prompt.

Lemma close_markers (r : Q) :
  contains "下跌" (CloseBins.return_bin (Some r)) = Qlt_bool r 0 /\
  contains "上漲" (CloseBins.return_bin (Some r)) = negb (Qlt_bool r 0).
Proof.
  unfold CloseBins.return_bin. cbn [sql_case sql_le sql_lt lit].
  destruct (Qlt_bool_reflect r 0) as [Hneg | Hpos].
  - repeat ladder_step; (split; reflexivity) || (exfalso; lra).
  - repeat ladder_step; (split; reflexivity) || (exfalso; lra).
Qed.

Lemma close_label_one_marker (l : string) :
  In l CloseBins.labels ->
  contains "上漲" l = negb (contains "下跌" l).
Proof.
  intros Hin. cbn [In CloseBins.labels] in Hin.
  repeat (destruct Hin as [<- | Hin]; [reflexivity|]). destruct Hin.
Qed.

Lemma totals_split (stat_summary : list summary_row) :
  Forall (fun row => In (s_return_bin row) CloseBins.labels) stat_summary ->
  (total_falling_stocks stat_summary + total_rising_stocks stat_summary
   = sum_counts stat_summary)%Z.
Proof.
  unfold total_falling_stocks, total_rising_stocks, sum_counts.
  induction 1 as [| row rest Hrow _ IH]; [reflexivity|].
  cbn [List.filter]. unfold is_rising at 1, is_falling at 1.
  rewrite (close_label_one_marker _ Hrow).
  destruct (contains "下跌" (s_return_bin row)); cbn [negb map fold_right]; lia.
Qed.

(** X10. The prompt of the main page tells falling from rising bins by the
    words in the label: the label of a return carries the falling marker
    exactly when the return is negative and the rising marker exactly when it
    is not; so on a summary whose labels come from the 22-label table the two
    totals of the prompt add up to the whole. *)
Theorem prompt_markers_follow_sign (stat_summary : list summary_row) :
  Forall (fun row => In (s_return_bin row) CloseBins.labels) stat_summary ->
  (forall r : Q,
     contains "下跌" (CloseBins.return_bin (Some r)) = Qlt_bool r 0 /\
     contains "上漲" (CloseBins.return_bin (Some r)) = negb (Qlt_bool r 0)) /\
  (total_falling_stocks stat_summary + total_rising_stocks stat_summary
   = sum_counts stat_summary)%Z.
Proof.
  intros Hlab. split; [apply close_markers | now apply totals_split].
Qed.

Lemma prompt_markers_follow_sign_witness :
  let summary := [ {| s_return_bin := "09. 下跌-20%至-10%"; s_stock_count := 40 |};
                   {| s_return_bin := "11. 上漲0-100%"; s_stock_count := 70 |} ] in
  total_falling_stocks summary = 40%Z /\ total_rising_stocks summary = 70%Z /\
  (total_falling_stocks summary + total_rising_stocks summary = sum_counts summary)%Z.
Proof.
  cbv zeta. split; [reflexivity|]. split; [reflexivity|].
  apply prompt_markers_follow_sign.
  repeat constructor; cbn; tauto.
Defined.

(** *** Missing and zero prices in the close-price query *)

Lemma eval_missing_price (k : annual_k) :
  year_close k = None \/ year_open k = None ->
  eval_row (annual_row k) App.annual_return = Answer None.
Proof.
  intros H. unfold App.annual_return. cbn [eval_row].
  change (annual_row k "year_close") with (Some (year_close k)).
  change (annual_row k "year_open") with (Some (year_open k)).
  destruct H as [-> | ->]; [destruct (year_open k) | destruct (year_close k)]; reflexivity.
Qed.

(** X11. A record of [stock_annual_k] with no closing or no opening price is
    not dropped by the main page's query: its return is NULL, every WHEN of
    the CASE is unknown, and the row is binned under the ELSE label
    ['21. 上漲1000%以上'] with order 21, which the prompt counts as rising. *)
Theorem missing_price_lands_in_top_bin (k : annual_k) :
  year_close k = None \/ year_open k = None ->
  select_binned App.annual_return CloseBins.return_bin CloseBins.bin_order k
  = Answer {| b_symbol := symbol k; b_return := None;
              b_return_bin := "21. 上漲1000%以上"; b_bin_order := 21 |} /\
  contains "上漲" (CloseBins.return_bin None) = true /\
  contains "下跌" (CloseBins.return_bin None) = false.
Proof.
  intros H. unfold select_binned. rewrite (eval_missing_price k H).
  repeat split.
Qed.

Lemma missing_price_lands_in_top_bin_witness :
  year_close no_close_record = None /\
  select_binned App.annual_return CloseBins.return_bin CloseBins.bin_order no_close_record
  = Answer {| b_symbol := "5678.TW"; b_return := None;
              b_return_bin := "21. 上漲1000%以上"; b_bin_order := 21 |}.
Proof.
  split; [reflexivity|].
  exact (proj1 (missing_price_lands_in_top_bin no_close_record (or_introl eq_refl))).
Defined.

Lemma eval_app_return_cases (k : annual_k) :
  (exists c o, year_close k = Some c /\ year_open k = Some o /\ o == 0 /\
     eval_row (annual_row k) App.annual_return = Raised division_by_zero) \/
  (~ (exists c o, year_close k = Some c /\ year_open k = Some o /\ o == 0) /\
   exists r, eval_row (annual_row k) App.annual_return = Answer r).
Proof.
  unfold App.annual_return. cbn [eval_row].
  change (annual_row k "year_close") with (Some (year_close k)).
  change (annual_row k "year_open") with (Some (year_open k)).
  destruct (year_close k) as [c|], (year_open k) as [o|]; cbn [Sql.bind sql_sub sql_div].
  - destruct (Qeq_bool_reflect o 0) as [Hz | Hnz].
    + left. exists c, o. repeat split; assumption.
    + right. split.
      * intros (c' & o' & _ & Ho & Hz). injection Ho as <-. contradiction.
      * eexists. reflexivity.
  - right. split; [intros (c' & o' & _ & Ho & _); discriminate | eexists; reflexivity].
  - right. split; [intros (c' & o' & Hc & _); discriminate | eexists; reflexivity].
  - right. split; [intros (c' & o' & Hc & _); discriminate | eexists; reflexivity].
Qed.

Lemma select_app_cases (k : annual_k) :
  (exists c o, year_close k = Some c /\ year_open k = Some o /\ o == 0 /\
     select_binned App.annual_return CloseBins.return_bin CloseBins.bin_order k
     = Raised division_by_zero) \/
  (~ (exists c o, year_close k = Some c /\ year_open k = Some o /\ o == 0) /\
   exists b, select_binned App.annual_return CloseBins.return_bin CloseBins.bin_order k
             = Answer b).
Proof.
  unfold select_binned.
  destruct (eval_app_return_cases k) as [(c & o & Hc & Ho & Hz & ->) | (Hno & r & ->)].
  - left. exists c, o. repeat split; assumption.
  - right. split; [assumption | eexists; reflexivity].
Qed.

Lemma collect_app_bins (l : list annual_k) :
  (exists k c o, In k l /\ year_close k = Some c /\ year_open k = Some o /\ o == 0) /\
    collect (select_binned App.annual_return CloseBins.return_bin CloseBins.bin_order) l
    = Raised division_by_zero
  \/
  ~ (exists k c o, In k l /\ year_close k = Some c /\ year_open k = Some o /\ o == 0) /\
    exists rows,
      collect (select_binned App.annual_return CloseBins.return_bin CloseBins.bin_order) l
      = Answer rows /\ length rows = length l.
Proof.
  induction l as [| k rest IH].
  - right. split; [intros (k & _ & _ & [] & _) | exists []; split; reflexivity].
  - cbn [collect].
    destruct (select_app_cases k) as [(c & o & Hc & Ho & Hz & ->) | (Hno & b & ->)].
    + left. split; [|reflexivity]. exists k, c, o. cbn. tauto.
    + cbn [Sql.bind].
      destruct IH as [[(k' & c & o & Hin & Hrest) ->] | [Hnone (rows & -> & Hlen)]].
      * left. split; [|reflexivity]. exists k', c, o. cbn. tauto.
      * right. split.
        -- intros (k' & c & o & [<- | Hin] & Hc & Ho & Hz).
           ++ apply Hno. now exists c, o.
           ++ apply Hnone. now exists k', c, o.
        -- eexists. split; [reflexivity|]. cbn. now rewrite Hlen.
Qed.



(** *** The high-price query never divides by zero *)

Lemma collect_high_bins (l : list annual_k) :
  Forall (fun k => HighBins.complete_record k = true) l ->
  exists rows,
    collect (select_binned High.annual_max_return HighBins.return_bin HighBins.bin_order) l
    = Answer rows /\
    Forall2 (fun k b => b_symbol b = symbol k /\
               exists o h, year_open k = Some o /\ year_high k = Some h /\
                           b_return b = Some (spec_return h o) /\
                           In (b_return_bin b) HighBins.labels) l rows.
Proof.
  induction 1 as [| k rest Hk _ (rows & IH & Hall)].
  - exists []. split; [reflexivity | constructor].
  - destruct (complete_record_inv k Hk) as (o & h & Ho & Hh & Hpos).
    assert (Hev : eval_row (annual_row k) High.annual_max_return
                  = Answer (Some (spec_return h o))).
    { apply (eval_return_expr k "year_high"); [| assumption | lra].
      unfold annual_row. cbn. now rewrite Hh. }
    cbn [collect]. rewrite IH. unfold select_binned. rewrite Hev. cbn [Sql.bind].
    eexists. split; [reflexivity|]. constructor; [|exact Hall].
    cbn. split; [reflexivity|]. exists o, h.
    repeat (split; [assumption || reflexivity|]).
    apply high_return_bin_in_labels.
Qed.


(** *** The eleven high-price intervals *)

Lemma high_bin_order_in_bin (r : Q) : in_high_bin (HighBins.bin_order (Some r)) r.
Proof.
  unfold HighBins.bin_order. ladder; unfold in_high_bin; cbn; unfold inject_Z; lra.
Qed.

Lemma high_index_cases (j : Z) :
  (1 <= j <= 11)%Z -> In j [1; 2; 3; 4; 5; 6; 7; 8; 9; 10; 11]%Z.
Proof. cbn [In]. lia. Qed.

Lemma high_bin_unique (r : Q) (j : Z) :
  (1 <= j <= 11)%Z -> in_high_bin j r -> j = HighBins.bin_order (Some r).
Proof.
  intros Hj Hin.
  apply high_index_cases in Hj as Hcases. clear Hj.
  repeat (destruct Hcases as [<- | Hcases]; [
    unfold in_high_bin in Hin; cbn in Hin; unfold inject_Z in Hin;
    unfold HighBins.bin_order; ladder; (reflexivity || (exfalso; lra)) |]).
  destruct Hcases.
Qed.

Lemma high_bin_order_mono (r r' : Q) :
  r <= r' -> (HighBins.bin_order (Some r) <= HighBins.bin_order (Some r'))%Z.
Proof.
  intros Hle.
  pose proof (high_bin_order_in_bin r) as H.
  pose proof (proj1 (proj2 (high_return_bin_in_labels r))) as Hr.
  pose proof (high_bin_order_in_bin r') as H'.
  revert H Hr. generalize (HighBins.bin_order (Some r)). intros j H Hj.
  apply high_index_cases in Hj as Hcases. clear Hj.
  repeat (destruct Hcases as [<- | Hcases]; [
    unfold in_high_bin in H; cbn in H; unfold inject_Z in H;
    revert H'; unfold HighBins.bin_order; ladder; intros H';
    (lia || (exfalso; unfold in_high_bin in H'; cbn in H'; unfold inject_Z in H'; lra)) |]).
  destruct Hcases.
Qed.

Lemma high_label_of_order (r : Q) :
  nth_error HighBins.labels (Z.to_nat (HighBins.bin_order (Some r) - 1))
  = Some (HighBins.return_bin (Some r)).
Proof.
  unfold HighBins.bin_order, HighBins.return_bin. ladder; reflexivity.
Qed.

(** X14. On the high-price page every return falls in exactly one of eleven
    intervals (below 100, nine of width 100 up to 1000, one from 1000 on);
    [bin_order] names that interval, the label is the entry of the
    eleven-label table at that position, and a larger return never gets a
    smaller order. *)
Theorem high_bucketing_partitions_returns (r : Q) :
  let k := HighBins.bin_order (Some r) in
  (1 <= k <= 11)%Z /\
  in_high_bin k r /\
  (forall j, (1 <= j <= 11)%Z -> in_high_bin j r -> j = k) /\
  nth_error HighBins.labels (Z.to_nat (k - 1)) = Some (HighBins.return_bin (Some r)) /\
  (forall r', r <= r' -> (k <= HighBins.bin_order (Some r'))%Z).
Proof.
  cbv zeta.
  split; [apply high_return_bin_in_labels|].
  split; [apply high_bin_order_in_bin|].
  split; [intros j; apply high_bin_unique|].
  split; [apply high_label_of_order|].
  intros r'. apply high_bin_order_mono.
Qed.

(** X15. The high-price table is the rising half of the close-price table
    renumbered: for a return that is not negative the high-price order is the
    close-price order minus ten and the two labels agree after their two-digit
    number; a negative return has a close-price order of at most ten and the
    high-price order one. *)
Theorem high_bins_are_rising_close_bins (r : Q) :
  (0 <= r ->
     HighBins.bin_order (Some r) = (CloseBins.bin_order (Some r) - 10)%Z /\
     Numeral.drop 2 (HighBins.return_bin (Some r))
     = Numeral.drop 2 (CloseBins.return_bin (Some r))) /\
  (r < 0 ->
     HighBins.bin_order (Some r) = 1%Z /\ (CloseBins.bin_order (Some r) <= 10)%Z).
Proof.
  split; intros Hr.
  - unfold HighBins.bin_order, HighBins.return_bin,
      CloseBins.bin_order, CloseBins.return_bin.
    ladder; (split; reflexivity) || (exfalso; lra).
  - unfold HighBins.bin_order, CloseBins.bin_order.
    ladder; (split; [reflexivity | lia]) || (exfalso; lra).
Qed.

Lemma high_bins_are_rising_close_bins_witness :
  HighBins.bin_order (Some 150) = (CloseBins.bin_order (Some 150%Q) - 10)%Z /\
  HighBins.bin_order (Some (-40)) = 1%Z.
Proof.
  split.
  - apply (proj1 (high_bins_are_rising_close_bins 150)). unfold Qle; cbn; lia.
  - apply (proj2 (high_bins_are_rising_close_bins (-40))). unfold Qlt; cbn; lia.
Defined.

(** ** Page scripts: no engine, repeated views, fallbacks *)

Import PageFacts.

Lemma extends_refl (w : world) : extends w w.
Proof. repeat split; auto. Qed.

Lemma extends_trans (a b c : world) : extends a b -> extends b c -> extends a c.
Proof.
  intros (Hd & He & Hc) (Hd' & He' & Hc'). repeat split.
  - now rewrite Hd'. 
  - now rewrite He'.
  - intros k v H. apply Hc', Hc, H.
Qed.

Lemma stable_ret {A} (a : A) : stable (ret a).
Proof. intros w. apply extends_refl. Qed.

Lemma stable_bind {A B} (m : script A) (k : A -> script B) :
  stable m -> (forall x, stable (k x)) -> stable (bind m k).
Proof.
  intros Hm Hk w. specialize (Hm w). unfold bind.
  destruct (m w) as [x w' | w' | w']; cbn [final] in *; try assumption.
  eapply extends_trans; [exact Hm | apply Hk].
Qed.

Lemma stable_seq {A B} (m : script A) (k : script B) :
  stable m -> stable k -> stable (seq_ m k).
Proof. intros Hm Hk. apply stable_bind; [assumption | intros _; assumption]. Qed.

Lemma stable_catch {A} (m handler : script A) :
  stable m -> stable handler -> stable (catch m handler).
Proof.
  intros Hm Hh w. specialize (Hm w). unfold catch.
  destruct (m w) as [x w' | w' | w']; cbn [final] in *; try assumption.
  eapply extends_trans; [exact Hm | apply Hh].
Qed.

Lemma stable_get_engine : stable get_engine.
Proof. intros w. unfold get_engine. destruct (engine_available w); apply extends_refl. Qed.

Lemma stable_read_sql_query (q : key) : stable (read_sql_query q).
Proof.
  intros w. unfold read_sql_query. destruct (database w q); repeat split; auto.
Qed.

Lemma stable_query (q : key) : stable (seq_ get_engine (read_sql_query q)).
Proof. apply stable_seq; [apply stable_get_engine | apply stable_read_sql_query]. Qed.

Lemma stable_cache_data (k : key) (body : script table) :
  stable body -> stable (cache_data k body).
Proof.
  intros Hb w. unfold cache_data. destruct (cache w !! k) as [v|] eqn:Hk.
  - apply extends_refl.
  - specialize (Hb w). destruct (body w) as [v w' | w' | w']; cbn [final] in *; try assumption.
    destruct Hb as (Hd & He & Hc). repeat split; cbn; try assumption.
    intros k' v' H. destruct (decide (k = k')) as [<- | Hne]; [congruence|].
    rewrite lookup_insert_ne by assumption. now apply Hc.
Qed.

(** A cached call that returned has its value in the cache. *)
Lemma cache_data_stores (k : key) (body : script table) (w w' : world) (v : table) :
  cache_data k body w = Finished v w' -> cache w' !! k = Some v.
Proof.
  unfold cache_data. destruct (cache w !! k) as [v0|] eqn:Hk.
  - intros [= <- <-]. exact Hk.
  - destruct (body w) as [v0 w0 | w0 | w0]; intros [= <- <-]. cbn.
    apply lookup_insert_eq.
Qed.

Lemma cache_data_again (k : key) (body : script table) (w w' w2 : world) (v : table) :
  cache_data k body w = Finished v w' ->
  (forall k v, cache w' !! k = Some v -> cache w2 !! k = Some v) ->
  cache_data k body w2 = Finished v w2.
Proof.
  intros H Hkeep. apply cache_data_stores in H. apply Hkeep in H.
  unfold cache_data. now rewrite H.
Qed.

(** *** Silence without an engine *)

Lemma silent_ret {A} (a : A) : silent (ret a).
Proof. intros w _. reflexivity. Qed.

Lemma silent_after_get_engine {A} (m : script A) : silent (seq_ get_engine m).
Proof.
  intros w Hw. unfold seq_, bind, get_engine. now rewrite Hw.
Qed.

Lemma silent_cache_data (k : key) (body : script table) :
  silent body -> silent (cache_data k body).
Proof.
  intros Hb w Hw. unfold cache_data. destruct (cache w !! k); [reflexivity|].
  specialize (Hb w Hw). destruct (body w); cbn [final trips] in *; assumption.
Qed.

Lemma silent_catch {A} (m handler : script A) :
  stable m -> silent m -> silent handler -> silent (catch m handler).
Proof.
  intros Hst Hm Hh w Hw. specialize (Hm w Hw). destruct (Hst w) as (_ & He & _).
  unfold catch. destruct (m w) as [x w' | w' | w']; cbn [final] in *; try assumption.
  rewrite Hh; [assumption | congruence].
Qed.

Lemma silent_bind {A B} (m : script A) (k : A -> script B) :
  stable m -> silent m -> (forall x, silent (k x)) -> silent (bind m k).
Proof.
  intros Hst Hm Hk w Hw. specialize (Hm w Hw). destruct (Hst w) as (_ & He & _).
  unfold bind. destruct (m w) as [x w' | w' | w']; cbn [final] in *; try assumption.
  rewrite Hk; [assumption | congruence].
Qed.

Lemma stable_fetch_heatmap_data (y c m : string) : stable (AppScript.fetch_heatmap_data y c m).
Proof. apply stable_cache_data, stable_query. Qed.

Lemma silent_fetch_heatmap_data (y c m : string) : silent (AppScript.fetch_heatmap_data y c m).
Proof. apply silent_cache_data, silent_after_get_engine. Qed.

Lemma stable_get_latest_data_date : stable AppScript.get_latest_data_date.
Proof.
  apply stable_cache_data, stable_catch; [apply stable_query | apply stable_ret].
Qed.

Lemma stable_quick_switch (i : AppScript.inputs) : stable (AppScript.quick_switch i).
Proof.
  assert (H : forall name full, stable (AppScript.quick_display i name full)).
  { intros name full. unfold AppScript.quick_display. destruct (contains name _).
    - apply stable_ret.
    - apply stable_seq; [apply stable_fetch_heatmap_data | apply stable_ret]. }
  unfold AppScript.quick_switch.
  repeat (match goal with |- context [String.eqb ?a ?b] => destruct (String.eqb a b) end;
          [apply H|]).
  apply stable_ret.
Qed.

Lemma silent_app_page (i : AppScript.inputs) : silent (AppScript.page i).
Proof.
  unfold AppScript.page.
  apply silent_bind; [apply stable_get_latest_data_date | |].
  { apply silent_cache_data, silent_catch;
      [apply stable_query | apply silent_after_get_engine | apply silent_ret]. }
  intros _. apply silent_bind;
    [apply stable_fetch_heatmap_data | apply silent_fetch_heatmap_data |].
  intros df. apply silent_bind;
    [apply stable_cache_data, stable_query | apply silent_cache_data, silent_after_get_engine |].
  intros _. destruct (is_empty df); [apply silent_ret | apply silent_after_get_engine].
Qed.

Lemma silent_high_page (i : HighScript.inputs) : silent (HighScript.page i).
Proof.
  unfold HighScript.page.
  apply silent_bind;
    [apply stable_cache_data, stable_query | apply silent_cache_data, silent_after_get_engine |].
  intros _. apply silent_bind;
    [apply stable_cache_data, stable_query | apply silent_cache_data, silent_after_get_engine |].
  intros _. apply silent_ret.
Qed.

Lemma stable_fetch_prob_data (a : list string) : stable (ProbabilityScript.fetch_prob_data a).
Proof.
  apply stable_cache_data, stable_seq; [apply stable_get_engine|].
  apply stable_catch; [apply stable_read_sql_query | apply stable_query].
Qed.

Lemma stable_multi_year_section (i : ProbabilityScript.inputs) :
  stable (ProbabilityScript.multi_year_section i).
Proof.
  apply stable_catch; [|apply stable_ret].
  apply stable_seq; [apply stable_get_engine|].
  apply stable_bind; [apply stable_read_sql_query|].
  intros l. destruct (is_empty l) eqn:Hl; [apply stable_ret|].
  apply stable_seq; [|apply stable_ret].
  apply stable_cache_data. rewrite Hl. apply stable_query.
Qed.

Lemma silent_probability_page (i : ProbabilityScript.inputs) :
  silent (ProbabilityScript.page i).
Proof.
  unfold ProbabilityScript.page.
  apply silent_bind; [apply stable_fetch_prob_data | |].
  { apply silent_cache_data, silent_after_get_engine. }
  intros df. destruct (is_empty df); [apply silent_ret|].
  apply silent_bind.
  - destruct (ProbabilityScript.show_multi_year i);
      [apply stable_multi_year_section | apply stable_ret].
  - destruct (ProbabilityScript.show_multi_year i); [|apply silent_ret].
    apply silent_catch; [| apply silent_after_get_engine | apply silent_ret].
    apply stable_seq; [apply stable_get_engine|].
    apply stable_bind; [apply stable_read_sql_query|].
    intros l. destruct (is_empty l) eqn:Hl; [apply stable_ret|].
    apply stable_seq; [|apply stable_ret].
    apply stable_cache_data. rewrite Hl. apply stable_query.
  - intros _. apply silent_catch; [| apply silent_after_get_engine | apply silent_ret].
    apply stable_seq; [apply stable_get_engine|].
    apply stable_seq; [apply stable_read_sql_query | apply stable_ret].
Qed.

Lemma silent_timing_page (i : TimingScript.inputs) : silent (TimingScript.page i).
Proof.
  unfold TimingScript.page.
  apply silent_bind;
    [apply stable_cache_data, stable_query | apply silent_cache_data, silent_after_get_engine |].
  intros _. apply silent_ret.
Qed.

(** X16. While [get_engine] cannot make an engine, no page sends a query,
    whatever is cached; and with nothing cached every page ends at the
    [st.stop()] of its first fetch, also the main page whose first fetch
    catches every [Exception]. *)
Theorem no_engine_no_query (w : world) :
  engine_available w = false ->
  (forall i, trips (final (AppScript.page i w)) = trips w) /\
  (forall i, trips (final (HighScript.page i w)) = trips w) /\
  (forall i, trips (final (ProbabilityScript.page i w)) = trips w) /\
  (forall i, trips (final (TimingScript.page i w)) = trips w) /\
  (cache w = ∅ ->
     (forall i, AppScript.page i w = Halted w) /\
     (forall i, HighScript.page i w = Halted w) /\
     (forall i, ProbabilityScript.page i w = Halted w) /\
     (forall i, TimingScript.page i w = Halted w)).
Proof.
  intros Hw.
  split; [intros i; now apply silent_app_page|].
  split; [intros i; now apply silent_high_page|].
  split; [intros i; now apply silent_probability_page|].
  split; [intros i; now apply silent_timing_page|].
  intros Hc.
  assert (Hmiss : forall k, cache w !! k = None) by (intros k; rewrite Hc; apply lookup_empty).
  repeat split; intros i.
  - unfold AppScript.page, AppScript.get_latest_data_date, bind, cache_data, catch, seq_,
      bind, get_engine. now rewrite Hmiss, Hw.
  - unfold HighScript.page, HighScript.fetch_heatmap_data_high, bind, cache_data, seq_,
      bind, get_engine. now rewrite Hmiss, Hw.
  - unfold ProbabilityScript.page, ProbabilityScript.fetch_prob_data, bind, cache_data, seq_,
      bind, get_engine. now rewrite Hmiss, Hw.
  - unfold TimingScript.page, TimingScript.fetch_timing_data, seq_, bind, cache_data, seq_,
      bind, get_engine. now rewrite Hmiss, Hw.
Qed.

Lemma no_engine_no_query_witness :
  engine_available offline_world = false /\
  AppScript.page mean_view offline_world = Halted offline_world /\
  ProbabilityScript.page probability_view offline_world = Halted offline_world.
Proof.
  assert (Hw : engine_available offline_world = false) by reflexivity.
  destruct (no_engine_no_query offline_world Hw) as (_ & _ & _ & _ & H).
  destruct (H eq_refl) as (Happ & _ & Hprob & _).
  split; [exact Hw|]. split; [apply Happ | apply Hprob].
Defined.

(** *** A repeated view *)

Lemma bind_finished {A B} (m : script A) (k : A -> script B) (w w' : world) (b : B) :
  bind m k w = Finished b w' ->
  exists a w1, m w = Finished a w1 /\ k a w1 = Finished b w'.
Proof.
  unfold bind. destruct (m w) as [a w1 | w1 | w1]; try discriminate.
  intros H. now exists a, w1.
Qed.

Lemma finished_extends {A} (m : script A) (w w' : world) (a : A) :
  stable m -> m w = Finished a w' -> extends w w'.
Proof. intros Hst H. specialize (Hst w). now rewrite H in Hst. Qed.

Lemma quick_switch_again (i : AppScript.inputs) (w w' w2 : world) :
  AppScript.quick_switch i w = Finished tt w' ->
  (forall k v, cache w' !! k = Some v -> cache w2 !! k = Some v) ->
  AppScript.quick_switch i w2 = Finished tt w2.
Proof.
  assert (H : forall name full,
             AppScript.quick_display i name full w = Finished tt w' ->
             (forall k v, cache w' !! k = Some v -> cache w2 !! k = Some v) ->
             AppScript.quick_display i name full w2 = Finished tt w2).
  { intros name full. unfold AppScript.quick_display.
    destruct (contains name _); [reflexivity|].
    intros Hrun Hkeep. unfold seq_ in *.
    apply bind_finished in Hrun as (df & w1 & Hf & [= ->]).
    unfold bind, AppScript.fetch_heatmap_data.
    now rewrite (cache_data_again _ _ _ _ w2 _ Hf Hkeep). }
  unfold AppScript.quick_switch.
  repeat (match goal with |- context [String.eqb ?a ?b] => destruct (String.eqb a b) end;
          [apply H|]).
  reflexivity.
Qed.

(** X17. A view repeated while the cached entries last is served from the
    cache: after a view of the high-price page or of the timing page that ran
    to its end, the same view sends no query and leaves the world as it is;
    on the main page it sends nothing, or only the detail query again, which
    is the one fetch there that is not cached. *)
Theorem repeated_view_served_from_cache :
  (forall i w w', HighScript.page i w = Finished tt w' ->
                  HighScript.page i w' = Finished tt w') /\
  (forall i w w', TimingScript.page i w = Finished tt w' ->
                  TimingScript.page i w' = Finished tt w') /\
  (forall i w w', AppScript.page i w = Finished tt w' ->
     AppScript.page i w' = Finished tt w' \/
     AppScript.page i w'
     = Finished tt (sent ("detail_query",
                          [AppScript.target_year i; AppScript.selected_bin i;
                           AppScript.search_keyword i; AppScript.display_limit i]) w')).
Proof.
  split; [|split].
  - intros i w w' H. unfold HighScript.page in *.
    apply bind_finished in H as (df & w1 & H1 & H).
    apply bind_finished in H as (s & w2 & H2 & [= <-]).
    pose proof (finished_extends _ _ _ _ (stable_cache_data _ _ (stable_query _)) H2)
      as (_ & _ & Hkeep).
    unfold bind, HighScript.fetch_heatmap_data_high, HighScript.fetch_stat_summary_high in *.
    rewrite (cache_data_again _ _ _ _ w2 _ H1 Hkeep).
    now rewrite (cache_data_again _ _ _ _ w2 _ H2 (fun _ _ H => H)).
  - intros i w w' H. unfold TimingScript.page, seq_ in *.
    apply bind_finished in H as (df & w1 & H1 & [= <-]).
    unfold bind, TimingScript.fetch_timing_data in *.
    now rewrite (cache_data_again _ _ _ _ w1 _ H1 (fun _ _ H => H)).
  - intros i w w' H. unfold AppScript.page in H.
    apply bind_finished in H as (d & w1 & H1 & H).
    apply bind_finished in H as (df & w2 & H2 & H).
    apply bind_finished in H as (s & w3 & H3 & H).
    pose proof (finished_extends _ _ _ _ (stable_fetch_heatmap_data _ _ _) H2) as E12.
    pose proof (finished_extends _ _ _ _ (stable_cache_data _ _ (stable_query _)) H3) as E23.
    assert (Hagain : forall w4, extends w3 w4 ->
              AppScript.page i w4
              = (if is_empty df then ret tt
                 else seq_ get_engine
                        (seq_ (read_sql_query ("detail_query",
                                 [AppScript.target_year i; AppScript.selected_bin i;
                                  AppScript.search_keyword i; AppScript.display_limit i]))
                              (AppScript.quick_switch i))) w4).
    { intros w4 E34.
      pose proof (extends_trans _ _ _ E23 E34) as (_ & _ & K2).
      pose proof (extends_trans _ _ _ E12 (extends_trans _ _ _ E23 E34)) as (_ & _ & K1).
      destruct E34 as (_ & _ & K3).
      unfold AppScript.page, bind.
      unfold AppScript.get_latest_data_date, AppScript.fetch_heatmap_data,
        AppScript.fetch_stat_summary in *.
      rewrite (cache_data_again _ _ _ _ w4 _ H1 K1).
      rewrite (cache_data_again _ _ _ _ w4 _ H2 K2).
      now rewrite (cache_data_again _ _ _ _ w4 _ H3 K3). }
    destruct (is_empty df) eqn:Hdf.
    + injection H as <-. left. rewrite Hagain by apply extends_refl. reflexivity.
    + right. unfold seq_ in H.
      apply bind_finished in H as ([] & w4 & Hg & H).
      apply bind_finished in H as (t & w5 & Hq & H).
      unfold get_engine in Hg. destruct (engine_available w3) eqn:He; [|discriminate].
      injection Hg as <-.
      unfold read_sql_query in Hq.
      destruct (database w3 _) as [t'|] eqn:Hdb; [|discriminate].
      injection Hq as -> <-.
      pose proof (finished_extends _ _ _ _ (stable_quick_switch i) H) as E5.
      assert (E3 : extends w3 w').
      { eapply extends_trans; [|exact E5]. repeat split; auto. }
      rewrite (Hagain w' E3).
      destruct E3 as (Hd & Hea & _).
      rewrite <- Hea in He. rewrite <- Hd in Hdb.
      unfold seq_, bind, get_engine, read_sql_query.
      rewrite He, Hdb.
      apply (quick_switch_again i _ _ _ H). cbn. auto.
Qed.

Lemma repeated_view_served_from_cache_witness :
  let w' := final (AppScript.page mean_view cold_world) in
  AppScript.page mean_view cold_world = Finished tt w' /\
  (AppScript.page mean_view w' = Finished tt w' \/
   AppScript.page mean_view w'
   = Finished tt (sent ("detail_query",
                        [AppScript.target_year mean_view; AppScript.selected_bin mean_view;
                         AppScript.search_keyword mean_view;
                         AppScript.display_limit mean_view]) w')).
Proof.
  cbv zeta.
  assert (H : AppScript.page mean_view cold_world
              = Finished tt (final (AppScript.page mean_view cold_world))).
  { vm_cast_no_check
      (@eq_refl _ (Finished tt (final (AppScript.page mean_view cold_world)))). }
  split; [exact H|].
  exact (proj2 (proj2 repeated_view_served_from_cache) _ _ _ H).
Defined.

(** *** The fallback of the probability page *)

(** X18. [fetch_prob_data] on a cache miss with an engine: when the aggregate
    query answers, that one query is sent and its table cached; when it
    raises, the alternate query is sent as well and its table is cached under
    the same key, so that a repeated call returns it without trying the
    aggregate query again; when both raise the call raises, nothing is cached
    and a repeated call sends both queries again. *)
Theorem fetch_prob_data_fallback (a : list string) (w : world) :
  engine_available w = true ->
  cache w !! ("fetch_prob_data", a) = None ->
  let run1 := ProbabilityScript.fetch_prob_data a w in
  (forall t, database w ("prob", a) = Some t ->
     run1 = Finished t (stored ("fetch_prob_data", a) t (sent ("prob", a) w))) /\
  (forall t, database w ("prob", a) = None -> database w ("prob_raw", a) = Some t ->
     run1 = Finished t (stored ("fetch_prob_data", a) t
                          (sent ("prob_raw", a) (sent ("prob", a) w))) /\
     ProbabilityScript.fetch_prob_data a (final run1) = Finished t (final run1)) /\
  (database w ("prob", a) = None -> database w ("prob_raw", a) = None ->
     run1 = Failed (sent ("prob_raw", a) (sent ("prob", a) w)) /\
     ProbabilityScript.fetch_prob_data a (final run1)
     = Failed (sent ("prob_raw", a) (sent ("prob", a) (final run1)))).
Proof.
  intros He Hmiss. cbv zeta.
  unfold ProbabilityScript.fetch_prob_data, ProbabilityScript.fetch_prob_data_alt.
  split; [|split].
  - intros t Hdb.
    unfold cache_data, seq_, bind, catch, get_engine, read_sql_query, key in *.
    now rewrite Hmiss, He, Hdb.
  - intros t Hdb Hraw.
    assert (H1 : cache_data ("fetch_prob_data", a)
                   (seq_ get_engine
                      (catch (read_sql_query ("prob", a))
                         (seq_ get_engine (read_sql_query ("prob_raw", a))))) w
                 = Finished t (stored ("fetch_prob_data", a) t
                                 (sent ("prob_raw", a) (sent ("prob", a) w)))).
    { unfold cache_data, seq_, bind, catch, get_engine, read_sql_query, stored, sent, key in *.
      rewrite Hmiss, He, Hdb. cbn. rewrite He. cbn. now rewrite Hraw. }
    split; [exact H1|]. rewrite H1. cbn [final].
    apply (cache_data_again _ _ _ _ _ _ H1). auto.
  - intros Hdb Hraw.
    assert (H1 : cache_data ("fetch_prob_data", a)
                   (seq_ get_engine
                      (catch (read_sql_query ("prob", a))
                         (seq_ get_engine (read_sql_query ("prob_raw", a))))) w
                 = Failed (sent ("prob_raw", a) (sent ("prob", a) w))).
    { unfold cache_data, seq_, bind, catch, get_engine, read_sql_query, stored, sent, key in *.
      rewrite Hmiss, He, Hdb. cbn. rewrite He. cbn. now rewrite Hraw. }
    split; [exact H1|]. rewrite H1. cbn [final].
    unfold cache_data, seq_, bind, catch, get_engine, read_sql_query, stored, sent, key in *.
    cbn. rewrite Hmiss, He. cbn. rewrite Hdb. cbn. rewrite ?He. cbn. now rewrite Hraw.
Qed.

Lemma fetch_prob_data_fallback_witness :
  let a := ProbabilityScript.args probability_view in
  let w1 := final (ProbabilityScript.fetch_prob_data a aggregate_fails_world) in
  trips w1 = [("prob", a); ("prob_raw", a)] /\
  ProbabilityScript.fetch_prob_data a w1 = Finished ["row"] w1.
Proof.
  cbv zeta.
  destruct (fetch_prob_data_fallback (ProbabilityScript.args probability_view)
              aggregate_fails_world eq_refl eq_refl) as (_ & H & _).
  cbv zeta in H. destruct (H ["row"] eq_refl eq_refl) as [H1 H2].
  split; [rewrite H1; reflexivity | exact H2].
Defined.

(** *** The date in the sidebar *)

Lemma catch_ret_never_fails {A} (m : script A) (a : A) (w w' : world) :
  catch m (ret a) w <> Failed w'.
Proof. unfold catch, ret. destruct (m w); discriminate. Qed.

(** X19. [get_latest_data_date] never lets an exception out.  When its query
    raises, it returns the placeholder and [st.cache_data] stores the
    placeholder like any other value: a repeated call keeps returning it
    without asking the database, also once the database answers again. *)
Theorem latest_date_placeholder_is_cached (w : world) :
  let q := ("SELECT MAX(date) FROM stock_prices", []) in
  (forall w', AppScript.get_latest_data_date w <> Failed w') /\
  (engine_available w = true ->
   cache w !! ("get_latest_data_date", []) = None ->
   database w q = None ->
   exists w1,
     AppScript.get_latest_data_date w = Finished ["資料擷取中"] w1 /\
     trips w1 = (trips w ++ [q])%list /\
     forall w2, cache w2 = cache w1 ->
       AppScript.get_latest_data_date w2 = Finished ["資料擷取中"] w2).
Proof.
  cbv zeta. split.
  - intros w'. unfold AppScript.get_latest_data_date, cache_data.
    destruct (cache w !! _); [discriminate|].
    match goal with |- context [catch ?m ?h w] =>
      pose proof (catch_ret_never_fails m ["資料擷取中"] w) as Hc;
      destruct (catch m h w) as [v w0 | w0 | w0] eqn:E end; try discriminate.
    exfalso. now apply (Hc w0).
  - intros He Hmiss Hdb.
    assert (H1 : AppScript.get_latest_data_date w
                 = Finished ["資料擷取中"]
                     (stored ("get_latest_data_date", []) ["資料擷取中"]
                        (sent ("SELECT MAX(date) FROM stock_prices", []) w))).
    { unfold AppScript.get_latest_data_date, cache_data, catch, seq_, bind, get_engine,
        read_sql_query, ret, key in *. now rewrite Hmiss, He, Hdb. }
    eexists. split; [exact H1|]. split; [reflexivity|].
    intros w2 Hc. apply (cache_data_again _ _ _ _ _ _ H1). now rewrite Hc.
Qed.

Lemma latest_date_placeholder_is_cached_witness :
  exists w1, AppScript.get_latest_data_date down_world = Finished ["資料擷取中"] w1 /\
             trips w1 = [("SELECT MAX(date) FROM stock_prices", [])].
Proof.
  destruct (proj2 (latest_date_placeholder_is_cached down_world) eq_refl eq_refl eq_refl)
    as (w1 & H1 & Ht & _).
  exists w1. split; [exact H1 | exact Ht].
Defined.

(** *** What can fail on the probability page *)

Lemma seq_never_fails {A B} (m : script A) (k : script B) (w w' : world) :
  (forall w0 w1, m w0 <> Failed w1) -> (forall w0 w1, k w0 <> Failed w1) ->
  seq_ m k w <> Failed w'.
Proof.
  intros Hm Hk. unfold seq_, bind. destruct (m w) as [x w1 | w1 | w1] eqn:E.
  - apply Hk.
  - exfalso. now apply (Hm w w1).
  - discriminate.
Qed.

(** X20. A failing query ends the probability page with an exception only in
    [fetch_prob_data], and only when it had to run with an engine and both
    the aggregate and the alternate query raised; the two optional sections
    catch the exceptions of their queries. *)
Theorem probability_page_fails_only_in_fetch (i : ProbabilityScript.inputs) (w w' : world) :
  ProbabilityScript.page i w = Failed w' ->
  let a := ProbabilityScript.args i in
  engine_available w = true /\
  cache w !! ("fetch_prob_data", a) = None /\
  database w ("prob", a) = None /\
  database w ("prob_raw", a) = None /\
  w' = sent ("prob_raw", a) (sent ("prob", a) w).
Proof.
  cbv zeta. unfold ProbabilityScript.page, bind.
  destruct (ProbabilityScript.fetch_prob_data _ w) as [df w1 | w1 | w1] eqn:E;
    [| | discriminate].
  - intros H. exfalso. destruct (is_empty df); [discriminate|].
    revert H. apply seq_never_fails.
    + intros w0 w2. destruct (ProbabilityScript.show_multi_year i); [|discriminate].
      apply catch_ret_never_fails.
    + intros w0 w2. apply catch_ret_never_fails.
  - intros [= <-]. revert E.
    unfold ProbabilityScript.fetch_prob_data, ProbabilityScript.fetch_prob_data_alt,
      cache_data, seq_, bind, catch, get_engine, read_sql_query.
    destruct (cache w !! _); [discriminate|].
    destruct (engine_available w) eqn:He; [|discriminate].
    destruct (database w ("prob", _)); [discriminate|]. cbn. rewrite He. cbn.
    destruct (database w ("prob_raw", _)); [discriminate|].
    intros [= <-]. repeat split. unfold sent. cbn. now rewrite He.
Qed.

Lemma probability_page_fails_only_in_fetch_witness :
  let w' := final (ProbabilityScript.page probability_view down_world) in
  ProbabilityScript.page probability_view down_world = Failed w' /\
  w' = sent ("prob_raw", ProbabilityScript.args probability_view)
         (sent ("prob", ProbabilityScript.args probability_view) down_world).
Proof.
  cbv zeta.
  assert (H : ProbabilityScript.page probability_view down_world
              = Failed (final (ProbabilityScript.page probability_view down_world)))
    by (vm_compute; reflexivity).
  split; [exact H|].
  exact (proj2 (proj2 (proj2 (proj2
    (probability_page_fails_only_in_fetch probability_view down_world _ H))))).
Defined.

(** ** The probability table: how the columns of a row fit together *)

Import ProbFacts.

Lemma ROUND1_mono (x y : Q) :
  x <= y -> tenths_le (ROUND1 (Some x)) (ROUND1 (Some y)).
Proof.
  unfold ROUND1, tenths_le. cbn [option_map]. intros Hle.
  destruct (Qle_bool_reflect 0 (x * 10)) as [Hx | Hx],
           (Qle_bool_reflect 0 (y * 10)) as [Hy | Hy].
  - apply Qfloor_resp_le. lra.
  - exfalso. lra.
  - assert (H1 : (0 <= Qfloor (- (x * 10) + (1 # 2)))%Z).
    { change 0%Z with (Qfloor 0). apply Qfloor_resp_le. lra. }
    assert (H2 : (0 <= Qfloor (y * 10 + (1 # 2)))%Z).
    { change 0%Z with (Qfloor 0). apply Qfloor_resp_le. lra. }
    lia.
  - assert (H : (Qfloor (- (y * 10) + (1 # 2)) <= Qfloor (- (x * 10) + (1 # 2)))%Z).
    { apply Qfloor_resp_le. lra. }
    lia.
Qed.

Lemma round1_mono (x y : Q) :
  x <= y -> tenths_le (round1 (Some x)) (round1 (Some y)).
Proof.
  unfold round1, tenths_le. cbn [option_map]. intros Hle.
  set (t := x * 10). set (u := y * 10).
  assert (Htu : t <= u) by (unfold t, u; lra).
  pose proof (Qfloor_le t) as T1. pose proof (Qlt_floor t) as T2.
  pose proof (Qfloor_le u) as U1. pose proof (Qlt_floor u) as U2.
  rewrite inject_Z_plus in T2, U2. change (inject_Z 1) with 1 in T2, U2.
  pose proof (Qfloor_resp_le _ _ Htu) as Hf.
  destruct (Z.eq_dec (Qfloor t) (Qfloor u)) as [E | Hne].
  - rewrite <- E in *.
    destruct (Qlt_bool_reflect (t - inject_Z (Qfloor t)) (1 # 2)),
             (Qlt_bool_reflect (1 # 2) (t - inject_Z (Qfloor t))),
             (Qlt_bool_reflect (u - inject_Z (Qfloor t)) (1 # 2)),
             (Qlt_bool_reflect (1 # 2) (u - inject_Z (Qfloor t)));
      try lia; try (exfalso; lra); destruct (Z.even (Qfloor t)); lia.
  - assert (Hlt : (Qfloor t + 1 <= Qfloor u)%Z) by lia.
    destruct (Qlt_bool (t - inject_Z (Qfloor t)) (1 # 2)),
             (Qlt_bool (1 # 2) (t - inject_Z (Qfloor t))),
             (Qlt_bool (u - inject_Z (Qfloor u)) (1 # 2)),
             (Qlt_bool (1 # 2) (u - inject_Z (Qfloor u)));
      try lia; destruct (Z.even (Qfloor t)), (Z.even (Qfloor u)); lia.
Qed.

(** *** Minimum, maximum, mean *)

Lemma fold_min_le (xs : list Q) (x y : Q) :
  y == x \/ In y xs -> fold_left Qmin xs x <= y.
Proof.
  revert x y. induction xs as [|z xs IH]; intros x y; cbn [fold_left In].
  - intros [H | []]. lra.
  - intros [H | [<- | H]].
    + assert (Hm : fold_left Qmin xs (Qmin x z) <= Qmin x z) by (apply IH; left; reflexivity).
      pose proof (Q.le_min_l x z). lra.
    + assert (Hm : fold_left Qmin xs (Qmin x z) <= Qmin x z) by (apply IH; left; reflexivity).
      pose proof (Q.le_min_r x z). lra.
    + apply IH. now right.
Qed.

Lemma fold_max_ge (xs : list Q) (x y : Q) :
  y == x \/ In y xs -> y <= fold_left Qmax xs x.
Proof.
  revert x y. induction xs as [|z xs IH]; intros x y; cbn [fold_left In].
  - intros [H | []]. lra.
  - intros [H | [<- | H]].
    + assert (Hm : Qmax x z <= fold_left Qmax xs (Qmax x z)) by (apply IH; left; reflexivity).
      pose proof (Q.le_max_l x z). lra.
    + assert (Hm : Qmax x z <= fold_left Qmax xs (Qmax x z)) by (apply IH; left; reflexivity).
      pose proof (Q.le_max_r x z). lra.
    + apply IH. now right.
Qed.

Lemma minimum_le (x : Q) (xs : list Q) (y : Q) : In y (x :: xs) -> minimum x xs <= y.
Proof. intros [<- | H]; apply fold_min_le; [left; reflexivity | now right]. Qed.

Lemma maximum_ge (x : Q) (xs : list Q) (y : Q) : In y (x :: xs) -> y <= maximum x xs.
Proof. intros [<- | H]; apply fold_max_ge; [left; reflexivity | now right]. Qed.

Lemma total_bounds (l : list Q) (m M : Q) :
  (forall y, In y l -> m <= y <= M) ->
  m * count l <= total l <= M * count l.
Proof.
  unfold count, total. induction l as [|x l IH]; intros H.
  - cbn [fold_right length]. change (inject_Z (Z.of_nat 0)) with 0. lra.
  - cbn [fold_right length]. rewrite Nat2Z.inj_succ. unfold Z.succ.
    rewrite inject_Z_plus. change (inject_Z 1) with 1.
    destruct (H x (or_introl eq_refl)) as [H1 H2].
    destruct IH as [I1 I2]; [intros y Hy; apply H; now right|]. lra.
Qed.

Lemma count_pos (l : list Q) : l <> [] -> 0 < count l.
Proof.
  destruct l; [congruence|]. intros _. unfold count. cbn [length].
  rewrite Nat2Z.inj_succ. unfold Z.succ. rewrite inject_Z_plus.
  change (inject_Z 1) with 1.
  assert (0 <= inject_Z (Z.of_nat (length l))).
  { change 0 with (inject_Z 0). rewrite <- Zle_Qle. lia. }
  lra.
Qed.

Lemma mean_bounds (l : list Q) (m M : Q) :
  l <> [] -> (forall y, In y l -> m <= y <= M) -> m <= mean l <= M.
Proof.
  intros Hne H. pose proof (count_pos l Hne) as Hc.
  destruct (total_bounds l m M H) as [H1 H2]. unfold mean. split.
  - apply Qle_shift_div_l; assumption.
  - apply Qle_shift_div_r; assumption.
Qed.

(** *** Percentiles *)

Lemma insert_sorted_in (x y : Q) (l : list Q) :
  In y (insert_sorted x l) -> y = x \/ In y l.
Proof.
  induction l as [|z l IH]; cbn [insert_sorted In].
  - intuition congruence.
  - destruct (Qle_bool x z); cbn [In]; [intuition congruence|].
    intros [<- | H]; [tauto|]. apply IH in H. tauto.
Qed.

Lemma sort_in (l : list Q) (y : Q) : In y (sort l) -> In y l.
Proof.
  unfold sort. induction l as [|x l IH]; cbn [fold_right In]; [tauto|].
  intros H. apply insert_sorted_in in H as [-> | H]; [now left | right; now apply IH].
Qed.

Lemma insert_sorted_length (x : Q) (l : list Q) :
  length (insert_sorted x l) = S (length l).
Proof.
  induction l as [|z l IH]; cbn [insert_sorted length]; [reflexivity|].
  destruct (Qle_bool x z); cbn [length]; [reflexivity | now rewrite IH].
Qed.

Lemma sort_length (l : list Q) : length (sort l) = length l.
Proof.
  unfold sort. induction l as [|x l IH]; cbn [fold_right length]; [reflexivity|].
  now rewrite insert_sorted_length, IH.
Qed.

Lemma at_index_in (s : list Q) (i : Z) :
  (0 <= i < Z.of_nat (length s))%Z -> In (at_index s i) s.
Proof. intros H. unfold at_index. apply nth_In. lia. Qed.

Lemma between (a b t m M : Q) :
  m <= a <= M -> m <= b <= M -> 0 <= t <= 1 -> m <= a + t * (b - a) <= M.
Proof. intros Ha Hb Ht. nra. Qed.

Lemma percentile_bounds (p : Q) (vs : list numeric) (m M : Q) :
  0 <= p <= 1 -> non_null vs <> [] ->
  (forall y, In y (non_null vs) -> m <= y <= M) ->
  exists v, PERCENTILE_CONT p vs = Some v /\ m <= v <= M.
Proof.
  intros Hp Hne Hall. unfold PERCENTILE_CONT.
  pose proof (sort_length (non_null vs)) as Hlen.
  assert (Hin : forall y, In y (sort (non_null vs)) -> m <= y <= M)
    by (intros y Hy; apply Hall, sort_in, Hy).
  destruct (sort (non_null vs)) as [|x xs] eqn:Es.
  { destruct (non_null vs); [congruence | discriminate]. }
  set (s := x :: xs) in *.
  assert (Hn : 1 <= count s).
  { unfold count, s. cbn [length]. rewrite Nat2Z.inj_succ. unfold Z.succ.
    rewrite inject_Z_plus. change (inject_Z 1) with 1.
    assert (0 <= inject_Z (Z.of_nat (length xs))).
    { change 0 with (inject_Z 0). rewrite <- Zle_Qle. lia. }
    lra. }
  set (rn := p * (count s - 1)).
  assert (Hrn0 : 0 <= rn) by (unfold rn; nra).
  assert (Hrn1 : rn <= count s - 1) by (unfold rn; nra).
  assert (Hcount : count s - 1 == inject_Z (Z.of_nat (length s) - 1)).
  { unfold count, Z.sub. rewrite inject_Z_plus, inject_Z_opp. reflexivity. }
  pose proof (Qfloor_le rn) as F1. pose proof (Qlt_floor rn) as F2.
  rewrite inject_Z_plus in F2. change (inject_Z 1) with 1 in F2.
  assert (Hf0 : (0 <= Qfloor rn)%Z).
  { change 0%Z with (Qfloor 0). now apply Qfloor_resp_le. }
  assert (Hf1 : (Qfloor rn <= Z.of_nat (length s) - 1)%Z).
  { rewrite Zle_Qle. rewrite <- Hcount. lra. }
  assert (Hc0 : (0 <= Qceiling rn)%Z).
  { change 0%Z with (Qceiling 0). now apply Qceiling_resp_le. }
  assert (Hc1 : (Qceiling rn <= Z.of_nat (length s) - 1)%Z).
  { rewrite <- (Qceiling_Z (Z.of_nat (length s) - 1)).
    apply Qceiling_resp_le. rewrite <- Hcount. exact Hrn1. }
  pose proof (Hin _ (at_index_in s (Qfloor rn) ltac:(lia))) as Ha.
  pose proof (Hin _ (at_index_in s (Qceiling rn) ltac:(lia))) as Hb.
  destruct (Qfloor rn =? Qceiling rn)%Z.
  - eexists. split; [reflexivity | exact Ha].
  - eexists. split; [reflexivity|]. apply between; [assumption.. | lra].
Qed.

(** *** Rates *)

Lemma filter_length_mono {A} (f g : A -> bool) (l : list A) :
  (forall a, f a = true -> g a = true) ->
  (length (List.filter f l) <= length (List.filter g l))%nat.
Proof.
  intros H. induction l as [|a l IH]; cbn [List.filter]; [lia|].
  destruct (f a) eqn:Ef.
  - rewrite (H a Ef). cbn [length]. lia.
  - destruct (g a); cbn [length]; lia.
Qed.

Lemma sql_gt_weaken (v : numeric) :
  holds (sql_gt v (lit 100)) = true -> holds (sql_gt v (lit 20)) = true.
Proof.
  destruct v as [x|]; cbn; [|discriminate].
  destruct (Qlt_bool_reflect 100 x), (Qlt_bool_reflect 20 x); cbn; try reflexivity.
  - exfalso. lra.
  - discriminate.
Qed.

Lemma rates_in_order (g : list numeric) :
  g <> [] ->
  0 <= COUNT_FILTER_GT 100 g * 100 / COUNT_STAR g /\
  COUNT_FILTER_GT 100 g * 100 / COUNT_STAR g <= COUNT_FILTER_GT 20 g * 100 / COUNT_STAR g /\
  COUNT_FILTER_GT 20 g * 100 / COUNT_STAR g <= 100.
Proof.
  intros Hne. unfold COUNT_FILTER_GT, COUNT_STAR.
  set (f100 := fun v => holds (sql_gt v (lit 100))).
  set (f20 := fun v => holds (sql_gt v (lit 20))).
  pose proof (filter_length_mono f100 f20 g sql_gt_weaken) as H1.
  pose proof (List.filter_length_le f20 g) as H2.
  assert (Hn : (0 < length g)%nat) by (destruct g; [congruence | cbn; lia]).
  set (a := length (List.filter f100 g)) in *.
  set (b := length (List.filter f20 g)) in *.
  set (n := length g) in *.
  assert (Ha : 0 <= inject_Z (Z.of_nat a))
    by (change 0 with (inject_Z 0); rewrite <- Zle_Qle; lia).
  assert (Hab : inject_Z (Z.of_nat a) <= inject_Z (Z.of_nat b))
    by (rewrite <- Zle_Qle; lia).
  assert (Hbn : inject_Z (Z.of_nat b) <= inject_Z (Z.of_nat n))
    by (rewrite <- Zle_Qle; lia).
  assert (Hpos : 0 < inject_Z (Z.of_nat n))
    by (change 0 with (inject_Z 0); rewrite <- Zlt_Qlt; lia).
  repeat split.
  - apply Qle_shift_div_l; [assumption | lra].
  - unfold Qdiv. apply Qmult_le_compat_r; [lra|].
    apply Qinv_le_0_compat. lra.
  - apply Qle_shift_div_r; [assumption | lra].
Qed.

Lemma tenths_le_same (a b c d : option Z) :
  a = c -> b = d -> tenths_le a b -> tenths_le c d.
Proof. now intros -> ->. Qed.

Lemma consistent_from (mn mean med mx dbl win : Q) (rnd : numeric -> option Z) :
  (forall x y, x <= y -> tenths_le (rnd (Some x)) (rnd (Some y))) ->
  rnd (Some 0) = Some 0%Z -> rnd (Some 100) = Some 1000%Z ->
  mn <= mean <= mx -> mn <= med <= mx -> 0 <= dbl -> dbl <= win -> win <= 100 ->
  tenths_le (rnd (Some mn)) (rnd (Some mean)) /\
  tenths_le (rnd (Some mean)) (rnd (Some mx)) /\
  tenths_le (rnd (Some mn)) (rnd (Some med)) /\
  tenths_le (rnd (Some med)) (rnd (Some mx)) /\
  tenths_le (Some 0%Z) (rnd (Some dbl)) /\
  tenths_le (rnd (Some dbl)) (rnd (Some win)) /\
  tenths_le (rnd (Some win)) (Some 1000%Z).
Proof.
  intros Hmono H0 H100 Hmean Hmed Hd Hdw Hw.
  repeat split; try (apply Hmono; lra).
  - rewrite <- H0. now apply Hmono.
  - rewrite <- H100. now apply Hmono.
Qed.



(** ** The expected-value scores of the probability page *)

Import Expected.

Lemma half_even_Z (t : Q) (n : Z) : t == inject_Z n -> half_even t = n.
Proof.
  intros E. unfold half_even.
  assert (Hf : Qfloor t = n) by (rewrite (Qfloor_comp _ _ E); apply Qfloor_Z).
  rewrite Hf.
  destruct (Qlt_bool_reflect (t - inject_Z n) (1 # 2)) as [_ | Hge]; [reflexivity|].
  exfalso. apply Hge. lra.
Qed.

Lemma std_dev_cases (row : prob_row) :
  match value (r_std row) with
  | None => std_dev row = None
  | Some s => exists d, std_dev row = Some d /\ 1 <= d /\
                        (s <= 1 -> d == 1) /\ (1 <= s -> d == s)
  end.
Proof.
  unfold std_dev, py_max, py_gt. destruct (value (r_std row)) as [s|]; [|reflexivity].
  destruct (Qlt_bool_reflect s 1) as [Hlt | Hge].
  - exists 1. repeat split; intros; (reflexivity || lra).
  - exists s. repeat split; intros; (reflexivity || lra).
Qed.

Lemma Qabs_div_le (a d : Q) : 1 <= d -> Qabs (a / d) <= Qabs a.
Proof.
  intros Hd.
  assert (Hinv : 0 < / d) by (apply Qinv_lt_0_compat; lra).
  assert (Hle : / d <= 1).
  { assert (E : / d == 1 / d) by (field; lra). rewrite E.
    apply Qle_shift_div_r; lra. }
  unfold Qdiv. rewrite Qabs_Qmult, (Qabs_pos (/ d)) by lra.
  pose proof (Qabs_nonneg a). nra.
Qed.

(** X22. The risk-adjusted score divides the average return by the standard
    deviation clamped from below at 1, so it is never larger in size than the
    average return: at a deviation of at most 1 it is the average return
    itself, above 1 it is the quotient.  The clamp never returns a value that
    fails [std_dev > 0], except a NaN: the [else 0] branch is the score of a
    row whose deviation is NaN and of no other. *)
Theorem risk_adjusted_is_clamped (row : prob_row) (a : Q) :
  avg_return row = Some a ->
  exists r, risk_adjusted row = Some r /\ Qabs r <= Qabs a /\
    match value (r_std row) with
    | None => std_dev row = None /\ r = 0
    | Some s => py_gt (std_dev row) (Some 0) = true /\
                (s <= 1 -> r == a) /\ (1 <= s -> r == a / s)
    end.
Proof.
  intros Ha. unfold risk_adjusted. rewrite Ha.
  pose proof (std_dev_cases row) as Hs.
  destruct (value (r_std row)) as [s|].
  - destruct Hs as (d & -> & Hd & Hlow & Hhigh).
    unfold py_gt, py_div.
    destruct (Qlt_bool_reflect 0 d) as [_ | Hn]; [|exfalso; lra].
    destruct (Qeq_bool_reflect d 0) as [Hz | _]; [exfalso; lra|].
    exists (a / d). split; [reflexivity|]. split; [now apply Qabs_div_le|].
    split; [reflexivity|]. split.
    + intros H. rewrite (Hlow H). field.
    + intros H. now rewrite (Hhigh H).
  - rewrite Hs. cbn [py_gt]. exists 0. split; [reflexivity|].
    split; [apply Qabs_nonneg|]. split; reflexivity.
Qed.

Lemma risk_adjusted_is_clamped_witness :
  exists r, risk_adjusted (alt_row (fun x => x) one_stock 3) = Some r /\
            Qabs r <= Qabs (inject_Z 100 / 10).
Proof.
  destruct (risk_adjusted_is_clamped (alt_row (fun x => x) one_stock 3) (inject_Z 100 / 10))
    as (r & Hr & Habs & _).
  - vm_compute. reflexivity.
  - exists r. split; [exact Hr | exact Habs].
Defined.

Lemma round1_comp (x y : Q) : x == y -> round1 (Some x) = round1 (Some y).
Proof.
  intros H. unfold round1. cbn [option_map]. f_equal.
  assert (Ht : x * 10 == y * 10) by now rewrite H.
  rewrite (Qfloor_comp _ _ Ht).
  assert (Hr : x * 10 - inject_Z (Qfloor (y * 10)) == y * 10 - inject_Z (Qfloor (y * 10)))
    by now rewrite Ht.
  rewrite (Qlt_bool_comp _ _ _ _ Hr (Qeq_refl (1 # 2))).
  rewrite (Qlt_bool_comp _ _ _ _ (Qeq_refl (1 # 2)) Hr).
  reflexivity.
Qed.

(** X23. For a group of one stock the two paths of [fetch_prob_data] lead to
    different risk-adjusted scores.  In a frame that also has a group of two
    or more stocks the deviation column holds a number, so pandas reads it as
    floats and the NULL of the one-stock group as NaN: the SQL path then
    gives the score 0, while the alternate path writes the deviation 0, which
    is clamped to 1 and gives the average return itself (ten times its
    tenths, in hundredths). *)
Theorem single_stock_risk_score_depends_on_path
    (root : Q -> Q) (jd : list joined) (k k' : Z) (v : Q) :
  group_of k jd = [Some v] ->
  (2 <= length (non_null (group_of k' jd)))%nat ->
  e_risk (calculate_row (sql_row root jd k)) = Some 0%Z /\
  r_std (sql_row root jd k) = None /\
  (r_std (sql_row root jd k') = None -> False) /\
  exists m, round1 (Some v) = Some m /\
            r_mean (alt_row root jd k) = Some m /\
            e_risk (calculate_row (alt_row root jd k)) = Some (10 * m)%Z.
Proof.
  intros Hg Hk'. split; [|split; [|split]].
  - unfold calculate_row, risk_adjusted, std_dev, sql_row. rewrite Hg.
    cbn [e_risk r_std r_mean]. reflexivity.
  - unfold sql_row. rewrite Hg. reflexivity.
  - unfold sql_row. cbn [r_std]. unfold STDDEV.
    replace (length (non_null (group_of k' jd)) <? 2)%nat with false
      by (symmetry; apply Nat.ltb_ge; lia).
    discriminate.
  - assert (Hm : r_mean (alt_row root jd k) = round1 (Some v)).
    { unfold alt_row. rewrite Hg. cbn [r_mean]. unfold pd_mean. cbn [non_null].
      apply round1_comp. unfold mean, total, count. cbn [fold_right length].
      change (inject_Z (Z.of_nat 1)) with 1. field. }
    destruct (round1 (Some v)) as [m|] eqn:Er; [|discriminate Er].
    exists m. split; [reflexivity|]. split; [exact Hm|].
    unfold calculate_row. cbn [e_risk].
    unfold risk_adjusted, std_dev, avg_return. rewrite Hm.
    unfold alt_row at 1 2. rewrite Hg. cbn [r_std length Nat.ltb Nat.leb value option_map].
    change (py_max (Some (inject_Z 0 / 10)) (Some 1)) with (Some 1).
    change (py_gt (Some 1) (Some 0)) with true. cbv iota.
    change (py_div (Some (inject_Z m / 10)) (Some 1)) with (Some (inject_Z m / 10 / 1)).
    unfold round2. cbn [option_map]. f_equal.
    apply half_even_Z. rewrite inject_Z_mult. change (inject_Z 10) with 10. field.
Qed.

Lemma single_stock_risk_score_depends_on_path_witness :
  e_risk (calculate_row (sql_row (fun x => x) three_stocks 1)) = Some 0%Z /\
  e_risk (calculate_row (alt_row (fun x => x) three_stocks 1)) = Some 500%Z.
Proof.
  destruct (single_stock_risk_score_depends_on_path (fun x => x) three_stocks 1 2 5 eq_refl)
    as (Hsql & _ & _ & m & Hm & _ & Halt).
  - cbn. lia.
  - split; [exact Hsql|]. rewrite Halt.
    injection Hm as <-. reflexivity.
Defined.

(** ** The helpers of the timing page *)

Import TimingLab.

(** *** The distribution summary *)

Lemma how_many_split (p q r : Q -> bool) (data : list Q) :
  (forall x, q x = p x || r x) -> (forall x, p x && r x = false) ->
  (how_many q data - how_many p data = how_many r data)%Z.
Proof.
  intros Hq Hdisj. unfold how_many.
  induction data as [|x data IH]; [reflexivity|].
  cbn [List.filter]. rewrite (Hq x). specialize (Hdisj x).
  destruct (p x), (r x); cbn [orb length] in *; try discriminate; lia.
Qed.

Lemma how_many_none (p : Q -> bool) (data : list Q) :
  (forall x, p x = false) -> how_many p data = 0%Z.
Proof.
  intros H. unfold how_many. induction data as [|x data IH]; [reflexivity|].
  cbn [List.filter]. now rewrite H.
Qed.

Lemma how_many_all (p : Q -> bool) (data : list Q) :
  (forall x, p x = true) -> how_many p data = Z.of_nat (length data).
Proof.
  intros H. unfold how_many. induction data as [|x data IH]; [reflexivity|].
  cbn [List.filter]. rewrite H. cbn [length]. lia.
Qed.

Lemma how_many_nonneg (p : Q -> bool) (data : list Q) : (0 <= how_many p data)%Z.
Proof. unfold how_many. lia. Qed.

Lemma histogram_bins (data : list Q) :
  histogram bins data = map (fun i => how_many (falls_in i) data) [0; 1; 2; 3; 4]%nat.
Proof.
  unfold histogram, bins. cbn [removelast List.last map app diff].
  rewrite (how_many_none (below NegInf)) by reflexivity.
  rewrite (how_many_all (upto PosInf)) by reflexivity.
  rewrite <- (how_many_all (fun _ => true) data) by reflexivity.
  f_equal; [|f_equal; [|f_equal; [|f_equal; [|f_equal]]]].
  - rewrite Z.sub_0_r. reflexivity.
  - apply how_many_split; intros x; cbn [below falls_in];
      destruct (Qlt_bool_reflect x (-5)), (Qlt_bool_reflect x (-1)),
               (Qle_bool_reflect (-5) x); cbn; try reflexivity; exfalso; lra.
  - apply how_many_split; intros x; cbn [below falls_in];
      destruct (Qlt_bool_reflect x (-1)), (Qlt_bool_reflect x 1),
               (Qle_bool_reflect (-1) x); cbn; try reflexivity; exfalso; lra.
  - apply how_many_split; intros x; cbn [below falls_in];
      destruct (Qlt_bool_reflect x 1), (Qlt_bool_reflect x 5),
               (Qle_bool_reflect 1 x); cbn; try reflexivity; exfalso; lra.
  - apply how_many_split; intros x; cbn [below falls_in];
      destruct (Qlt_bool_reflect x 5), (Qle_bool_reflect 5 x);
      cbn; try reflexivity; exfalso; lra.
Qed.

Lemma falls_in_one (x : Q) :
  exists i, (i < 5)%nat /\ falls_in i x = true /\
            forall j, (j < 5)%nat -> falls_in j x = true -> j = i.
Proof.
  assert (Hcases : forall j, (j < 5)%nat ->
            j = 0%nat \/ j = 1%nat \/ j = 2%nat \/ j = 3%nat \/ j = 4%nat) by lia.
  destruct (Qlt_bool_reflect x (-5)) as [H0 | H0];
    [exists 0%nat | destruct (Qlt_bool_reflect x (-1)) as [H1 | H1];
      [exists 1%nat | destruct (Qlt_bool_reflect x 1) as [H2 | H2];
        [exists 2%nat | destruct (Qlt_bool_reflect x 5) as [H3 | H3];
          [exists 3%nat | exists 4%nat]]]];
    (split; [lia|]); (split; [
      cbn [falls_in];
      repeat match goal with
             | |- context [Qlt_bool ?a ?b] => destruct (Qlt_bool_reflect a b)
             | |- context [Qle_bool ?a ?b] => destruct (Qle_bool_reflect a b)
             end; cbn; try reflexivity; exfalso; lra |]);
    intros j Hj Hin; destruct (Hcases j Hj) as [-> | [-> | [-> | [-> | ->]]]];
    try reflexivity; exfalso; revert Hin; cbn [falls_in];
    repeat match goal with
           | |- context [Qlt_bool ?a ?b] => destruct (Qlt_bool_reflect a b)
           | |- context [Qle_bool ?a ?b] => destruct (Qle_bool_reflect a b)
           end; cbn; try discriminate; intros _; lra.
Qed.

Lemma how_many_partition (data : list Q) :
  (how_many (falls_in 0) data + how_many (falls_in 1) data + how_many (falls_in 2) data
   + how_many (falls_in 3) data + how_many (falls_in 4) data
   = Z.of_nat (length data))%Z.
Proof.
  unfold how_many. induction data as [|x data IH]; [reflexivity|].
  cbn [List.filter length].
  destruct (falls_in_one x) as (i & Hi & Hin & Huniq).
  assert (H : forall j, (j < 5)%nat -> falls_in j x = if (j =? i)%nat then true else false).
  { intros j Hj. destruct (Nat.eqb_spec j i) as [-> | Hne]; [exact Hin|].
    destruct (falls_in j x) eqn:E; [|reflexivity]. exfalso. now apply Hne, Huniq. }
  rewrite (H 0%nat), (H 1%nat), (H 2%nat), (H 3%nat), (H 4%nat) by lia.
  assert (Hc : i = 0%nat \/ i = 1%nat \/ i = 2%nat \/ i = 3%nat \/ i = 4%nat) by lia.
  destruct Hc as [-> | [-> | [-> | [-> | ->]]]]; cbn [Nat.eqb length]; lia.
Qed.

Lemma sum_positive_entries (l : list (string * Z)) :
  Forall (fun lc => (0 <= snd lc)%Z) l ->
  fold_right Z.add 0%Z (map snd (List.filter (fun lc => (0 <? snd lc)%Z) l))
  = fold_right Z.add 0%Z (map snd l).
Proof.
  induction 1 as [|lc l Hlc _ IH]; [reflexivity|].
  cbn [List.filter]. destruct (Z.ltb_spec 0 (snd lc)); cbn [map fold_right]; lia.
Qed.

(** X24. The distribution summary of the AI prompt counts every value of the
    column exactly once: the five counts of [np.histogram] are the numbers of
    values below -5, from -5 to below -1, from -1 to below 1, from 1 to below
    5, and from 5 on, so they add up to the number of values, and so do the
    counts the summary prints.  A value of exactly 5 is counted under the
    label ['大漲(>5%)'], a value of exactly -5 under ['小跌']. *)
Theorem summary_counts_every_value_once (col : list numeric) :
  let data := non_null col in
  histogram bins data = map (fun i => how_many (falls_in i) data) [0; 1; 2; 3; 4]%nat /\
  (forall x, exists i, (i < 5)%nat /\ falls_in i x = true /\
                       forall j, (j < 5)%nat -> falls_in j x = true -> j = i) /\
  fold_right Z.add 0%Z (histogram bins data) = Z.of_nat (length data) /\
  fold_right Z.add 0%Z (map snd (summary col)) = Z.of_nat (length data) /\
  Forall (fun lc => In (fst lc) labels /\ (0 < snd lc)%Z) (summary col) /\
  (forall x, falls_in 4 x = true <-> 5 <= x) /\
  (forall x, falls_in 0 x = true <-> x < -5).
Proof.
  cbv zeta. set (data := non_null col).
  split; [apply histogram_bins|].
  split; [apply falls_in_one|].
  assert (Hsum : fold_right Z.add 0%Z (histogram bins data) = Z.of_nat (length data)).
  { rewrite histogram_bins. cbn [map fold_right].
    pose proof (how_many_partition data). lia. }
  split; [exact Hsum|].
  split; [|split; [|split]].
  - unfold summary. fold data. rewrite sum_positive_entries.
    + rewrite <- Hsum. rewrite histogram_bins. reflexivity.
    + rewrite histogram_bins. cbn [map combine labels].
      repeat constructor; apply how_many_nonneg.
  - unfold summary. fold data. apply List.Forall_forall. intros lc Hlc.
    apply List.filter_In in Hlc as [Hin Hpos]. split; [|now apply Z.ltb_lt].
    destruct lc as [l c]. apply in_combine_l in Hin. exact Hin.
  - intros x. cbn [falls_in]. destruct (Qle_bool_reflect 5 x); split; auto; discriminate.
  - intros x. cbn [falls_in]. destruct (Qlt_bool_reflect x (-5)); split; auto; discriminate.
Qed.

(** *** The histogram of a stage *)

(** X25. [create_big_hist] raises [TypeError] exactly on a column with one
    value: [get_advanced_stats] answers [None] below two values, and the
    figure subscripts that answer untested.  An empty column gives no figure,
    two or more values give one; the table of advanced statistics, which
    tests the answer, drops the stage instead. *)
Theorem create_big_hist_raises_on_single_value
    (stats : Type) (describe : list Q -> stats)
    (figure : Type) (draw : list Q -> stats -> figure) (col : list numeric) :
  (create_big_hist stats describe figure draw col = TypeError
   <-> length (non_null col) = 1%nat) /\
  (create_big_hist stats describe figure draw col = Value None
   <-> non_null col = []) /\
  ((2 <= length (non_null col))%nat ->
   create_big_hist stats describe figure draw col
   = Value (Some (draw (non_null col) (describe (non_null col))))) /\
  (forall name, (length (non_null col) < 2)%nat ->
     advanced_stats stats describe [(name, col)] = []).
Proof.
  unfold create_big_hist, advanced_stats, get_advanced_stats. cbn.
  destruct (non_null col) as [|x [|y data]]; cbn;
    repeat split; intros; try discriminate; try lia; auto.
Qed.

Lemma create_big_hist_raises_on_single_value_witness :
  create_big_hist Q Stats.mean Q (fun data s => s) [Some 3; None] = TypeError.
Proof.
  apply (proj1 (create_big_hist_raises_on_single_value Q Stats.mean Q (fun data s => s)
                  [Some 3; None])).
  reflexivity.
Defined.

(** *** Outliers *)

Lemma insert_sorted_keeps_order (x : Q) (l : list Q) :
  StronglySorted Qle l -> StronglySorted Qle (insert_sorted x l).
Proof.
  induction 1 as [|z l Hl IH Hz]; cbn [insert_sorted].
  - repeat constructor.
  - destruct (Qle_bool_reflect x z) as [Hle | Hgt].
    + constructor; [constructor; assumption|].
      constructor; [assumption|].
      eapply List.Forall_impl; [|exact Hz]. intros a Ha. cbn in Ha. lra.
    + constructor; [assumption|].
      apply List.Forall_forall. intros y Hy.
      apply insert_sorted_in in Hy as [-> | Hy]; [lra|].
      rewrite List.Forall_forall in Hz. now apply Hz.
Qed.

Lemma sort_in_order (l : list Q) : StronglySorted Qle (sort l).
Proof.
  unfold sort. induction l as [|x l IH]; cbn [fold_right]; [constructor|].
  now apply insert_sorted_keeps_order.
Qed.

Lemma sorted_nth (l : list Q) (i j : nat) :
  StronglySorted Qle l -> (i <= j < length l)%nat -> nth i l 0 <= nth j l 0.
Proof.
  intros Hs. revert i j. induction Hs as [|x l Hl IH Hx]; intros i j Hij; cbn [length] in Hij.
  - lia.
  - destruct i as [|i], j as [|j]; cbn [nth]; try lia.
    + lra.
    + rewrite List.Forall_forall in Hx. apply Hx, nth_In. lia.
    + apply IH. lia.
Qed.

Lemma lerp_between (a b g : Q) : a <= b -> 0 <= g <= 1 -> a <= a + g * (b - a) <= b.
Proof. intros Hab Hg. nra. Qed.

Lemma lerp_mono (a b g h : Q) : a <= b -> g <= h -> a + g * (b - a) <= a + h * (b - a).
Proof. intros Hab Hgh. nra. Qed.

Lemma quantile_mono (p q : Q) (data : list Q) :
  data <> [] -> 0 <= p -> p <= q -> q <= 1 -> quantile p data <= quantile q data.
Proof.
  intros Hne Hp Hpq Hq. unfold quantile.
  pose proof (sort_in_order data) as Hs. pose proof (sort_length data) as Hlen.
  set (xs := sort data) in *.
  assert (Hn : (1 <= length xs)%nat) by (rewrite Hlen; destruct data; [congruence | cbn; lia]).
  set (n := Z.of_nat (length xs)).
  assert (Hcount : count xs - 1 == inject_Z (n - 1)).
  { unfold count, Z.sub. rewrite inject_Z_plus, inject_Z_opp. reflexivity. }
  assert (Hn1 : 0 <= count xs - 1).
  { rewrite Hcount. change 0 with (inject_Z 0). rewrite <- Zle_Qle. lia. }
  set (u := p * (count xs - 1)). set (v := q * (count xs - 1)).
  assert (Hu0 : 0 <= u) by (unfold u; nra).
  assert (Huv : u <= v) by (unfold u, v; nra).
  assert (Hv1 : v <= count xs - 1) by (unfold v; nra).
  pose proof (Qfloor_le u) as U1. pose proof (Qlt_floor u) as U2.
  pose proof (Qfloor_le v) as V1. pose proof (Qlt_floor v) as V2.
  rewrite inject_Z_plus in U2, V2. change (inject_Z 1) with 1 in U2, V2.
  assert (Hfu0 : (0 <= Qfloor u)%Z) by (change 0%Z with (Qfloor 0); now apply Qfloor_resp_le).
  assert (Hfuv : (Qfloor u <= Qfloor v)%Z) by now apply Qfloor_resp_le.
  assert (Hfv1 : (Qfloor v <= n - 1)%Z) by (rewrite Zle_Qle, <- Hcount; lra).
  assert (Hnth : forall i j, (0 <= i <= j)%Z -> (j <= n - 1)%Z ->
                   at_index xs i <= at_index xs j).
  { intros i j Hij Hj. unfold at_index. apply sorted_nth; [exact Hs | lia]. }
  set (lo := Qfloor u) in *. set (lo' := Qfloor v) in *.
  set (hi := Z.min (lo + 1) (n - 1)). set (hi' := Z.min (lo' + 1) (n - 1)).
  assert (Ha : at_index xs lo <= at_index xs hi) by (apply Hnth; unfold hi; lia).
  assert (Hb : at_index xs lo' <= at_index xs hi') by (apply Hnth; unfold hi'; lia).
  destruct (Z.eq_dec lo lo') as [E | Hlt].
  - unfold hi'. rewrite <- E. fold hi. apply lerp_mono; [exact Ha | lra].
  - assert (Hhi : at_index xs hi <= at_index xs lo') by (apply Hnth; unfold hi; lia).
    pose proof (lerp_between _ _ (u - inject_Z lo) Ha ltac:(lra)).
    pose proof (lerp_between _ _ (v - inject_Z lo') Hb ltac:(lra)).
    lra.
Qed.

(** X26. [detect_outliers] flags nothing in a column with fewer than four
    values; otherwise the first quartile is at most the third, so with a
    threshold that is not negative the fences lie outside the quartiles:
    every flagged row is a row of the frame whose value is below the first
    or above the third quartile, and a row with no value is never flagged. *)
Theorem outliers_lie_outside_the_quartiles
    {A : Type} (df : list A) (col : A -> numeric) (threshold : Q) :
  0 <= threshold ->
  let data := non_null (map col df) in
  ((length data < 4)%nat -> detect_outliers df col threshold = []) /\
  (data <> [] -> quantile (1 # 4) data <= quantile (3 # 4) data) /\
  (forall r, In r (detect_outliers df col threshold) ->
     In r df /\
     exists x, col r = Some x /\
               (x < quantile (1 # 4) data \/ quantile (3 # 4) data < x)).
Proof.
  intros Ht. cbv zeta. set (data := non_null (map col df)).
  assert (Hq : data <> [] -> quantile (1 # 4) data <= quantile (3 # 4) data)
    by (intros Hne; apply quantile_mono; [assumption | lra..]).
  split; [|split; [exact Hq|]].
  - intros Hlen. unfold detect_outliers. fold data.
    now replace (length data <? 4)%nat with true by (symmetry; apply Nat.ltb_lt; lia).
  - intros r. unfold detect_outliers. fold data.
    destruct (Nat.ltb_spec (length data) 4) as [_ | Hlen]; [intros []|].
    intros Hin. apply List.filter_In in Hin as [Hdf Hout]. split; [exact Hdf|].
    destruct (col r) as [x|]; [|discriminate]. exists x. split; [reflexivity|].
    assert (Hne : data <> []) by (intros E; rewrite E in Hlen; cbn in Hlen; lia).
    specialize (Hq Hne).
    set (Q1 := quantile (1 # 4) data) in *. set (Q3 := quantile (3 # 4) data) in *.
    apply orb_prop in Hout as [H | H].
    + left. destruct (Qlt_bool_reflect x (Q1 - threshold * (Q3 - Q1))); [nra | discriminate].
    + right. destruct (Qlt_bool_reflect (Q3 + threshold * (Q3 - Q1)) x); [nra | discriminate].
Qed.

Lemma outliers_lie_outside_the_quartiles_witness :
  detect_outliers [Some 1; Some 2; None; Some 3; Some 4; Some 100] (fun v => v) (3 # 2)
  = [Some 100] /\
  detect_outliers [Some 1; Some 2; Some 300] (fun v => v) (3 # 2) = [].
Proof.
  split; [vm_compute; reflexivity|].
  apply (proj1 (outliers_lie_outside_the_quartiles
                  [Some 1; Some 2; Some 300] (fun v => v) (3 # 2) ltac:(lra))).
  cbn. lia.
Defined.

(** *** The AI diagnosis form *)

Lemma first_containing_spec (name : string) (available : list string) :
  match first_containing name available with
  | Some m => exists before after,
                available = (before ++ m :: after)%list /\ contains name m = true /\
                Forall (fun m' => contains name m' = false) before
  | None => Forall (fun m' => contains name m' = false) available
  end.
Proof.
  induction available as [|m rest IH]; cbn [first_containing]; [constructor|].
  destruct (contains name m) eqn:E.
  - exists [], rest. repeat split; [exact E | constructor].
  - destruct (first_containing name rest) as [m'|].
    + destruct IH as (before & after & -> & Hm & Hb).
      exists (m :: before), after. repeat split; [exact Hm | now constructor].
    + now constructor.
Qed.

Lemma contains_nonempty (name : string) (m : string) :
  name <> "" -> contains name m = true -> m <> "".
Proof.
  intros Hname H ->. destruct name; [congruence|]. discriminate H.
Qed.

Lemma truthy_first_containing (name : string) (available : list string) :
  name <> "" ->
  truthy (first_containing name available)
  = match first_containing name available with Some _ => true | None => false end.
Proof.
  intros Hname. pose proof (first_containing_spec name available) as H.
  destruct (first_containing name available) as [m|]; [|reflexivity].
  destruct H as (_ & _ & _ & Hm & _).
  pose proof (contains_nonempty name m Hname Hm). now destruct m.
Qed.

Lemma preferred_two (available : list string) :
  preferred ["gemini-1.5-flash"; "gemini-pro"] available
  = match first_containing "gemini-1.5-flash" available with
    | Some m => Some m
    | None => first_containing "gemini-pro" available
    end.
Proof.
  cbn [preferred]. rewrite !truthy_first_containing by discriminate.
  destruct (first_containing "gemini-1.5-flash" available); [reflexivity|].
  destruct (first_containing "gemini-pro" available); reflexivity.
Qed.

Lemma truthy_containing (name m : string) :
  name <> "" -> contains name m = true -> truthy (Some m) = true.
Proof.
  intros Hname Hm. pose proof (contains_nonempty name m Hname Hm). now destruct m.
Qed.

(** X27. The model of the AI diagnosis is always one of the models the
    service lists, and none only when it lists none.  If a listed name
    contains ['gemini-1.5-flash'] the first such model is taken; if none does
    but a name contains ['gemini-pro'], the first of those; otherwise the
    first model of the list. *)
Theorem target_model_prefers_flash_then_pro (available_models : list string) :
  let flash m := contains "gemini-1.5-flash" m in
  let pro m := contains "gemini-pro" m in
  (target_model available_models = None <-> available_models = []) /\
  (forall m, target_model available_models = Some m -> In m available_models) /\
  (forall m, first_containing "gemini-1.5-flash" available_models = Some m ->
     target_model available_models = Some m /\ flash m = true) /\
  (Forall (fun m => flash m = false) available_models ->
   forall m, first_containing "gemini-pro" available_models = Some m ->
     target_model available_models = Some m /\ pro m = true) /\
  (Forall (fun m => flash m = false) available_models ->
   Forall (fun m => pro m = false) available_models ->
   target_model available_models = head available_models).
Proof.
  cbv zeta. unfold target_model. rewrite preferred_two.
  pose proof (first_containing_spec "gemini-1.5-flash" available_models) as Hf.
  pose proof (first_containing_spec "gemini-pro" available_models) as Hp.
  destruct (first_containing "gemini-1.5-flash" available_models) as [mf|].
  - destruct Hf as (before & after & E & Hm & Hb).
    rewrite (truthy_containing "gemini-1.5-flash" mf ltac:(discriminate) Hm). cbn [negb andb].
    assert (Hin : In mf available_models)
      by (rewrite E; apply in_or_app; right; now left).
    assert (Hno : ~ Forall (fun m => contains "gemini-1.5-flash" m = false) available_models).
    { rewrite List.Forall_forall. intros Hall. specialize (Hall mf Hin). congruence. }
    split; [split; [discriminate | intros E'; rewrite E' in Hin; destruct Hin]|].
    split; [intros m [= <-]; exact Hin|].
    split; [intros m [= <-]; tauto|].
    split; intros Hall; now exfalso.
  - destruct (first_containing "gemini-pro" available_models) as [mp|].
    + destruct Hp as (before & after & E & Hm & Hb).
      rewrite (truthy_containing "gemini-pro" mp ltac:(discriminate) Hm). cbn [negb andb].
      assert (Hin : In mp available_models)
        by (rewrite E; apply in_or_app; right; now left).
      split; [split; [discriminate | intros E'; rewrite E' in Hin; destruct Hin]|].
      split; [intros m [= <-]; exact Hin|].
      split; [discriminate|].
      split; [intros _ m [= <-]; tauto|].
      intros _ Hall. exfalso. rewrite List.Forall_forall in Hall.
      specialize (Hall mp Hin). congruence.
    + cbn [truthy negb andb].
      destruct available_models as [|m0 rest]; cbn [length Nat.eqb negb head].
      * repeat split; try discriminate; try tauto.
      * split; [split; discriminate|].
        split; [intros m [= <-]; now left|].
        split; [discriminate|]. split; [discriminate | reflexivity].
Qed.

Lemma target_model_prefers_flash_then_pro_witness :
  target_model ["models/gemini-pro"; "models/gemini-1.5-flash-latest"]
  = Some "models/gemini-1.5-flash-latest" /\
  contains "gemini-1.5-flash" "models/gemini-1.5-flash-latest" = true.
Proof.
  apply (proj1 (proj2 (proj2 (target_model_prefers_flash_then_pro
           ["models/gemini-pro"; "models/gemini-1.5-flash-latest"])))).
  reflexivity.
Defined.

(** X28. The form gives a report only to an accepted password, with the
    package installed, an API key in the secrets, a model chosen and an
    answer from it.  When the secrets hold no ['AI_ASK_PASSWORD'], the
    accepted password is the literal default of the lookup,
    ['default_password'], and no other. *)
Theorem report_needs_accepted_password
    (secrets : gmap string Engine.secret) (AI_AVAILABLE : bool)
    (genai : gemini) (password : string) :
  (forall m text,
     ai_diagnosis secrets AI_AVAILABLE genai password = Report m text <->
     password_accepted secrets password = true /\ AI_AVAILABLE = true /\
     is_Some (secrets !! "GEMINI_API_KEY") /\
     exists available_models,
       list_models genai = Some available_models /\
       target_model available_models = Some m /\ m <> "" /\
       generate_content genai m = Some text) /\
  (ai_diagnosis secrets AI_AVAILABLE genai password = WrongPassword <->
   password_accepted secrets password = false) /\
  (secrets !! "AI_ASK_PASSWORD" = None ->
   (password_accepted secrets password = true <-> password = "default_password")).
Proof.
  split; [|split].
  - intros m text. unfold ai_diagnosis.
    destruct (password_accepted secrets password); [|split; [discriminate | intros [[=] _]]].
    destruct AI_AVAILABLE; [|split; [discriminate | intros (_ & [=] & _)]].
    destruct (secrets !! "GEMINI_API_KEY") as [key|];
      [|split; [discriminate | intros (_ & _ & [? [=]] & _)]].
    destruct (list_models genai) as [available|];
      [|split; [discriminate | intros (_ & _ & _ & ? & [=] & _)]].
    destruct (target_model available) as [[|c m0]|] eqn:Et; cbn [truthy].
    + split; [discriminate|]. intros (_ & _ & _ & av & [= <-] & Hm & Hne & _).
      rewrite Et in Hm. injection Hm as <-. congruence.
    + destruct (generate_content genai (String c m0)) as [t|] eqn:Eg.
      * split.
        -- intros [= <- <-]. repeat split; eauto.
        -- intros (_ & _ & _ & av & [= <-] & Hm & _ & Hg).
           rewrite Et in Hm. injection Hm as <-. rewrite Eg in Hg. now injection Hg as <-.
      * split; [discriminate|].
        intros (_ & _ & _ & av & [= <-] & Hm & _ & Hg).
        rewrite Et in Hm. injection Hm as <-. rewrite Eg in Hg. discriminate.
    + split; [discriminate|]. intros (_ & _ & _ & av & [= <-] & Hm & _).
      rewrite Et in Hm. discriminate.
  - unfold ai_diagnosis. destruct (password_accepted secrets password).
    + split; [|discriminate]. destruct AI_AVAILABLE; [|discriminate].
      destruct (secrets !! "GEMINI_API_KEY"); [|discriminate].
      destruct (list_models genai) as [available|]; [|discriminate].
      destruct (target_model available) as [[|c m0]|]; cbn [truthy]; try discriminate.
      destruct (generate_content genai _); discriminate.
    + split; reflexivity.
  - intros Hmiss. unfold password_accepted. rewrite Hmiss.
    destruct (String.eqb_spec password "default_password"); split; auto; discriminate.
Qed.

Lemma report_needs_accepted_password_witness :
  password_accepted ∅ "default_password" = true /\
  password_accepted ∅ "letmein" = false.
Proof.
  pose proof (proj2 (proj2 (report_needs_accepted_password ∅ true
                {| list_models := None; generate_content := fun _ => None |}
                "default_password")) (lookup_empty _)) as H1.
  pose proof (proj2 (proj2 (report_needs_accepted_password ∅ true
                {| list_models := None; generate_content := fun _ => None |}
                "letmein")) (lookup_empty _)) as H2.
  split; [now apply H1|].
  apply not_true_is_false. intros E. apply H2 in E. discriminate E.
Defined.

(** ** The statistic selector on a group *)

Lemma collect_flags (c : string) (vs : list numeric) :
  exists flags,
    collect (fun r => eval_row r (CaseWhen (CGt (Col c) (Num 0)) (Num 1) (Num 0)))
            (map (metric_row c) vs) = Answer (map Some flags) /\
    length flags = length vs.
Proof.
  induction vs as [|v vs (flags & IH & Hlen)]; [exists []; split; reflexivity|].
  cbn [map collect]. rewrite IH.
  cbn [eval_row eval_row_cond]. unfold metric_row. rewrite String.eqb_refl.
  cbn [Sql.bind sql_gt sql_lt lit].
  destruct v as [x|]; [destruct (Qlt_bool 0 x)|]; cbn [Sql.bind eval_row];
    eexists (_ :: flags); (split; [reflexivity | cbn [length]; now rewrite Hlen]).
Qed.

Lemma non_null_all_some (xs : list Q) : non_null (map Some xs) = xs.
Proof. induction xs as [|x xs IH]; [reflexivity|]. cbn. now rewrite IH. Qed.

Lemma count_star_not_zero {A} (g : list A) : g <> [] -> Qeq_bool (COUNT_STAR g) 0 = false.
Proof.
  intros Hne. destruct (Qeq_bool_reflect (COUNT_STAR g) 0) as [Hz|]; [|reflexivity].
  exfalso. destruct g as [|a g]; [congruence|].
  unfold COUNT_STAR in Hz. cbn [length] in Hz. rewrite Nat2Z.inj_succ in Hz.
  unfold Qeq in Hz. cbn in Hz. lia.
Qed.

(** X29. Apart from skewness and kurtosis, every choice of the statistic
    selector evaluates on every non-empty group, whatever the metric values
    and NULLs in it: the coefficient of variation tests the mean against zero
    before it divides by its absolute value, and the positive rate divides by
    a row count that is not zero.  A method name the selector does not know
    is treated as the mean. *)
Theorem one_level_statistics_never_fail
    (root : Q -> Q) (c : string) (vs : list numeric) (stat_method : string) :
  vs <> [] ->
  stat_method <> "偏度 (分佈形狀)" -> stat_method <> "峰度 (尾部厚度)" ->
  (exists v, eval_group root (map (metric_row c) vs) (AppSelector.agg_func stat_method c)
             = Answer v) /\
  (~ In stat_method stat_methods ->
   AppSelector.select stat_method c = (Avg (Col c), "平均值")).
Proof.
  intros Hne Hskew Hkurt.
  assert (Hg : map (metric_row c) vs <> []) by (destruct vs; [congruence | discriminate]).
  unfold AppSelector.agg_func, AppSelector.select, stat_methods. cbn [In].
  destruct (String.eqb_spec stat_method "中位數 (排除極端值)") as [-> | N1].
  { split; [|tauto]. cbn [fst eval_group]. rewrite collect_metric. eexists. reflexivity. }
  destruct (String.eqb_spec stat_method "平均值 (含極端值)") as [-> | N2].
  { split; [|tauto]. cbn [fst eval_group]. rewrite collect_metric. eexists. reflexivity. }
  destruct (String.eqb_spec stat_method "標準差 (波動程度)") as [-> | N3].
  { split; [|tauto]. cbn [fst eval_group]. rewrite collect_metric. eexists. reflexivity. }
  destruct (String.eqb_spec stat_method "變異係數 (相對波動)") as [-> | N4].
  { split; [|tauto]. cbn [fst eval_group eval_group_cond]. rewrite !collect_metric.
    cbn [Sql.bind].
    destruct (AVG vs) as [m|]; cbn [sql_eq].
    - destruct (Qeq_bool_reflect m 0) as [Hz | Hnz]; cbn [eval_group Sql.bind].
      + eexists. reflexivity.
      + rewrite ?collect_metric. cbn [Sql.bind sql_abs option_map].
        destruct (STDDEV root vs) as [s|]; cbn [sql_div].
        * destruct (Qeq_bool_reflect (Qabs m) 0) as [Ha | _].
          -- exfalso. apply Hnz. revert Ha. apply Qabs_case; intros; lra.
          -- cbn [Sql.bind]. eexists. reflexivity.
        * eexists. reflexivity.
    - cbn [eval_group]. rewrite ?collect_metric. cbn [Sql.bind sql_abs option_map].
      destruct (STDDEV root vs); cbn [sql_div Sql.bind]; eexists; reflexivity. }
  destruct (String.eqb_spec stat_method "偏度 (分佈形狀)") as [-> | N5]; [congruence|].
  destruct (String.eqb_spec stat_method "峰度 (尾部厚度)") as [-> | N6]; [congruence|].
  destruct (String.eqb_spec stat_method "四分位距 (離散程度)") as [-> | N7].
  { split; [|tauto]. cbn [fst eval_group]. rewrite !collect_metric. eexists. reflexivity. }
  destruct (String.eqb_spec stat_method "正樣本比例") as [-> | N8].
  { split; [|tauto]. cbn [fst eval_group].
    destruct (collect_flags c vs) as (flags & -> & Hlen). cbn [Sql.bind].
    unfold SUM. rewrite non_null_all_some.
    assert (Hf : flags <> []) by (intros E; rewrite E in Hlen; destruct vs; [congruence | discriminate]).
    destruct flags as [|f flags]; [congruence|].
    cbn [sql_mul sql_div]. rewrite (count_star_not_zero _ Hg). eexists. reflexivity. }
  split; [|reflexivity].
  cbn [fst eval_group]. rewrite collect_metric. eexists. reflexivity.
Qed.

Lemma one_level_statistics_never_fail_witness :
  exists v, eval_group (fun x => x) (map (metric_row "yoy_pct") [Some 0; None; Some 0])
              (AppSelector.agg_func "變異係數 (相對波動)" "yoy_pct") = Answer v.
Proof.
  apply (one_level_statistics_never_fail (fun x => x) "yoy_pct" [Some 0; None; Some 0]
           "變異係數 (相對波動)"); discriminate.
Defined.

(** ** Report months in the order of their text *)

Lemma pretty_three_form (n : Z) :
  (100 <= n <= 999)%Z ->
  pretty n = String (pretty_N_char (Z.to_N n / 100))
               (String (pretty_N_char (Z.to_N n / 10 mod 10))
                  (String (pretty_N_char (Z.to_N n mod 10)) "")).
Proof.
  intros Hn. destruct n as [|p|p]; try lia.
  change (pretty (Z.pos p)) with (pretty (N.pos p)).
  change (Z.to_N (Z.pos p)) with (N.pos p).
  unfold pretty, pretty_N. rewrite decide_False by discriminate.
  rewrite pretty_N_go_step by lia.
  rewrite pretty_N_go_step by (apply N.div_str_pos; lia).
  rewrite pretty_N_go_step.
  2:{ apply N.div_str_pos. split; [lia|]. apply N.div_le_lower_bound; lia. }
  replace (N.pos p / 10 / 10 / 10)%N with 0%N.
  2:{ symmetry. rewrite !N.Div0.div_div. apply N.div_small. lia. }
  rewrite pretty_N_go_0.
  replace ((N.pos p / 10 / 10) mod 10)%N with (N.pos p / 100)%N; [reflexivity|].
  rewrite N.Div0.div_div. change (10 * 10)%N with 100%N.
  symmetry. apply N.mod_small. apply N.Div0.div_lt_upper_bound. lia.
Qed.

Lemma digit_cases (a : N) :
  (a < 10)%N -> In a [0; 1; 2; 3; 4; 5; 6; 7; 8; 9]%N.
Proof. cbn [In]. lia. Qed.

Lemma digit_compare (a b : N) :
  (a < 10)%N -> (b < 10)%N ->
  Ascii.compare (pretty_N_char a) (pretty_N_char b) = (a ?= b)%N.
Proof.
  intros Ha Hb. apply digit_cases in Ha, Hb. cbn [In] in Ha, Hb.
  repeat (destruct Ha as [<- | Ha]; [
    repeat (destruct Hb as [<- | Hb]; [reflexivity|]); destruct Hb |]).
  destruct Ha.
Qed.

(** Linear arithmetic with division by a numeral. *)
Ltac div_lia := zify; Z.to_euclidean_division_equations; lia.

Lemma three_digits_in_order (a b : Z) (s t : string) :
  (100 <= a)%Z -> (a < b)%Z -> (b <= 999)%Z ->
  String.compare (pretty a +:+ s) (pretty b +:+ t) = Lt.
Proof.
  intros Ha Hab Hb.
  rewrite (pretty_three_form a), (pretty_three_form b) by lia.
  rewrite !string_app_cons. cbn [String.compare].
  set (x := Z.to_N a). set (y := Z.to_N b).
  assert (Hxy : (x < y)%N) by (unfold x, y; lia).
  assert (Hy : (y < 1000)%N) by (unfold y; lia).
  assert (Hx : (100 <= x)%N) by (unfold x; lia).
  clearbody x y. clear a b Ha Hab Hb.
  rewrite !digit_compare
    by (try apply N.mod_lt; try (apply N.Div0.div_lt_upper_bound; lia); lia).
  destruct (N.compare_spec (x / 100) (y / 100)) as [E1 | L1 | G1];
    [| reflexivity | exfalso; div_lia].
  destruct (N.compare_spec (x / 10 mod 10) (y / 10 mod 10)) as [E2 | L2 | G2];
    [| reflexivity | exfalso; div_lia].
  destruct (N.compare_spec (x mod 10) (y mod 10)) as [E3 | L3 | G3];
    [exfalso; div_lia | reflexivity | exfalso; div_lia].
Qed.

(** X30. For a three-digit year offset the texts of the twelve months of the
    window sort in the order of time: December of the previous year first,
    then January to November.  This is the order [ORDER BY report_month] and
    the pivot of the heatmap put the columns in. *)
Theorem window_months_sort_in_time_order (year : Z) :
  (100 <= prev_minguo_year year)%Z -> (minguo_year year <= 999)%Z ->
  StronglySorted (fun a b => String.ltb a b = true)
    (map (fun ym => encode (fst ym) (snd ym)) (window_months year)).
Proof.
  intros Hlo Hhi. unfold window_months. cbn [map fst snd].
  assert (Hprev : forall m, String.ltb (encode (prev_minguo_year year) 12)
                                       (encode (minguo_year year) m) = true).
  { intros m. unfold encode, String.ltb.
    rewrite (three_digits_in_order (prev_minguo_year year) (minguo_year year));
      [reflexivity | | unfold prev_minguo_year |]; lia. }
  assert (Hsame : forall m m', String.ltb (pad2 m) (pad2 m') = true ->
            String.ltb (encode (minguo_year year) m) (encode (minguo_year year) m') = true).
  { intros m m' H. unfold encode, String.ltb in *.
    rewrite string_compare_app_same. rewrite !string_app_cons, string_app_nil.
    cbn [String.compare]. rewrite ascii_compare_refl. exact H. }
  repeat (constructor; [|repeat (constructor; [first [apply Hprev | apply Hsame; reflexivity]|]);
                         constructor]).
  constructor.
Qed.

Lemma window_months_sort_in_time_order_witness :
  StronglySorted (fun a b => String.ltb a b = true)
    (map (fun ym => encode (fst ym) (snd ym)) (window_months 2024)).
Proof.
  apply window_months_sort_in_time_order; unfold prev_minguo_year, minguo_year; lia.
Defined.
